(** * Resumi: the matching and scoring core

    A shallow embedding of the scoring core of the Resumi job
    recommendation backend, and the properties its specification states
    about it.  The embedded modules are

    - [backend/location_logic/normalizer.py]   (module [Location]),
    - [backend/profile_extraction/extractor.py] ([extract_skills], module
      [Extractor]),
    - [backend/job_normalization/normalizer.py] (module [JobNormalizer]),
    - [backend/matching/matcher.py]             (module [Matcher]),
    - [backend/explanations/generator.py]       (module [Explanations]).

    Conventions of the embedding.

    - A Python [str] is a [string]: a sequence of one-byte characters, with
      the letters, digits and blanks of ASCII.  The string methods
      ([lower], [strip], [split], [title], [in]) are written out below for
      that alphabet.
    - A Python [float] score is a rational number ([Q]).  Every constant of
      the source is a short decimal and is taken at its decimal value, and
      comparisons of scores are comparisons of values ([Qeq_bool],
      [Qle_bool]).  The rounding of binary floating point is modelled where
      a value is computed by a division: [MatcherBinary64] holds the skill
      similarity once more, on binary64 numbers.
    - [None] is [None]; an attribute of type [Optional[str]] is an
      [option string], and its truth value is written out ([truthy]).
    - A Python [set] of strings is a [gset string]; a [dict] used as a
      constant table is a [gmap string _].
    - Code that can raise returns a [result]; a [try]/[except] block is a
      match on it.
    - What lies outside the repository is a parameter: the MD5 digest of
      [hashlib] and the spaCy pipeline [nlp].  [JobNormalizerEncoding]
      holds [normalize_job] once more, with a digest that can raise. *)

From Stdlib Require Import QArith ZArith Ascii String List Bool Lia Lqa.
From Stdlib Require Import DecimalString Sorting.Sorted Sorting.Permutation.
From Stdlib Require Floats.PrimFloat Numbers.Cyclic.Int63.Uint63.
From stdpp Require Import gmap strings list.

Local Open Scope Q_scope.

(** ** Python strings *)

Module PyStr.

Definition is_upper (c : ascii) : bool :=
  let n := N_of_ascii c in ((65 <=? n) && (n <=? 90))%N.

Definition is_lower (c : ascii) : bool :=
  let n := N_of_ascii c in ((97 <=? n) && (n <=? 122))%N.

Definition is_alpha (c : ascii) : bool := is_upper c || is_lower c.

Definition is_digit (c : ascii) : bool :=
  let n := N_of_ascii c in ((48 <=? n) && (n <=? 57))%N.

(** [\w] of the [re] module, on one-byte characters. *)
Definition is_word (c : ascii) : bool :=
  is_alpha c || is_digit c || (N_of_ascii c =? 95)%N.

(** [str.isspace] on one character: tab to carriage return, the four
    separators 28 to 31, and the blank. *)
Definition is_space (c : ascii) : bool :=
  let n := N_of_ascii c in
  (((9 <=? n) && (n <=? 13)) || ((28 <=? n) && (n <=? 32)))%N.

Definition lower_char (c : ascii) : ascii :=
  if is_upper c then ascii_of_N (N_of_ascii c + 32) else c.

Definition upper_char (c : ascii) : ascii :=
  if is_lower c then ascii_of_N (N_of_ascii c - 32) else c.

(** [s.lower()] *)
Fixpoint lower (s : string) : string :=
  match s with
  | EmptyString => EmptyString
  | String c r => String (lower_char c) (lower r)
  end.

Fixpoint lstrip (s : string) : string :=
  match s with
  | EmptyString => EmptyString
  | String c r => if is_space c then lstrip r else s
  end.

Fixpoint rstrip (s : string) : string :=
  match s with
  | EmptyString => EmptyString
  | String c r =>
      match rstrip r with
      | EmptyString => if is_space c then EmptyString else String c EmptyString
      | r' => String c r'
      end
  end.

(** [s.strip()] *)
Definition strip (s : string) : string := rstrip (lstrip s).

(** [s.split(sep)] for a one-character separator: never the empty list. *)
Fixpoint split (sep : ascii) (s : string) : list string :=
  match s with
  | EmptyString => [EmptyString]
  | String c r =>
      if Ascii.eqb c sep then EmptyString :: split sep r
      else match split sep r with
           | p :: ps => String c p :: ps
           | [] => [String c EmptyString]
           end
  end.

Fixpoint startswith (p s : string) : bool :=
  match p, s with
  | EmptyString, _ => true
  | String a p', String b s' => Ascii.eqb a b && startswith p' s'
  | String _ _, EmptyString => false
  end.

(** [kw in s]: [kw] occurs in [s] as a substring. *)
Fixpoint contains (kw s : string) : bool :=
  startswith kw s ||
  match s with
  | EmptyString => false
  | String _ r => contains kw r
  end.

(** [s.title()]: a letter that follows a letter is lowered, any other
    letter is raised. *)
Fixpoint title_from (prev_cased : bool) (s : string) : string :=
  match s with
  | EmptyString => EmptyString
  | String c r =>
      String (if prev_cased then lower_char c else upper_char c)
             (title_from (is_alpha c) r)
  end.

Definition title (s : string) : string := title_from false s.

(** [s[:n]] for a non-negative constant [n]. *)
Fixpoint take (n : nat) (s : string) : string :=
  match n, s with
  | O, _ => EmptyString
  | S _, EmptyString => EmptyString
  | S n', String c r => String c (take n' r)
  end.

(** [sep.join(l)] *)
Fixpoint join (sep : string) (l : list string) : string :=
  match l with
  | [] => EmptyString
  | [x] => x
  | x :: r => String.append x (String.append sep (join sep r))
  end.

(** Truth value of a string. *)
Definition nonempty (s : string) : bool :=
  match s with EmptyString => false | String _ _ => true end.

(** Truth value of an [Optional[str]]: neither [None] nor empty. *)
Definition truthy (o : option string) : bool :=
  match o with Some s => nonempty s | None => false end.

(** [any(kw in s for kw in kws)] *)
Definition any_in (kws : list string) (s : string) : bool :=
  existsb (fun kw => contains kw s) kws.

(** [str(o)] for an [Optional[str]] inside an f-string. *)
Definition str_of_option (o : option string) : string :=
  match o with Some s => s | None => "None"%string end.

End PyStr.

(** ** Scores *)

Module Score.

(** [max(a, b)]: the first argument unless the second is larger. *)
Definition pymax (a b : Q) : Q :=
  match a ?= b with Lt => b | _ => a end.

(** [min(a, b)]: the first argument unless the second is smaller. *)
Definition pymin (a b : Q) : Q :=
  match b ?= a with Lt => b | _ => a end.

(** [a >= b] *)
Definition ge (a b : Q) : bool := Qle_bool b a.

End Score.

(** ** backend/location_logic/normalizer.py *)

Module Location.
Import PyStr Score.

Record NormalizedLocation := mkNormalizedLocation {
  city : option string;
  country : option string;
  location_type : string;
  raw : string
}.

Definition COUNTRY_MAPPINGS : gmap string string :=
  list_to_map
    [ ("usa", "USA"); ("us", "USA"); ("united states", "USA");
      ("canada", "Canada"); ("ca", "Canada");
      ("uk", "United Kingdom"); ("gb", "United Kingdom");
      ("united kingdom", "United Kingdom");
      ("germany", "Germany"); ("france", "France");
      ("india", "India"); ("in", "India");
      ("uae", "UAE"); ("united arab emirates", "UAE"); ("dubai", "UAE");
      ("singapore", "Singapore"); ("sg", "Singapore");
      ("australia", "Australia"); ("au", "Australia") ]%string.

Definition CITY_ALIASES : gmap string string :=
  list_to_map
    [ ("bengaluru", "Bangalore"); ("bangalore", "Bangalore");
      ("bombay", "Mumbai"); ("mumbai", "Mumbai");
      ("new delhi", "Delhi"); ("delhi", "Delhi");
      ("gurugram", "Gurgaon"); ("gurgaon", "Gurgaon") ]%string.

Definition REMOTE_KEYWORDS : list string :=
  [ "remote"; "anywhere"; "worldwide"; "global"; "work from home"; "wfh" ]%string.

Definition HYBRID_KEYWORDS : list string :=
  [ "hybrid"; "flexible"; "remote-friendly" ]%string.

(** [COUNTRY_MAPPINGS.get(country_str.lower().strip(), country_str.title())].
    [lower], [strip] and [title] are Python's on text written in ASCII;
    Python folds the case of other letters too, so what is proved of the
    letter case of a country is stated for ASCII text. *)
Definition _normalize_country (country_str : string) : string :=
  let country_lower := strip (lower country_str) in
  default (title country_str) (COUNTRY_MAPPINGS !! country_lower).

Definition _parse_city_country (location_str : string)
  : option string * option string :=
  let parts := map strip (split ","%char location_str) in
  match parts with
  | [] => (None, None)
  | [single] =>
      match CITY_ALIASES !! lower single with
      | Some c => (Some c, None)
      | None => (Some single, None)
      end
  | [p0; p1] =>
      (Some (default p0 (CITY_ALIASES !! lower p0)),
       Some (_normalize_country p1))
  | p0 :: rest =>
      (Some (default p0 (CITY_ALIASES !! lower p0)),
       Some (_normalize_country (List.last rest EmptyString)))
  end.

Definition normalize_location (location_str : string) : NormalizedLocation :=
  if negb (nonempty location_str) then
    mkNormalizedLocation None None "onsite" "Not specified"
  else
    let location_lower := strip (lower location_str) in
    if any_in REMOTE_KEYWORDS location_lower then
      mkNormalizedLocation None None "remote" location_str
    else
      let location_type :=
        if any_in HYBRID_KEYWORDS location_lower
        then "hybrid"%string else "onsite"%string in
      let '(city, country) := _parse_city_country location_str in
      mkNormalizedLocation city country location_type location_str.

(** [a and b and a.lower() == b.lower()] on two [Optional[str]]. *)
Definition same_ci (a b : option string) : bool :=
  match a, b with
  | Some x, Some y => nonempty x && nonempty y && String.eqb (lower x) (lower y)
  | _, _ => false
  end.

(** One turn of the first loop over the normalized preferences. *)
Definition match_step (job_location : NormalizedLocation)
    (best_score : Q) (pref : NormalizedLocation) : Q :=
  if same_ci (city job_location) (city pref) then pymax best_score 1.0
  else if same_ci (country job_location) (country pref)
       then pymax best_score 0.7
       else best_score.

(** The second loop: stops at the first preference of the job's country. *)
Fixpoint relocation_loop (job_location : NormalizedLocation)
    (best_score : Q) (prefs : list NormalizedLocation) : Q :=
  match prefs with
  | [] => best_score
  | pref :: rest =>
      match country pref, country job_location with
      | Some pc, Some jc =>
          if nonempty pc && String.eqb (lower jc) (lower pc)
          then pymax best_score 0.5
          else relocation_loop job_location best_score rest
      | _, _ => relocation_loop job_location best_score rest
      end
  end.

Definition score_location_match (job_location : NormalizedLocation)
    (preferred_locations : list string)
    (open_to_relocation open_to_international remote_only : bool) : Q :=
  if String.eqb (location_type job_location) "remote" then 1.0
  else if remote_only && negb (String.eqb (location_type job_location) "remote")
  then 0.2
  else match preferred_locations with
  | [] => 0.5
  | _ =>
    let normalized_prefs := map normalize_location preferred_locations in
    let best_score := fold_left (match_step job_location) normalized_prefs 0.0 in
    if Qeq_bool best_score 0.0 then
      if open_to_relocation then
        let best_score :=
          if truthy (country job_location)
          then relocation_loop job_location best_score normalized_prefs
          else best_score in
        if Qeq_bool best_score 0.0 && open_to_international then 0.4
        else if Qeq_bool best_score 0.0 then 0.1
        else best_score
      else best_score
    else best_score
  end.

End Location.

(** ** Exceptions *)

Module Exn.

(** The exceptions the embedded code can raise.  [ExternalError] is any
    exception raised inside the spaCy pipeline. *)
Inductive exn :=
  AttributeError | TypeError | ExternalError | UnicodeEncodeError.

Inductive result (A : Type) :=
| Ok (a : A)
| Raise (e : exn).
Arguments Ok {A} a.
Arguments Raise {A} e.

(** Sequencing: the first exception ends the computation. *)
#[export] Instance result_bind : MBind result := fun A B k r =>
  match r with
  | Ok a => k a
  | Raise e => Raise e
  end.

Definition raises {A : Type} (r : result A) : Prop := exists e, r = Raise e.

End Exn.

(** ** backend/profile_extraction/extractor.py: [extract_skills] *)

Module Extractor.
Import PyStr Exn.

Definition TECHNICAL_SKILLS : gset string :=
  list_to_set
    [ "python"; "java"; "javascript"; "typescript"; "c++"; "c#"; "ruby";
      "go"; "rust"; "php"; "swift"; "kotlin"; "scala"; "r"; "matlab";
      "sql"; "html"; "css";
      "react"; "angular"; "vue"; "django"; "flask"; "fastapi"; "spring";
      "express"; "node.js"; "nodejs"; ".net"; "rails"; "laravel";
      "tensorflow"; "pytorch"; "keras"; "pandas"; "numpy"; "scipy";
      "scikit-learn"; "matplotlib"; "seaborn";
      "postgresql"; "postgres"; "mysql"; "mongodb"; "mongo"; "redis";
      "elasticsearch"; "cassandra"; "dynamodb"; "oracle"; "sql server";
      "sqlite"; "snowflake"; "redshift"; "bigquery";
      "aws"; "azure"; "gcp"; "google cloud"; "docker"; "kubernetes"; "k8s";
      "terraform"; "ansible"; "jenkins"; "gitlab"; "github actions";
      "circleci"; "ci/cd"; "linux"; "bash"; "shell";
      "spark"; "hadoop"; "kafka"; "airflow"; "tableau"; "power bi";
      "looker"; "dbt"; "data analysis"; "machine learning";
      "deep learning"; "nlp"; "computer vision";
      "git"; "agile"; "scrum"; "rest api"; "graphql"; "microservices";
      "oauth"; "jwt"; "testing"; "unit testing"; "selenium"; "cypress";
      "jest"; "pytest" ]%string.

Definition BUSINESS_SKILLS : gset string :=
  list_to_set
    [ "financial modeling"; "financial analysis"; "valuation"; "dcf"; "lbo";
      "excel"; "bloomberg"; "capital iq"; "accounting"; "gaap"; "ifrs";
      "budgeting"; "forecasting"; "fp&a"; "investment banking";
      "private equity"; "venture capital";
      "market research"; "brand strategy"; "digital marketing"; "seo";
      "sem"; "social media"; "content marketing"; "email marketing"; "crm";
      "salesforce"; "hubspot"; "google analytics"; "marketing automation";
      "growth hacking"; "copywriting"; "b2b"; "b2c"; "saas sales";
      "supply chain"; "logistics"; "operations management";
      "process improvement"; "six sigma"; "lean"; "kaizen";
      "project management"; "program management"; "business strategy";
      "corporate strategy"; "consulting"; "management consulting";
      "product management"; "product strategy"; "roadmap"; "user stories";
      "agile"; "scrum"; "kanban"; "user research"; "a/b testing";
      "wireframing"; "figma";
      "powerpoint"; "presentation"; "communication"; "leadership";
      "team management"; "problem solving"; "analytical skills";
      "negotiation"; "stakeholder management" ]%string.

Definition ALL_SKILLS : gset string := TECHNICAL_SKILLS ∪ BUSINESS_SKILLS.

Definition word_opt (c : option ascii) : bool :=
  match c with Some a => is_word a | None => false end.

Definition head_char (s : string) : option ascii :=
  match s with EmptyString => None | String c _ => Some c end.

(** [\b] between the character [prev] and the character [next]. *)
Definition boundary (prev next : option ascii) : bool :=
  xorb (word_opt prev) (word_opt next).

(** The literal [skill], then [\b], at the start of [s]; [prev] is the
    character before [s]. *)
Fixpoint literal_then_boundary (skill s : string) (prev : option ascii) : bool :=
  match skill with
  | EmptyString => boundary prev (head_char s)
  | String a skill' =>
      match s with
      | EmptyString => false
      | String b s' => Ascii.eqb a b && literal_then_boundary skill' s' (Some b)
      end
  end.

Fixpoint search_from (skill s : string) (prev : option ascii) : bool :=
  (boundary prev (head_char s) && literal_then_boundary skill s prev) ||
  match s with
  | EmptyString => false
  | String c r => search_from skill r (Some c)
  end.

(** [re.search(r'\b' + re.escape(skill) + r'\b', text)] *)
Definition word_search (skill text : string) : bool :=
  search_from skill text None.

(** [a <= b] on strings: lexicographic on character codes. *)
Fixpoint str_le (a b : string) : bool :=
  match a, b with
  | EmptyString, _ => true
  | String _ _, EmptyString => false
  | String x a', String y b' =>
      if (N_of_ascii x <? N_of_ascii y)%N then true
      else if (N_of_ascii y <? N_of_ascii x)%N then false
      else str_le a' b'
  end.

Fixpoint insert_sorted (x : string) (l : list string) : list string :=
  match l with
  | [] => [x]
  | y :: r => if str_le x y then x :: l else y :: insert_sorted x r
  end.

(** [sorted(list(s))] for a set of strings. *)
Definition sorted (s : gset string) : list string :=
  fold_right insert_sorted [] (elements s).

Section WithNlp.

(** The spaCy pipeline is outside the repository.  [None]: the model
    could not be loaded ([SPACY_AVAILABLE] is false and [nlp] is
    [None]).  [Some f]: [f text] is the list of [(ent.text, ent.label_)]
    of [nlp(text).ents], or the exception the pipeline raised. *)
Variable nlp : option (string -> result (list (string * string))).

Definition ENTITY_LABELS : list string :=
  [ "ORG"; "PRODUCT"; "WORK_OF_ART"; "LANGUAGE" ]%string.

Definition entity_skill (ent : string * string) : option string :=
  if existsb (String.eqb (snd ent)) ENTITY_LABELS
  then if bool_decide (lower (fst ent) ∈ ALL_SKILLS)
       then Some (lower (fst ent)) else None
  else None.

Definition extract_skills (text : string) : result (list string) :=
  let text_lower := lower text in
  let found_skills : gset string :=
    filter (fun skill => word_search skill text_lower = true) ALL_SKILLS in
  found_skills ←
    match nlp with
    | Some pipeline =>
        ents ← pipeline text;
        Ok (found_skills ∪ list_to_set (omap entity_skill ents))
    | None => Ok found_skills
    end;
  Ok (sorted found_skills).

End WithNlp.

End Extractor.

(** ** backend/job_normalization/normalizer.py *)

Module JobNormalizer.
Import PyStr Exn.

(** A value of a raw posting where the code does not fix its type: the
    scalars a decoded JSON document holds. *)
Inductive PyVal :=
| VNone
| VBool (b : bool)
| VInt (z : Z)
| VStr (s : string).

(** Truth value. *)
Definition py_truthy (v : PyVal) : bool :=
  match v with
  | VNone => false
  | VBool b => b
  | VInt z => negb (z =? 0)%Z
  | VStr s => nonempty s
  end.

(** [str(v)], as an f-string renders it. *)
Definition py_str (v : PyVal) : string :=
  match v with
  | VNone => "None"
  | VBool true => "True"
  | VBool false => "False"
  | VInt z => DecimalString.NilZero.string_of_int (Z.to_int z)
  | VStr s => s
  end%string.

(** A raw posting, [Dict[str, Any]].  A field is [None] when the key is
    absent.  The keys the normalizer only copies are typed as the
    [NormalizedJob] attribute that receives them; the two keys it computes
    on, [location_raw] and [description], hold any value. *)
Record RawJob := mkRawJob {
  raw_title : option string;
  raw_company : option string;
  raw_location_raw : option PyVal;
  raw_description : option PyVal;
  raw_source : option string;
  raw_apply_url : option string;
  raw_employment_type : option string;
  raw_departments : option (list string)
}.

(** The [location] attribute of a job: the dictionary
    [{'city', 'country', 'type', 'raw'}] that [normalize_job] builds. *)
Record JobLocation := mkJobLocation {
  loc_city : option string;
  loc_country : option string;
  loc_type : string;
  loc_raw : string
}.

Record NormalizedJob := mkNormalizedJob {
  id : string;
  title : string;
  company : string;
  location : JobLocation;
  source : string;
  apply_url : string;
  description : string;
  required_skills : list string;
  preferred_skills : list string;
  employment_type : string;
  departments : list string;
  raw_data : RawJob
}.

(** [normalize_location(v)] on a value of any type: a false value takes
    the first return, any other value must have [.lower()]. *)
Definition normalize_location_any (v : PyVal) : result Location.NormalizedLocation :=
  match v with
  | VStr s => Ok (Location.normalize_location s)
  | _ =>
      if py_truthy v then Raise AttributeError
      else Ok (Location.mkNormalizedLocation None None "onsite" "Not specified")
  end.

(** [description[:1000]]: only a string can be sliced. *)
Definition slice_1000 (v : PyVal) : result string :=
  match v with
  | VStr s => Ok (take 1000 s)
  | _ => Raise TypeError
  end.

Section WithExternals.

(** [hashlib.md5(s.encode()).hexdigest()] *)
Variable md5_hexdigest : string -> string.
Variable nlp : option (string -> result (list (string * string))).

(** [extract_skills(v)] on a value of any type: [text.lower()] is its
    first step. *)
Definition extract_skills_any (v : PyVal) : result (list string) :=
  match v with
  | VStr s => Extractor.extract_skills nlp s
  | _ => Raise AttributeError
  end.

Definition _generate_job_id (title company location : string) : string :=
  let combined :=
    lower (title +:+ "|" +:+ company +:+ "|" +:+ location) in
  take 16 (md5_hexdigest combined).

(** The body of the [try] block. *)
Definition normalize_job_try (raw_job : RawJob) : result NormalizedJob :=
  let job_id :=
    _generate_job_id (default ""%string (raw_title raw_job))
                     (default ""%string (raw_company raw_job))
                     (py_str (default (VStr "") (raw_location_raw raw_job))) in
  let location_raw := default (VStr "") (raw_location_raw raw_job) in
  location ← normalize_location_any location_raw;
  let description := default (VStr "") (raw_description raw_job) in
  skills ← extract_skills_any description;
  let required_skills := firstn 10 skills in
  let preferred_skills := [] in
  description_1000 ← slice_1000 description;
  Ok {| id := job_id;
        title := default "Unknown"%string (raw_title raw_job);
        company := default "Unknown"%string (raw_company raw_job);
        location :=
          {| loc_city := Location.city location;
             loc_country := Location.country location;
             loc_type := Location.location_type location;
             loc_raw := Location.raw location |};
        source := default "unknown"%string (raw_source raw_job);
        apply_url := default ""%string (raw_apply_url raw_job);
        description := description_1000;
        required_skills := required_skills;
        preferred_skills := preferred_skills;
        employment_type := default "full-time"%string (raw_employment_type raw_job);
        departments := default [] (raw_departments raw_job);
        raw_data := raw_job |}.

(** [try: ... except Exception: return None] *)
Definition normalize_job (raw_job : RawJob) : option NormalizedJob :=
  match normalize_job_try raw_job with
  | Ok job => Some job
  | Raise _ => None
  end.

End WithExternals.

(** The loop of [deduplicate_jobs]: [seen_ids] and [unique_jobs] are the
    two variables it updates. *)
Fixpoint dedup_loop (jobs : list NormalizedJob)
    (seen_ids : gset string) (unique_jobs : list NormalizedJob)
  : list NormalizedJob :=
  match jobs with
  | [] => unique_jobs
  | job :: rest =>
      if bool_decide (id job ∉ seen_ids)
      then dedup_loop rest ({[ id job ]} ∪ seen_ids) (unique_jobs ++ [job])
      else dedup_loop rest seen_ids unique_jobs
  end.

Definition deduplicate_jobs (jobs : list NormalizedJob) : list NormalizedJob :=
  dedup_loop jobs ∅ [].

End JobNormalizer.

(** ** backend/job_normalization/normalizer.py: [normalize_job] with a
    digest that can raise *)

Module JobNormalizerEncoding.
Import PyStr Exn JobNormalizer.

Section WithExternals.

(** [hashlib.md5(s.encode()).hexdigest()].  [s.encode()] raises
    UnicodeEncodeError on a string that holds a lone surrogate, and the
    strings of a decoded JSON document can hold one; so the digest is a call
    that can raise, inside the [try] block of [normalize_job]. *)
Variable md5_hexdigest : string -> result string.
Variable nlp : option (string -> result (list (string * string))).

Definition _generate_job_id (title company location : string)
  : result string :=
  let combined :=
    lower (title +:+ "|" +:+ company +:+ "|" +:+ location) in
  digest ← md5_hexdigest combined;
  Ok (take 16 digest).

(** The body of the [try] block. *)
Definition normalize_job_try (raw_job : RawJob) : result NormalizedJob :=
  job_id ←
    _generate_job_id (default ""%string (raw_title raw_job))
                     (default ""%string (raw_company raw_job))
                     (py_str (default (VStr "") (raw_location_raw raw_job)));
  let location_raw := default (VStr "") (raw_location_raw raw_job) in
  location ← normalize_location_any location_raw;
  let description := default (VStr "") (raw_description raw_job) in
  skills ← extract_skills_any nlp description;
  let required_skills := firstn 10 skills in
  let preferred_skills := [] in
  description_1000 ← slice_1000 description;
  Ok {| id := job_id;
        title := default "Unknown"%string (raw_title raw_job);
        company := default "Unknown"%string (raw_company raw_job);
        location :=
          {| loc_city := Location.city location;
             loc_country := Location.country location;
             loc_type := Location.location_type location;
             loc_raw := Location.raw location |};
        source := default "unknown"%string (raw_source raw_job);
        apply_url := default ""%string (raw_apply_url raw_job);
        description := description_1000;
        required_skills := required_skills;
        preferred_skills := preferred_skills;
        employment_type := default "full-time"%string (raw_employment_type raw_job);
        departments := default [] (raw_departments raw_job);
        raw_data := raw_job |}.

(** [try: ... except Exception: return None] *)
Definition normalize_job (raw_job : RawJob) : option NormalizedJob :=
  match normalize_job_try raw_job with
  | Ok job => Some job
  | Raise _ => None
  end.

End WithExternals.

End JobNormalizerEncoding.

(** ** backend/profile_extraction/schemas.py *)

Module Schemas.

Record ProfileSchema := mkProfileSchema {
  primary_role : string;
  seniority : string;
  skills : list string;
  tools : list string;
  experience_years : Z;
  education : list string;
  location_mentions : list string;
  skill_clusters : list string;
  job_titles : list string
}.

Record UserPreferences := mkUserPreferences {
  career_goals : option string;
  preferred_locations : list string;
  open_to_relocation : bool;
  open_to_international : bool;
  remote_only : bool
}.

End Schemas.

(** ** backend/matching/matcher.py *)

Module Matcher.
Import PyStr Score Schemas JobNormalizer.

Record JobMatch := mkJobMatch {
  job : NormalizedJob;
  total_score : Q;
  location_score : Q;
  skill_score : Q;
  career_score : Q
}.

(** [set(s.lower() for s in l)] *)
Definition lower_set (l : list string) : gset string :=
  list_to_set (map lower l).

Definition _calculate_skill_similarity (user_skills job_skills : list string) : Q :=
  match user_skills, job_skills with
  | [], _ => 0.0
  | _, [] => 0.0
  | _, _ =>
      let user_set := lower_set user_skills in
      let job_set := lower_set job_skills in
      let intersection := size (user_set ∩ job_set) in
      let union := size (user_set ∪ job_set) in
      if (union =? 0)%nat then 0.0
      else
        let jaccard := inject_Z (Z.of_nat intersection) / inject_Z (Z.of_nat union) in
        if (5 <=? intersection)%nat then pymin 1.0 (jaccard * 1.2) else jaccard
  end.

Definition seniority_levels : gmap string Z :=
  list_to_map
    [ ("junior", 1); ("mid", 2); ("senior", 3); ("lead", 4);
      ("principal", 5) ]%string%Z.

Definition _calculate_career_fit (user_seniority user_role job_title : string) : Q :=
  let job_title_lower := lower job_title in
  let user_level := default 2%Z (seniority_levels !! user_seniority) in
  let job_level :=
    (if any_in ["junior"; "entry"; "associate"]%string job_title_lower then 1
     else if any_in ["senior"; "sr"]%string job_title_lower then 3
     else if any_in ["lead"; "staff"; "principal"]%string job_title_lower then 4
     else 2)%Z in
  let level_diff := (job_level - user_level)%Z in
  if (level_diff =? 0)%Z then 0.7
  else if (level_diff =? 1)%Z then 0.9
  else if (level_diff =? -1)%Z then 0.4
  else if (2 <=? level_diff)%Z then 0.6
  else 0.2.

Definition role_keywords : gmap string (list string) :=
  list_to_map
    [ ("strategy", ["strategy"; "strategic"; "business strategy"; "corporate strategy"]);
      ("consulting", ["consultant"; "consulting"; "advisory"; "advisory services"]);
      ("operations", ["operations"; "ops"; "supply chain"; "logistics"; "process"]);
      ("marketing", ["marketing"; "brand"; "digital marketing"; "growth"; "demand gen"]);
      ("sales", ["sales"; "business development"; "account"; "revenue"]);
      ("finance", ["finance"; "financial"; "fp&a"; "investment"; "accounting"]);
      ("hr", ["hr"; "human resources"; "talent"; "people"; "recruiting"]) ]%string.

Definition _calculate_domain_fit (user_role job_title job_description : string) : Q :=
  let job_text := lower (job_title +:+ " " +:+ job_description) in
  let user_keywords := default [] (role_keywords !! user_role) in
  match user_keywords with
  | [] => 0.5
  | _ =>
      let matches :=
        length (List.filter (fun keyword => contains keyword job_text) user_keywords) in
      if (2 <=? matches)%nat then 1.0
      else if (matches =? 1)%nat then 0.7
      else 0.3
  end.

Definition BUSINESS_ROLES : list string :=
  [ "strategy"; "consulting"; "operations"; "marketing"; "sales";
    "finance"; "hr" ]%string.

(** [x in l] for a list of strings. *)
Definition in_list (x : string) (l : list string) : bool :=
  existsb (String.eqb x) l.

Definition _score_job (job : NormalizedJob) (profile : ProfileSchema)
    (preferences : UserPreferences) : JobMatch :=
  let job_location :=
    Location.mkNormalizedLocation
      (loc_city (location job)) (loc_country (location job))
      (loc_type (location job)) (loc_raw (location job)) in
  let location_score :=
    Location.score_location_match job_location
      (preferred_locations preferences)
      (open_to_relocation preferences)
      (open_to_international preferences)
      (remote_only preferences) in
  let skill_score :=
    _calculate_skill_similarity (skills profile ++ tools profile)
                                (required_skills job) in
  let career_score :=
    _calculate_career_fit (seniority profile) (primary_role profile) (title job) in
  let domain_score :=
    _calculate_domain_fit (primary_role profile) (title job) (description job) in
  let is_business_role := in_list (primary_role profile) BUSINESS_ROLES in
  let total_score :=
    if is_business_role then
      0.3 * location_score + 0.4 * skill_score + 0.2 * career_score
      + 0.1 * domain_score
    else
      0.5 * location_score + 0.4 * skill_score + 0.1 * career_score in
  mkJobMatch job total_score location_score skill_score career_score.

Definition _apply_hard_filters (jobs : list NormalizedJob)
    (preferences : UserPreferences) : list NormalizedJob :=
  List.filter
    (fun job =>
       negb (remote_only preferences
             && negb (String.eqb (loc_type (location job)) "remote")))
    jobs.

(** [l.sort(key=total_score, reverse=True)].  The sort of Python is
    stable, also in reverse: the result is the one permutation that is
    descending by key and keeps elements of equal key in their order.
    It is computed here by insertion from the right. *)
Fixpoint insert_desc (m : JobMatch) (l : list JobMatch) : list JobMatch :=
  match l with
  | [] => [m]
  | y :: r =>
      if Qle_bool (total_score y) (total_score m) then m :: l
      else y :: insert_desc m r
  end.

Definition sort_by_total_desc (l : list JobMatch) : list JobMatch :=
  fold_right insert_desc [] l.

(** [l[:n]] for an [int] [n]: a negative [n] counts from the end. *)
Definition slice_to {A : Type} (n : Z) (l : list A) : list A :=
  if (0 <=? n)%Z then firstn (Z.to_nat n) l
  else firstn (Z.to_nat (Z.of_nat (length l) + n)) l.

Definition match_jobs (jobs : list NormalizedJob) (profile : ProfileSchema)
    (preferences : UserPreferences) (max_results : Z) : list JobMatch :=
  let filtered_jobs := _apply_hard_filters jobs preferences in
  let scored_jobs :=
    List.filter (fun m => ge (total_score m) 0.3)
      (map (fun job => _score_job job profile preferences) filtered_jobs) in
  let scored_jobs := sort_by_total_desc scored_jobs in
  slice_to max_results scored_jobs.

End Matcher.

(** ** backend/matching/matcher.py: the skill similarity on binary64 *)

Module MatcherBinary64.
Import PyStr Matcher.
Import PrimFloat.

#[local] Set Warnings "-inexact-float".

(** [float(n)] for the size of a set.  A size is below 2^53, where the
    conversion is exact, and there the quotient of two converted sizes is
    the correctly rounded quotient that [int / int] computes. *)
Definition float_of_size (n : nat) : PrimFloat.float :=
  PrimFloat.of_uint63 (Uint63.of_Z (Z.of_nat n)).

(** [min(a, b)]: the first argument unless the second is smaller. *)
Definition pymin (a b : PrimFloat.float) : PrimFloat.float :=
  if PrimFloat.ltb b a then b else a.

Definition _calculate_skill_similarity (user_skills job_skills : list string)
  : PrimFloat.float :=
  match user_skills, job_skills with
  | [], _ => 0.0%float
  | _, [] => 0.0%float
  | _, _ =>
      let user_set := lower_set user_skills in
      let job_set := lower_set job_skills in
      let intersection := size (user_set ∩ job_set) in
      let union := size (user_set ∪ job_set) in
      if (union =? 0)%nat then 0.0%float
      else
        let jaccard :=
          PrimFloat.div (float_of_size intersection) (float_of_size union) in
        if (5 <=? intersection)%nat
        then pymin 1.0%float (PrimFloat.mul jaccard 1.2%float)
        else jaccard
  end.

End MatcherBinary64.

(** ** backend/explanations/generator.py *)

Module Explanations.
Import PyStr Score Schemas JobNormalizer Matcher.

Record Explanation := mkExplanation {
  why_match : string;
  skill_matches : list string;
  skill_gaps : list string;
  location_reasoning : string
}.

Definition _generate_why_match (m : JobMatch) (profile : ProfileSchema) : string :=
  let job := job m in
  let reasons := [] in
  let reasons :=
    if ge (skill_score m) 0.6 then
      reasons ++ ["Strong alignment with your " +:+ primary_role profile +:+ " background"]
    else if ge (skill_score m) 0.4 then
      reasons ++ ["Good fit for your " +:+ primary_role profile +:+ " experience"]
    else reasons in
  let reasons :=
    if ge (career_score m) 0.8 then
      reasons ++ ["Excellent career progression opportunity"%string]
    else if ge (career_score m) 0.6 then
      reasons ++ ["Aligns with your career level"%string]
    else reasons in
  let reasons :=
    if ge (location_score m) 0.9 then reasons ++ ["Perfect location match"%string]
    else if ge (location_score m) 0.7 then reasons ++ ["Good location fit"%string]
    else reasons in
  let reasons :=
    match skill_clusters profile with
    | [] => reasons
    | _ =>
        let cluster_match :=
          existsb (fun cluster => contains cluster (lower (title job))
                                  || contains cluster (lower (description job)))
                  (skill_clusters profile) in
        if cluster_match then
          reasons ++ ["Matches your expertise in "
                      +:+ join ", " (firstn 2 (skill_clusters profile))]
        else reasons
    end in
  let reasons :=
    match reasons with
    | [] => reasons ++ ["Potential fit based on your background"%string]
    | _ => reasons
    end in
  join ". " reasons +:+ ".".

Definition _find_skill_matches (user_skills job_skills : list string) : list string :=
  let user_set := lower_set user_skills in
  let job_set := lower_set job_skills in
  let matches := user_set ∩ job_set in
  List.filter (fun skill => bool_decide (lower skill ∈ matches)) user_skills.

Definition _find_skill_gaps (user_skills job_skills : list string) : list string :=
  let user_set := lower_set user_skills in
  let job_set := lower_set job_skills in
  let gaps := job_set ∖ user_set in
  List.filter (fun skill => bool_decide (lower skill ∈ gaps)) job_skills.

Definition _generate_location_reasoning (m : JobMatch) (job : NormalizedJob) : string :=
  let location := location job in
  if String.eqb (loc_type location) "remote" then
    "Remote position - work from anywhere"
  else if ge (location_score m) 0.9 then
    "Located in your preferred area: " +:+ loc_raw location
  else if ge (location_score m) 0.7 then
    "Same country as your preference: " +:+ str_of_option (loc_country location)
  else if ge (location_score m) 0.5 then
    "Relocation opportunity to " +:+ loc_raw location
  else "Location: " +:+ loc_raw location.

Definition generate_explanation (m : JobMatch) (profile : ProfileSchema)
  : option Explanation :=
  let job := job m in
  let why_match := _generate_why_match m profile in
  let skill_matches :=
    _find_skill_matches (skills profile ++ tools profile) (required_skills job) in
  let skill_gaps :=
    _find_skill_gaps (skills profile ++ tools profile) (required_skills job) in
  let location_reasoning := _generate_location_reasoning m job in
  if negb (nonempty why_match) || match skill_matches with [] => true | _ => false end
  then None
  else Some {| why_match := why_match;
               skill_matches := firstn 8 skill_matches;
               skill_gaps := firstn 5 skill_gaps;
               location_reasoning := location_reasoning |}.

End Explanations.

(** ** backend/profile_extraction/extractor.py: role, seniority, clusters,
    locations *)

Module ProfileExtractor.
Import PyStr Exn Extractor.

(** The table of [extract_role_family], in the order of the source: a
    [dict] is read in insertion order. *)
Definition families : list (string * list string) :=
  [ ("software engineer", ["software"; "developer"; "engineer"; "stack"; "coding"]);
    ("data scientist", ["data"; "scientist"; "analyst"; "machine learning"; "analytics"]);
    ("product manager", ["product"; "manager"; "owner"; "roadmap"; "strategy"]);
    ("designer", ["design"; "ui"; "ux"; "creative"; "graphic"]);
    ("marketing", ["marketing"; "brand"; "social"; "content"; "growth"]);
    ("sales", ["sales"; "business development"; "account"; "client"]);
    ("finance", ["finance"; "accounting"; "investment"; "analyst"; "banking"]);
    ("hr", ["hr"; "human resources"; "recruiter"; "talent"; "people"]);
    ("consulting", ["consultant"; "strategy"; "advisory"; "client"]);
    ("operations", ["operations"; "logistics"; "supply chain"; "process"]) ]%string.

(** The number of keywords of a family that occur in the text. *)
Definition family_score (combined_text : string) (keywords : list string) : nat :=
  length (List.filter (fun kw => contains kw combined_text) keywords).

(** [max(scores, key=scores.get)] from the running best onwards: a later
    key replaces the best only with a strictly larger score. *)
Fixpoint max_from (best : string * nat) (scores : list (string * nat))
  : string * nat :=
  match scores with
  | [] => best
  | x :: rest => max_from (if (snd best <? snd x)%nat then x else best) rest
  end.

Definition extract_role_family (text : string) (job_titles : list string) : string :=
  let text_lower := lower text in
  let combined_text := text_lower +:+ " " +:+ lower (join " " job_titles) in
  let scores :=
    map (fun f => (fst f, family_score combined_text (snd f))) families in
  match scores with
  | [] => "general"%string
  | first :: rest =>
      let best_family := max_from first rest in
      if (snd best_family =? 0)%nat then "general"%string else fst best_family
  end.

(** The table of [extract_seniority], in the order of the source. *)
Definition seniority_keywords : list (string * list string) :=
  [ ("junior", ["junior"; "entry"; "associate"; "graduate"; "intern"]);
    ("mid", ["mid-level"; "intermediate"; "engineer ii"; "developer ii"]);
    ("senior", ["senior"; "sr"; "lead"; "principal"; "staff"; "expert"]);
    ("lead", ["lead"; "team lead"; "tech lead"; "engineering manager"]);
    ("principal", ["principal"; "distinguished"; "fellow"; "architect"]) ]%string.

(** The two nested loops: the first level, in table order, one of whose
    keywords occurs in the text. *)
Fixpoint first_level (text_lower : string) (table : list (string * list string))
  : option string :=
  match table with
  | [] => None
  | (level, keywords) :: rest =>
      if any_in keywords text_lower then Some level
      else first_level text_lower rest
  end.

Definition extract_seniority (text : string) (experience_years : Z) : string :=
  let text_lower := lower text in
  match first_level text_lower seniority_keywords with
  | Some level => level
  | None =>
      if (experience_years <? 2)%Z then "junior"
      else if (experience_years <? 5)%Z then "mid"
      else if (experience_years <? 8)%Z then "senior"
      else "lead"
  end%string.

Definition cluster_mappings : list (string * gset string) :=
  [ ("backend", list_to_set ["python"; "java"; "node.js"; "django"; "flask";
                             "fastapi"; "spring"]);
    ("frontend", list_to_set ["react"; "angular"; "vue"; "javascript";
                              "typescript"; "html"; "css"]);
    ("cloud", list_to_set ["aws"; "azure"; "gcp"; "docker"; "kubernetes";
                           "terraform"]);
    ("data", list_to_set ["sql"; "postgresql"; "mysql"; "mongodb";
                          "data analysis"; "spark"]);
    ("ml", list_to_set ["machine learning"; "tensorflow"; "pytorch";
                        "scikit-learn"]) ]%string.

Definition cluster_skills (skills : list string) : list string :=
  let skill_set : gset string := list_to_set (map lower skills) in
  let clusters : gset string :=
    list_to_set
      (map fst
         (List.filter (fun m => bool_decide (skill_set ∩ snd m ≠ ∅))
            cluster_mappings)) in
  sorted clusters.

Definition common_places : list string :=
  [ "Remote"; "Bangalore"; "Bengaluru"; "Mumbai"; "Delhi"; "Hyderabad";
    "Chennai"; "Pune"; "New York"; "London"; "San Francisco" ]%string.

Section WithNlp.

Variable nlp : option (string -> result (list (string * string))).

(** The [try] block of [extract_locations]: the entities labelled GPE or
    LOC; an exception of the pipeline is logged and leaves the set empty. *)
Definition entity_locations (text : string) : gset string :=
  match nlp with
  | Some pipeline =>
      match pipeline text with
      | Ok ents =>
          list_to_set
            (map fst
               (List.filter
                  (fun ent => existsb (String.eqb (snd ent)) ["GPE"; "LOC"]%string)
                  ents))
      | Raise _ => ∅
      end
  | None => ∅
  end.

Definition extract_locations (text : string) : list string :=
  let locations := entity_locations text in
  let locations :=
    locations ∪
    list_to_set
      (List.filter (fun place => contains (lower place) (lower text))
         common_places) in
  sorted locations.

End WithNlp.

End ProfileExtractor.

(** ** backend/location_logic/strict_filter.py *)

Module StrictFilter.
Import PyStr Exn Location JobNormalizer.

Definition india_cities : list string :=
  [ "mumbai"; "bangalore"; "delhi"; "gurgaon"; "hyderabad"; "pune";
    "chennai"; "kolkata"; "ahmedabad"; "noida" ]%string.

Definition uae_cities : list string :=
  [ "dubai"; "abu dhabi"; "sharjah"; "ajman" ]%string.

(** The body of the loop of [filter_jobs_by_location], after the location
    is normalized: is the job appended? *)
Definition keeps (user_countries : list string) (open_to_remote : bool)
    (normalized : NormalizedLocation) : bool :=
  if open_to_remote && String.eqb (location_type normalized) "remote" then true
  else if truthy (country normalized)
          && Matcher.in_list (str_of_option (country normalized)) user_countries
  then true
  else if truthy (city normalized) && negb (truthy (country normalized)) then
    let city_lower := lower (str_of_option (city normalized)) in
    if Matcher.in_list "India" user_countries
       && Matcher.in_list city_lower india_cities then true
    else if Matcher.in_list "UAE" user_countries
            && Matcher.in_list city_lower uae_cities then true
    else false
  else false.

(** The loop; [filtered] is the list it appends to.  [normalize_location]
    raises on a location that is true and not a string, and nothing here
    catches it. *)
Fixpoint filter_loop (jobs : list RawJob) (user_countries : list string)
    (open_to_remote : bool) (filtered : list RawJob) : result (list RawJob) :=
  match jobs with
  | [] => Ok filtered
  | job :: rest =>
      let location_raw := default (VStr "") (raw_location_raw job) in
      normalized ← normalize_location_any location_raw;
      filter_loop rest user_countries open_to_remote
        (if keeps user_countries open_to_remote normalized
         then filtered ++ [job] else filtered)
  end.

Definition filter_jobs_by_location (jobs : list RawJob)
    (user_countries : list string) (open_to_remote : bool)
  : result (list RawJob) :=
  filter_loop jobs user_countries open_to_remote [].

(** A user profile dictionary, as [get_location_preference_from_user] reads
    it: the key 'preferences' and, under it, the key 'preferred_locations';
    [None] is an absent key. *)
Record PreferencesDict := mkPreferencesDict {
  pd_preferred_locations : option (list string)
}.

Record UserProfileDict := mkUserProfileDict {
  up_preferences : option PreferencesDict
}.

(** The loop over the preferred locations; [countries] is the list it
    appends to. *)
Fixpoint countries_loop (preferred_locations : list string)
    (countries : list string) : list string :=
  match preferred_locations with
  | [] => countries
  | loc :: rest =>
      let normalized := normalize_location loc in
      countries_loop rest
        (if truthy (country normalized)
            && negb (Matcher.in_list (str_of_option (country normalized)) countries)
         then countries ++ [str_of_option (country normalized)]
         else countries)
  end.

Definition get_location_preference_from_user (user_profile : UserProfileDict)
  : list string :=
  let preferences :=
    default (mkPreferencesDict None) (up_preferences user_profile) in
  let preferred_locations := default [] (pd_preferred_locations preferences) in
  let countries := countries_loop preferred_locations [] in
  match countries with
  | [] => ["India"%string]
  | _ => countries
  end.

End StrictFilter.

(** ** The specification's reading of the operations *)

Module Spec.
Import PyStr Score Location.

(** Rule (4) of the location score, for one normalized preference: 1.0
    for the same city, else 0.7 for the same country, case-insensitive;
    nothing when neither matches. *)
Definition comparison (job_location pref : NormalizedLocation) : option Q :=
  if same_ci (city job_location) (city pref) then Some 1.0
  else if same_ci (country job_location) (country pref) then Some 0.7
  else None.

(** A score of rule (4). *)
Definition hit (v : Q) : Prop := v = 1.0 \/ v = 0.7.

(** The job shares a country with the preference. *)
Definition shares_country (job_location pref : NormalizedLocation) : bool :=
  same_ci (country job_location) (country pref).

(** The best (maximum) of the scores of the comparisons that matched. *)
Definition best (scores : list Q) : Q := fold_left pymax scores 0.0.

(** Rule (5) as the specification words it. *)
Definition no_match_stated (job_location : NormalizedLocation)
    (prefs : list NormalizedLocation)
    (open_to_relocation open_to_international : bool) : Q :=
  if open_to_relocation && existsb (shares_country job_location) prefs then 0.5
  else if open_to_international then 0.4
  else 0.1.

(** Rule (5) as the code has it: without [open_to_relocation] the score
    of a job that matched nothing stays 0.0. *)
Definition no_match_guarded (job_location : NormalizedLocation)
    (prefs : list NormalizedLocation)
    (open_to_relocation open_to_international : bool) : Q :=
  if open_to_relocation then
    if existsb (shares_country job_location) prefs then 0.5
    else if open_to_international then 0.4
    else 0.1
  else 0.0.

(** The priority cascade, rules (1) to (5); [no_match] is rule (5). *)
Definition cascade
    (no_match : NormalizedLocation -> list NormalizedLocation -> bool -> bool -> Q)
    (job_location : NormalizedLocation) (preferred_locations : list string)
    (open_to_relocation open_to_international remote_only : bool) : Q :=
  if String.eqb (location_type job_location) "remote" then 1.0
  else if remote_only then 0.2
  else match preferred_locations with
  | [] => 0.5
  | _ =>
      let prefs := map normalize_location preferred_locations in
      match omap (comparison job_location) prefs with
      | [] => no_match job_location prefs open_to_relocation open_to_international
      | scores => best scores
      end
  end.

(** Jaccard similarity of two sets: |intersection| / |union|. *)
Definition jaccard (a b : gset string) : Q :=
  inject_Z (Z.of_nat (size (a ∩ b))) / inject_Z (Z.of_nat (size (a ∪ b))).



(** A value clamped to 1.0 from above. *)
Definition clamp (x : Q) : Q := if Qle_bool 1.0 x then 1.0 else x.

(** Descending by total score. *)
Definition desc (x y : Matcher.JobMatch) : Prop :=
  Matcher.total_score y <= Matcher.total_score x.

(** The matches whose total score has the value [v]. *)
Definition tied (v : Q) (m : Matcher.JobMatch) : bool :=
  Qeq_bool (Matcher.total_score m) v.

(** What the loop of [deduplicate_jobs] appends once [seen_ids] is
    [seen]. *)
Fixpoint keep_unseen (seen : gset string) (jobs : list JobNormalizer.NormalizedJob)
  : list JobNormalizer.NormalizedJob :=
  match jobs with
  | [] => []
  | j :: rest =>
      if bool_decide (JobNormalizer.id j ∉ seen)
      then j :: keep_unseen ({[ JobNormalizer.id j ]} ∪ seen) rest
      else keep_unseen seen rest
  end.

(** The first job of the list that has the id of [j]. *)
Definition first_with_id (j : JobNormalizer.NormalizedJob)
    (jobs : list JobNormalizer.NormalizedJob) : option JobNormalizer.NormalizedJob :=
  List.find (fun x => String.eqb (JobNormalizer.id x) (JobNormalizer.id j)) jobs.

(** A value that is not a string. *)
Definition not_str (v : JobNormalizer.PyVal) : Prop :=
  forall s, v <> JobNormalizer.VStr s.

(** The case-insensitive intersection of the user's skills and tools with
    the skills the job requires. *)
Definition skill_intersection (profile : Schemas.ProfileSchema)
    (j : JobNormalizer.NormalizedJob) : gset string :=
  Matcher.lower_set (Schemas.skills profile ++ Schemas.tools profile)
  ∩ Matcher.lower_set (JobNormalizer.required_skills j).

(** The job with another description. *)
Definition with_description (d : string) (j : JobNormalizer.NormalizedJob)
  : JobNormalizer.NormalizedJob :=
  JobNormalizer.mkNormalizedJob
    (JobNormalizer.id j) (JobNormalizer.title j) (JobNormalizer.company j)
    (JobNormalizer.location j) (JobNormalizer.source j)
    (JobNormalizer.apply_url j) d (JobNormalizer.required_skills j)
    (JobNormalizer.preferred_skills j) (JobNormalizer.employment_type j)
    (JobNormalizer.departments j) (JobNormalizer.raw_data j).

End Spec.

(** ** Concrete inputs *)

Module Inputs.
Import Location JobNormalizer Schemas Matcher.

(** A job in Delhi. *)
Definition delhi : NormalizedLocation :=
  mkNormalizedLocation (Some "Delhi") (Some "India") "onsite" "Delhi, India".

(** The resume of [tests/test_phase0_enhancements.py], [test_business_skills]. *)
Definition mba_resume : string := "
    MBA Graduate from IIM Bangalore
    
    Skills: Financial Modeling, Excel, PowerPoint, Market Research, 
    Business Strategy, Stakeholder Management, Project Management,
    Salesforce, Google Analytics, Supply Chain Management
    
    Experience:
    - Strategy Consultant at McKinsey & Company
    - Operations Manager at Flipkart
    - Marketing Analyst at Unilever
    ".

(** The scenario of the specification: an operations profile, an
    operations posting in Mumbai, a preference for Mumbai. *)
Definition operations_profile : ProfileSchema :=
  mkProfileSchema "operations" "mid" ["excel"; "process improvement"]%string
    [] 3 [] [] [] [].

Definition mumbai_preferences : UserPreferences :=
  mkUserPreferences None ["Mumbai"%string] false false false.

Definition no_raw : RawJob := mkRawJob None None None None None None None None.

(** Two remote postings. *)
Definition remote_job (job_id job_title : string) : NormalizedJob :=
  mkNormalizedJob job_id job_title "Acme"
    (mkJobLocation None None "remote" "Remote") "remoteok" "" "" [] []
    "full-time" [] no_raw.

(** Raw postings: a complete one, one whose description is JSON null, one
    whose location is a number, one whose location is a false value. *)
Definition raw_posting : RawJob :=
  mkRawJob (Some "Data Engineer") (Some "Acme")
    (Some (VStr "Bengaluru, India"))
    (Some (VStr "Build pipelines in Python and SQL on AWS."))
    (Some "greenhouse") (Some "https://example.org/1") None None.

Definition raw_null_description : RawJob :=
  mkRawJob (Some "Data Engineer") (Some "Acme")
    (Some (VStr "Bengaluru, India")) (Some VNone)
    (Some "greenhouse") None None None.

Definition raw_numeric_location : RawJob :=
  mkRawJob (Some "Data Engineer") (Some "Acme") (Some (VInt 5))
    (Some (VStr "Python")) None None None None.

Definition raw_zero_location : RawJob :=
  mkRawJob (Some "Data Engineer") (Some "Acme") (Some (VInt 0))
    (Some (VStr "Python")) None None None None.

(** A pipeline that always raises. *)
Definition failing_nlp : option (string -> Exn.result (list (string * string))) :=
  Some (fun _ => Exn.Raise Exn.ExternalError).

(** A match with no score at all. *)
Definition zero_match (j : NormalizedJob) : JobMatch := mkJobMatch j 0 0 0 0.

Definition operations_job : NormalizedJob :=
  mkNormalizedJob "4" "Operations Manager" "Acme"
    (mkJobLocation (Some "Mumbai") (Some "India") "onsite" "Mumbai, India")
    "greenhouse" "" "" ["excel"; "six sigma"]%string [] "full-time" [] no_raw.

Definition two_remote_jobs : list NormalizedJob :=
  [ remote_job "1" "Backend Engineer"; remote_job "2" "Data Engineer" ].

Definition engineer : ProfileSchema :=
  mkProfileSchema "software engineer" "mid" ["python"%string] [] 3 [] [] [] [].

Definition no_preferences : UserPreferences :=
  mkUserPreferences None [] false false false.

(** A remote posting that asks for Excel, matched with the engineer, whose
    only skill is Python: every score is as high as it can be without a
    shared skill. *)
Definition excel_job : NormalizedJob :=
  mkNormalizedJob "3" "Senior Backend Engineer" "Acme"
    (mkJobLocation None None "remote" "Remote") "remoteok" "" ""
    ["Excel"%string] [] "full-time" [] no_raw.

Definition excel_match : JobMatch :=
  _score_job excel_job engineer no_preferences.

(** Two lists of ten skills that share five, up to letter case: the union
    has fifteen members. *)
Definition ten_user_skills : list string :=
  [ "Python"; "SQL"; "AWS"; "Docker"; "Git";
    "React"; "Vue"; "CSS"; "HTML"; "Figma" ]%string.

Definition ten_job_skills : list string :=
  [ "python"; "sql"; "aws"; "docker"; "git";
    "java"; "spring"; "kafka"; "redis"; "linux" ]%string.

End Inputs.

(** ** Relations used by the further properties *)

Module Relations.
Import PyStr.

(** [a < b] on strings: [a <= b] and they differ. *)
Definition str_lt (a b : string) : Prop :=
  Extractor.str_le a b = true /\ a <> b.

(** A list of strings in strictly ascending order. *)
Definition ascending (l : list string) : Prop := StronglySorted str_lt l.

(** The string has a comma. *)
Definition has_comma (s : string) : bool := contains "," s.

(** [s.isascii()]: every character is below 128.  On these strings the
    string methods of [PyStr] are those of Python. *)
Fixpoint isascii (s : string) : bool :=
  match s with
  | EmptyString => true
  | String c r => (N_of_ascii c <? 128)%N && isascii r
  end.

(** The number of occurrences of a character. *)
Fixpoint count_char (c : ascii) (s : string) : nat :=
  match s with
  | EmptyString => 0
  | String a r => (if Ascii.eqb a c then 1 else 0) + count_char c r
  end.


(** The three preferred strings of a raw posting that the job id is built
    from. *)
Definition id_fields (r : JobNormalizer.RawJob) : string * string * string :=
  (default ""%string (JobNormalizer.raw_title r),
   default ""%string (JobNormalizer.raw_company r),
   JobNormalizer.py_str
     (default (JobNormalizer.VStr "") (JobNormalizer.raw_location_raw r))).

(** The complete posting of the inputs once more, from another source and
    in capitals. *)
Definition raw_posting_shouting : JobNormalizer.RawJob :=
  JobNormalizer.mkRawJob (Some "DATA ENGINEER") (Some "ACME")
    (Some (JobNormalizer.VStr "BENGALURU, INDIA"))
    (Some (JobNormalizer.VStr "Python")) (Some "lever") None None None.

(** A stand-in for the digest in computations: the string itself. *)
Definition plain_digest (s : string) : string := s.


(** The normalized location of a raw posting, as the strict filter reads
    it: [normalize_location(job.get('location_raw', ''))]. *)
Definition posting_location (job : JobNormalizer.RawJob)
  : Exn.result Location.NormalizedLocation :=
  JobNormalizer.normalize_location_any
    (default (JobNormalizer.VStr "") (JobNormalizer.raw_location_raw job)).

(** Normalizing the location of the posting raises. *)
Definition location_raises (job : JobNormalizer.RawJob) : bool :=
  match posting_location job with
  | Exn.Raise _ => true
  | Exn.Ok _ => false
  end.

(** The location of the posting normalizes and the strict filter keeps it. *)
Definition kept (user_countries : list string) (open_to_remote : bool)
    (job : JobNormalizer.RawJob) : bool :=
  match posting_location job with
  | Exn.Ok normalized =>
      StrictFilter.keeps user_countries open_to_remote normalized
  | Exn.Raise _ => false
  end.

(** The first occurrence of every string of a list, in the order of the
    list. *)
Fixpoint first_occurrences (l : list string) : list string :=
  match l with
  | [] => []
  | x :: rest =>
      x :: List.filter (fun y => negb (String.eqb y x)) (first_occurrences rest)
  end.

(** The countries of the preferred locations that have one, in the order of
    the locations. *)
Definition preference_countries (preferred_locations : list string)
  : list string :=
  omap (fun loc =>
          let c := Location.country (Location.normalize_location loc) in
          if truthy c then c else None)
    preferred_locations.

(** Postings in Bengaluru, in Dubai, remote, in Berlin, and one whose
    location is the number 0. *)
Definition posting_at (location_raw : JobNormalizer.PyVal)
  : JobNormalizer.RawJob :=
  JobNormalizer.mkRawJob (Some "Data Engineer") (Some "Acme")
    (Some location_raw) None None None None None.

Definition postings_around : list JobNormalizer.RawJob :=
  [ posting_at (JobNormalizer.VStr "Bengaluru, India");
    posting_at (JobNormalizer.VStr "Dubai");
    posting_at (JobNormalizer.VStr "Remote");
    posting_at (JobNormalizer.VStr "Berlin, Germany");
    posting_at (JobNormalizer.VInt 0) ].

End Relations.

(** * Properties *)

(** ** The embedding on the inputs of the tests and of the specification *)

Module Examples.
Import PyStr Score Location Exn Extractor JobNormalizer Schemas Matcher
  Explanations Inputs.

(** [test_india_uae_locations]: the country of each test location. *)
Example normalize_location_india_uae :
  map (fun s => country (normalize_location s))
      ["Mumbai, India"; "Bangalore, India"; "Dubai, UAE"; "Abu Dhabi, UAE";
       "Gurgaon, India"]%string
  = [Some "India"; Some "India"; Some "UAE"; Some "UAE"; Some "India"]%string.
Proof. vm_compute. reflexivity. Qed.

Example normalize_location_shapes :
  normalize_location "" = mkNormalizedLocation None None "onsite" "Not specified"
  /\ normalize_location "Remote (Worldwide)"
     = mkNormalizedLocation None None "remote" "Remote (Worldwide)"
  /\ normalize_location "Bengaluru"
     = mkNormalizedLocation (Some "Bangalore") None "onsite" "Bengaluru"
  /\ normalize_location "New York, NY, usa"
     = mkNormalizedLocation (Some "New York") (Some "USA") "onsite"
         "New York, NY, usa"
  /\ normalize_location "Bombay, hybrid, south africa"
     = mkNormalizedLocation (Some "Mumbai") (Some "South Africa") "hybrid"
         "Bombay, hybrid, south africa".
Proof. repeat split; vm_compute; reflexivity. Qed.

(** [test_business_skills]: the seven expected skills are all extracted. *)
Example extract_skills_mba_resume :
  extract_skills None mba_resume
  = Ok [ "business strategy"; "excel"; "financial modeling";
         "google analytics"; "market research"; "powerpoint";
         "project management"; "salesforce"; "stakeholder management";
         "supply chain" ]%string.
Proof. vm_compute. reflexivity. Qed.

(** A word boundary needs a word character on one side: "c++" and ".net"
    are found only next to one. *)
Example extract_skills_word_boundaries :
  extract_skills None "Python, SQL and C++; R. CI/CD, node.js, .NET, k8s"
  = Ok [ "ci/cd"; "k8s"; "node.js"; "python"; "r"; "sql" ]%string
  /\ extract_skills None "C++11 and ASP.NET" = Ok [ ".net"; "c++" ]%string.
Proof. split; vm_compute; reflexivity. Qed.

(** The Jaccard boost of the specification: 5 shared of 6, times 1.2,
    clamped. *)
Example skill_similarity_boost :
  _calculate_skill_similarity ["a"; "b"; "c"; "d"; "e"; "f"]%string
                              ["a"; "b"; "c"; "d"; "e"]%string = 1.0
  /\ _calculate_skill_similarity ["Excel"; "process improvement"]%string
                                 ["excel"; "six sigma"]%string = 1 # 3.
Proof. split; vm_compute; reflexivity. Qed.

(** The scenario of the specification. *)
Example score_operations_job :
  let m := _score_job operations_job operations_profile mumbai_preferences in
  location_score m = 1.0 /\ skill_score m = 1 # 3 /\ career_score m = 0.7
  /\ total_score m == 0.3 * 1.0 + 0.4 * (1 # 3) + 0.2 * 0.7 + 0.1 * 0.7.
Proof. repeat split; vm_compute; reflexivity. Qed.

Example explain_operations_job :
  generate_explanation
    (_score_job operations_job operations_profile mumbai_preferences)
    operations_profile
  = Some {| why_match := "Aligns with your career level. Perfect location match.";
            skill_matches := ["excel"];
            skill_gaps := ["six sigma"];
            location_reasoning := "Located in your preferred area: Mumbai, India" |}%string.
Proof. vm_compute. reflexivity. Qed.

(** Without a score, a shared skill still gives an explanation, with the
    generic sentence. *)
Example explain_zero_match :
  option_map why_match
    (generate_explanation (zero_match operations_job) operations_profile)
  = Some "Potential fit based on your background."%string.
Proof. vm_compute. reflexivity. Qed.

Example deduplicate_three :
  map title
    (deduplicate_jobs [ remote_job "1" "first"; remote_job "2" "second";
                        remote_job "1" "third"; remote_job "2" "fourth" ])
  = ["first"; "second"]%string.
Proof. vm_compute. reflexivity. Qed.

Example normalize_job_complete :
  forall md5_hexdigest,
    option_map (fun j => (title j, location j, required_skills j, source j,
                          employment_type j))
      (normalize_job md5_hexdigest None raw_posting)
    = Some ("Data Engineer",
            mkJobLocation (Some "Bangalore") (Some "India") "onsite"
              "Bengaluru, India",
            ["aws"; "python"; "sql"], "greenhouse", "full-time")%string.
Proof. intros md5_hexdigest. vm_compute. reflexivity. Qed.

Example normalize_job_dropped :
  forall md5_hexdigest,
    normalize_job md5_hexdigest None raw_null_description = None
    /\ normalize_job md5_hexdigest None raw_numeric_location = None
    /\ normalize_job md5_hexdigest failing_nlp raw_posting = None
    /\ option_map location (normalize_job md5_hexdigest None raw_zero_location)
       = Some (mkJobLocation None None "onsite" "Not specified").
Proof. intros md5_hexdigest. repeat split; vm_compute; reflexivity. Qed.

Example match_jobs_slices :
  map (fun m => id (job m))
      (match_jobs two_remote_jobs engineer no_preferences 20) = ["1"; "2"]%string
  /\ map (fun m => id (job m))
       (match_jobs two_remote_jobs engineer no_preferences 1) = ["1"]%string
  /\ match_jobs two_remote_jobs engineer no_preferences 0 = []
  /\ map (fun m => id (job m))
       (match_jobs two_remote_jobs engineer no_preferences (-1)) = ["1"]%string.
Proof. repeat split; vm_compute; reflexivity. Qed.

End Examples.

(** ** The location score *)

Module LocationFacts.
Import PyStr Score Location Spec Inputs.

Lemma comparison_hit job pref v : Spec.comparison job pref = Some v -> hit v.
Proof.
  unfold Spec.comparison, hit.
  destruct (same_ci (city job) (city pref)); [intros [= <-]; auto|].
  destruct (same_ci (country job) (country pref)); [intros [= <-]; auto|].
  discriminate.
Qed.

Lemma omap_comparison_hits job prefs :
  Forall hit (omap (Spec.comparison job) prefs).
Proof.
  induction prefs as [|p prefs IH]; simpl; [constructor|].
  destruct (Spec.comparison job p) eqn:E; simpl; [|exact IH].
  constructor; [eapply comparison_hit; eassumption | exact IH].
Qed.

(** The first loop takes the running maximum of the matched comparisons. *)
Lemma fold_match_step job prefs b :
  fold_left (match_step job) prefs b
  = fold_left pymax (omap (Spec.comparison job) prefs) b.
Proof.
  revert b. induction prefs as [|p prefs IH]; intros b; simpl; [reflexivity|].
  rewrite IH. unfold match_step, Spec.comparison.
  destruct (same_ci (city job) (city p)); simpl; [reflexivity|].
  destruct (same_ci (country job) (country p)); reflexivity.
Qed.

Lemma pymax_hit b v : b = 0.0 \/ hit b -> hit v -> hit (pymax b v).
Proof.
  unfold hit. intros [->|[->| ->]] [->| ->]; vm_compute; auto.
Qed.

Lemma fold_pymax_hit scores b :
  Forall hit scores -> hit b -> hit (fold_left pymax scores b).
Proof.
  intros H. revert b. induction H as [|v scores Hv _ IH]; intros b Hb; simpl.
  - exact Hb.
  - apply IH, pymax_hit; auto.
Qed.

Lemma best_hit v scores : Forall hit (v :: scores) -> hit (Spec.best (v :: scores)).
Proof.
  intros H. inversion H as [|? ? Hv Hs]; subst.
  unfold Spec.best; simpl. apply fold_pymax_hit; [exact Hs|].
  apply pymax_hit; auto.
Qed.

Lemma hit_nonzero v : hit v -> Qeq_bool v 0.0 = false.
Proof. intros [->| ->]; reflexivity. Qed.

(** [Spec.best] is the maximum of a list of matched comparisons: it is one
    of them and none is larger. *)
Lemma fold_pymax_upper scores b :
  b <= fold_left pymax scores b /\
  Forall (fun v => v <= fold_left pymax scores b) scores.
Proof.
  revert b. induction scores as [|v scores IH]; intros b; simpl.
  - split; [apply Qle_refl | constructor].
  - destruct (IH (pymax b v)) as [H1 H2].
    assert (Hb : b <= pymax b v /\ v <= pymax b v).
    { unfold pymax. destruct (b ?= v) eqn:E.
      - apply Qeq_alt in E. split; [apply Qle_refl | rewrite E; apply Qle_refl].
      - apply Qlt_alt in E. split; [apply Qlt_le_weak, E | apply Qle_refl].
      - apply Qgt_alt in E. split; [apply Qle_refl | apply Qlt_le_weak, E]. }
    destruct Hb as [Hb Hv]. split.
    + eapply Qle_trans; eassumption.
    + constructor; [eapply Qle_trans; eassumption | exact H2].
Qed.

Lemma fold_pymax_in scores b :
  fold_left pymax scores b = b \/ In (fold_left pymax scores b) scores.
Proof.
  revert b. induction scores as [|v scores IH]; intros b; simpl; [auto|].
  destruct (IH (pymax b v)) as [H|H]; [|auto].
  rewrite H. unfold pymax. destruct (b ?= v); auto.
Qed.

Lemma best_is_maximum scores :
  Forall hit scores -> scores <> [] ->
  In (Spec.best scores) scores /\ Forall (fun v => v <= Spec.best scores) scores.
Proof.
  intros Hh Hne. split; [|apply fold_pymax_upper].
  destruct (fold_pymax_in scores 0.0) as [H|H]; [|exact H].
  destruct scores as [|v scores]; [congruence|].
  pose proof (hit_nonzero _ (best_hit _ _ Hh)) as Hz.
  unfold Spec.best in Hz. rewrite H in Hz. discriminate.
Qed.

(** The second loop: 0.5 when some preference shares the job's country. *)
Lemma relocation_loop_spec job prefs :
  truthy (country job) = true ->
  relocation_loop job 0.0 prefs
  = if existsb (Spec.shares_country job) prefs then 0.5 else 0.0.
Proof.
  intros Hj. induction prefs as [|p prefs IH]; simpl; [reflexivity|].
  unfold Spec.shares_country at 1, same_ci.
  destruct (country job) as [jc|] eqn:Ej; [|discriminate]. simpl in Hj.
  rewrite Hj. simpl.
  destruct (country p) as [pc|]; simpl; [|exact IH].
  destruct (nonempty pc && (lower jc =? lower pc)%string); simpl;
    [reflexivity | exact IH].
Qed.

Lemma no_country_no_share job prefs :
  truthy (country job) = false ->
  existsb (Spec.shares_country job) prefs = false.
Proof.
  intros Hj. induction prefs as [|p prefs IH]; simpl; [reflexivity|].
  rewrite IH, orb_false_r. unfold Spec.shares_country, same_ci.
  destruct (country job) as [jc|]; [|reflexivity]. simpl in Hj. rewrite Hj.
  destruct (country p); reflexivity.
Qed.

(** The code is the cascade with the guarded rule (5). *)
Lemma score_location_match_cascade job prefs reloc intl ro :
  score_location_match job prefs reloc intl ro
  = Spec.cascade Spec.no_match_guarded job prefs reloc intl ro.
Proof.
  unfold score_location_match, Spec.cascade.
  destruct (location_type job =? "remote")%string; [reflexivity|].
  rewrite andb_true_r. destruct ro; [reflexivity|].
  destruct prefs as [|p0 prefs]; [reflexivity|].
  remember (map normalize_location (p0 :: prefs)) as nps eqn:Hnps.
  clear Hnps. rewrite fold_match_step.
  pose proof (omap_comparison_hits job nps) as Hh.
  destruct (omap (Spec.comparison job) nps) as [|v scores] eqn:E.
  - cbn [fold_left]. change (Qeq_bool 0.0 0.0) with true. cbn iota.
    unfold Spec.no_match_guarded.
    destruct reloc; [|reflexivity].
    destruct (truthy (country job)) eqn:Hj.
    + rewrite relocation_loop_spec by exact Hj.
      destruct (existsb (Spec.shares_country job) nps); [reflexivity|].
      destruct intl; reflexivity.
    + rewrite no_country_no_share by exact Hj.
      destruct intl; reflexivity.
  - change (fold_left pymax (v :: scores) 0.0) with (Spec.best (v :: scores)).
    rewrite (hit_nonzero _ (best_hit _ _ Hh)). reflexivity.
Qed.

(** Once no preference matched, none shares the job's country: the 0.5
    of rule (5) is never produced. *)
Lemma no_match_no_shared_country job prefs :
  omap (Spec.comparison job) prefs = [] ->
  existsb (Spec.shares_country job) prefs = false.
Proof.
  induction prefs as [|p prefs IH]; simpl; [reflexivity|].
  unfold Spec.comparison at 1, Spec.shares_country at 1.
  destruct (same_ci (city job) (city p)); [discriminate|].
  destruct (same_ci (country job) (country p)); [discriminate|].
  exact IH.
Qed.

(** The values the score can take. *)
Lemma score_location_match_values job prefs reloc intl ro :
  In (score_location_match job prefs reloc intl ro)
     [1.0; 0.2; 0.5; 0.7; 0.4; 0.1; 0.0].
Proof.
  rewrite score_location_match_cascade. unfold Spec.cascade.
  destruct (location_type job =? "remote")%string; [simpl; auto|].
  destruct ro; [simpl; auto|].
  destruct prefs as [|p0 prefs]; [simpl; auto|].
  remember (map normalize_location (p0 :: prefs)) as nps eqn:Hnps. clear Hnps.
  pose proof (omap_comparison_hits job nps) as Hh.
  destruct (omap (Spec.comparison job) nps) as [|v scores].
  - unfold Spec.no_match_guarded.
    destruct reloc; [|simpl; tauto].
    destruct (existsb (Spec.shares_country job) nps); [simpl; tauto|].
    destruct intl; simpl; tauto.
  - destruct (best_hit _ _ Hh) as [-> | ->]; simpl; tauto.
Qed.

(** C1, counterexample: a job that matches no preference, for a user who
    is open neither to relocation nor to international roles, scores 0.0
    in the code, where rule (5) as stated gives 0.1. *)
Lemma score_location_match_not_stated_cascade :
  score_location_match delhi ["London, UK"%string] false false false = 0.0
  /\ Spec.cascade Spec.no_match_stated delhi ["London, UK"%string]
       false false false = 0.1.
Proof. split; vm_compute; reflexivity. Qed.

(** C1, as amended: for every job location and preference set,
    [score_location_match] is the priority cascade (1) remote job: 1.0;
    (2) else [remote_only]: 0.2; (3) else no preferred location: 0.5;
    (4) else the maximum, over the normalized preferences, of 1.0 for the
    same city and 0.7 for the same country; (5) and if no preference
    matched, 0.0 unless [open_to_relocation] holds, in which case 0.5 when
    the job shares a country with a preference, else 0.4 when
    [open_to_international] holds, else 0.1.  The score of rule (4) is one
    of the matched comparisons and bounds them all, and the 0.5 of rule
    (5) cannot arise, since a shared country is a match of rule (4). *)
Theorem score_location_match_guarded_cascade :
  forall job prefs reloc intl ro,
    let scores := omap (Spec.comparison job) (map normalize_location prefs) in
    score_location_match job prefs reloc intl ro
    = Spec.cascade Spec.no_match_guarded job prefs reloc intl ro
    /\ (scores <> [] ->
        In (Spec.best scores) scores
        /\ Forall (fun v => v <= Spec.best scores) scores)
    /\ (scores = [] ->
        Spec.no_match_guarded job (map normalize_location prefs) reloc intl
        = if reloc then if intl then 0.4 else 0.1 else 0.0).
Proof.
  intros job prefs reloc intl ro scores. split; [|split].
  - apply score_location_match_cascade.
  - intros Hne. apply best_is_maximum; [apply omap_comparison_hits | exact Hne].
  - intros He. unfold Spec.no_match_guarded.
    rewrite (no_match_no_shared_country _ _ He). reflexivity.
Qed.

(** C3, counterexample: with the preference ["Bangalore"] a job in
    "Delhi, India" scores 0.0, not 0.7: the preference normalizes to the
    city Bangalore with no country, so there is no country to share. *)
Lemma delhi_for_bangalore_scores_zero :
  normalize_location "Bangalore"
  = mkNormalizedLocation (Some "Bangalore") None "onsite" "Bangalore"
  /\ score_location_match (normalize_location "Delhi, India")
       ["Bangalore"%string] false false false = 0.0
  /\ Qeq_bool 0.0 0.7 = false.
Proof. repeat split; vm_compute; reflexivity. Qed.

(** C3, as amended: with [preferred_locations = ["Bangalore"]] and every
    flag false, a job whose raw location is "Bangalore, India" scores 1.0
    and a job whose raw location is "Delhi, India" scores 0.0; the latter
    scores 0.7 when the preference names the country, "Bangalore, India". *)
Theorem exact_city_and_same_country_scores :
  score_location_match (normalize_location "Bangalore, India")
    ["Bangalore"%string] false false false = 1.0
  /\ score_location_match (normalize_location "Delhi, India")
       ["Bangalore"%string] false false false = 0.0
  /\ score_location_match (normalize_location "Delhi, India")
       ["Bangalore, India"%string] false false false = 0.7.
Proof. repeat split; vm_compute; reflexivity. Qed.

(** C8: the location score lies in [0.0, 1.0] for every job location,
    preference list and flag combination, and a job whose location type
    is 'remote' scores exactly 1.0 whatever the preferences and flags,
    [remote_only] false included. *)
Theorem score_location_match_bounds :
  forall job prefs reloc intl ro,
    (0.0 <= score_location_match job prefs reloc intl ro
     /\ score_location_match job prefs reloc intl ro <= 1.0)
    /\ (location_type job = "remote"%string ->
        score_location_match job prefs reloc intl ro = 1.0).
Proof.
  intros job prefs reloc intl ro.
  split; [|intros H; unfold score_location_match; rewrite H; reflexivity].
  pose proof (score_location_match_values job prefs reloc intl ro) as H.
  simpl in H.
  destruct H as [<-|[<-|[<-|[<-|[<-|[<-|[<-|[]]]]]]]]; split; discriminate.
Qed.

End LocationFacts.

(** ** The matcher *)

Module MatcherFacts.
Import PyStr Score Location JobNormalizer Schemas Matcher Spec Inputs.

Lemma in_list_In x l : in_list x l = true <-> In x l.
Proof.
  unfold in_list. rewrite existsb_exists. split.
  - intros (y & Hy & E). apply String.eqb_eq in E. subst. exact Hy.
  - intros H. exists x. split; [exact H | apply String.eqb_refl].
Qed.

(** The keys of [role_keywords] are the business roles: any other role
    has no keyword list, and its domain fit is the neutral 0.5. *)
Lemma domain_fit_other_role role job_title job_description :
  in_list role BUSINESS_ROLES = false ->
  _calculate_domain_fit role job_title job_description = 0.5.
Proof.
  intros H. unfold _calculate_domain_fit.
  assert (E : role_keywords !! role = None).
  { unfold role_keywords. apply not_elem_of_list_to_map_1.
    cbn [fmap list_fmap fst]. intros Hin.
    apply list_elem_of_In, in_list_In in Hin.
    unfold BUSINESS_ROLES in H. congruence. }
  rewrite E. reflexivity.
Qed.

(** C2: for every job, profile and preferences, the total score of the
    match is a weighted sum chosen by whether [profile.primary_role] is
    one of strategy, consulting, operations, marketing, sales, finance,
    hr: for these, 0.3 location + 0.4 skill + 0.2 career + 0.1 domain; for
    any other role, 0.5 location + 0.4 skill + 0.1 career, a sum in which
    the domain score, though computed, does not occur (it is then the
    constant 0.5, and the total does not depend on the description it is
    computed from). *)
Theorem total_score_weighted_sum :
  forall job profile preferences,
    let m := _score_job job profile preferences in
    let domain_score :=
      _calculate_domain_fit (primary_role profile) (title job) (description job) in
    (in_list (primary_role profile) BUSINESS_ROLES = true <->
     In (primary_role profile)
        ["strategy"; "consulting"; "operations"; "marketing"; "sales";
         "finance"; "hr"]%string)
    /\ total_score m
       = (if in_list (primary_role profile) BUSINESS_ROLES
          then 0.3 * location_score m + 0.4 * skill_score m
               + 0.2 * career_score m + 0.1 * domain_score
          else 0.5 * location_score m + 0.4 * skill_score m
               + 0.1 * career_score m)
    /\ location_score m
       = score_location_match
           (mkNormalizedLocation (loc_city (location job))
              (loc_country (location job)) (loc_type (location job))
              (loc_raw (location job)))
           (preferred_locations preferences) (open_to_relocation preferences)
           (open_to_international preferences) (remote_only preferences)
    /\ skill_score m
       = _calculate_skill_similarity (skills profile ++ tools profile)
           (required_skills job)
    /\ career_score m
       = _calculate_career_fit (seniority profile) (primary_role profile)
           (title job)
    /\ (in_list (primary_role profile) BUSINESS_ROLES = false ->
        domain_score = 0.5
        /\ forall d,
             total_score (_score_job (with_description d job) profile preferences)
             = total_score m).
Proof.
  intros job0 profile preferences m domain_score.
  split; [apply in_list_In|].
  split; [reflexivity|]. split; [reflexivity|]. split; [reflexivity|].
  split; [reflexivity|].
  intros H. split; [apply domain_fit_other_role, H|].
  intros d. unfold m, _score_job. rewrite H. reflexivity.
Qed.

(** *** Skill similarity *)

Lemma lower_set_nonempty x l : lower_set (x :: l) <> ∅.
Proof. unfold lower_set. simpl. set_solver. Qed.

Lemma union_size_pos (a b : gset string) : a <> ∅ -> size (a ∪ b) <> 0%nat.
Proof.
  intros Ha Hs. apply size_empty_iff in Hs. apply Ha.
  apply leibniz_equiv. set_solver.
Qed.

Lemma pymin_clamp x : pymin 1.0 x = clamp x.
Proof.
  unfold pymin, clamp.
  destruct (x ?= 1.0) eqn:E.
  - apply Qeq_alt in E.
    assert (H : Qle_bool 1.0 x = true) by (apply Qle_bool_iff; rewrite E; apply Qle_refl).
    rewrite H. reflexivity.
  - apply Qlt_alt in E.
    destruct (Qle_bool 1.0 x) eqn:H; [|reflexivity].
    apply Qle_bool_iff in H. exfalso. eapply Qlt_not_le; eassumption.
  - apply Qgt_alt in E.
    assert (H : Qle_bool 1.0 x = true) by (apply Qle_bool_iff, Qlt_le_weak, E).
    rewrite H. reflexivity.
Qed.

Lemma jaccard_bounds (a b : gset string) :
  a <> ∅ -> 0 <= jaccard a b /\ jaccard a b <= 1.
Proof.
  intros Ha. unfold jaccard.
  assert (Hu : (0 < size (a ∪ b))%nat).
  { pose proof (union_size_pos a b Ha). lia. }
  assert (Hi : (size (a ∩ b) <= size (a ∪ b))%nat).
  { apply subseteq_size.
    etrans; [apply intersection_subseteq_l | apply union_subseteq_l]. }
  assert (Hq : 0 < inject_Z (Z.of_nat (size (a ∪ b)))).
  { change 0 with (inject_Z 0). rewrite <- Zlt_Qlt. lia. }
  split.
  - apply Qle_shift_div_l; [exact Hq|]. rewrite Qmult_0_l.
    change 0 with (inject_Z 0). rewrite <- Zle_Qle. lia.
  - apply Qle_shift_div_r; [exact Hq|]. rewrite Qmult_1_l.
    rewrite <- Zle_Qle. lia.
Qed.

Import PrimFloat.

#[local] Set Warnings "-inexact-float".





(** At five shared skills of fifteen the two arithmetics part: the
    quotient 5/15 times 1.2 is 0.4 as a number, and one unit in the last
    place below the binary64 number 0.4 as a float. *)
Lemma skill_similarity_rounding :
  _calculate_skill_similarity ten_user_skills ten_job_skills == 0.4
  /\ MatcherBinary64._calculate_skill_similarity ten_user_skills ten_job_skills
     = 0x1.9999999999999p-2%float
  /\ PrimFloat.ltb
       (MatcherBinary64._calculate_skill_similarity
          ten_user_skills ten_job_skills)
       0x1.999999999999ap-2%float = true.
Proof. split; [|split]; vm_compute; reflexivity. Qed.

(** *** Filtering, sorting and truncating *)

Lemma insert_desc_perm m l : Permutation (insert_desc m l) (m :: l).
Proof.
  induction l as [|y l IH]; simpl; [reflexivity|].
  destruct (Qle_bool (total_score y) (total_score m)); [reflexivity|].
  rewrite IH. apply perm_swap.
Qed.

Lemma sort_perm l : Permutation (sort_by_total_desc l) l.
Proof.
  induction l as [|m l IH]; simpl; [reflexivity|].
  rewrite insert_desc_perm. constructor. exact IH.
Qed.

Lemma insert_desc_sorted m l :
  StronglySorted desc l -> StronglySorted desc (insert_desc m l).
Proof.
  induction 1 as [|y l Hs IH Hy]; simpl.
  - repeat constructor.
  - destruct (Qle_bool (total_score y) (total_score m)) eqn:E.
    + apply Qle_bool_iff in E. constructor; [constructor; assumption|].
      constructor; [exact E|].
      eapply List.Forall_impl; [|exact Hy]. intros z Hz. unfold desc in *.
      eapply Qle_trans; eassumption.
    + constructor; [exact IH|].
      assert (Hlt : total_score m <= total_score y).
      { apply Qnot_lt_le. intros Hlt.
        apply Qlt_le_weak, Qle_bool_iff in Hlt. congruence. }
      eapply Permutation_Forall; [symmetry; apply insert_desc_perm|].
      constructor; assumption.
Qed.

Lemma sort_sorted l : StronglySorted desc (sort_by_total_desc l).
Proof.
  induction l as [|m l IH]; simpl; [constructor | apply insert_desc_sorted, IH].
Qed.

(** Insertion puts a match in front of the matches it ties with. *)
Lemma insert_desc_tied v m l :
  List.filter (tied v) (insert_desc m l) = List.filter (tied v) (m :: l).
Proof.
  induction l as [|y l IH]; simpl; [reflexivity|].
  destruct (Qle_bool (total_score y) (total_score m)) eqn:E; [reflexivity|].
  simpl. simpl in IH. rewrite IH.
  destruct (tied v m) eqn:Em; [|reflexivity].
  destruct (tied v y) eqn:Ey; [|reflexivity].
  exfalso. unfold tied in *. apply Qeq_bool_iff in Em, Ey.
  assert (H : Qle_bool (total_score y) (total_score m) = true).
  { apply Qle_bool_iff. rewrite Em, Ey. apply Qle_refl. }
  congruence.
Qed.

(** The sort is stable: matches of equal total score keep their order. *)
Lemma sort_stable v l :
  List.filter (tied v) (sort_by_total_desc l) = List.filter (tied v) l.
Proof.
  induction l as [|m l IH]; simpl; [reflexivity|].
  rewrite insert_desc_tied. simpl. rewrite IH. reflexivity.
Qed.

Lemma slice_to_firstn {A : Type} (n : Z) (l : list A) :
  exists k, slice_to n l = firstn k l.
Proof. unfold slice_to. destruct (0 <=? n)%Z; eexists; reflexivity. Qed.

Lemma slice_to_length {A : Type} (n : Z) (l : list A) :
  (0 <= n)%Z -> (Z.of_nat (length (slice_to n l)) <= n)%Z.
Proof.
  intros Hn. unfold slice_to.
  destruct (Z.leb_spec 0 n) as [_|?]; [|lia].
  rewrite length_firstn. lia.
Qed.

Lemma firstn_sorted (R : JobMatch -> JobMatch -> Prop) k l :
  StronglySorted R l -> StronglySorted R (firstn k l).
Proof.
  intros H. revert k. induction H as [|y l Hs IH Hy]; intros [|k]; simpl;
    try constructor.
  - apply IH.
  - apply Forall_take. exact Hy.
Qed.

Lemma firstn_filter_prefix (f : JobMatch -> bool) k l :
  List.filter f (firstn k l) `prefix_of` List.filter f l.
Proof.
  revert k. induction l as [|y l IH]; intros [|k]; simpl;
    try apply prefix_nil.
  destruct (f y); [apply prefix_cons|]; apply IH.
Qed.

Lemma filter_sublist {A : Type} (f : A -> bool) (l : list A) :
  List.filter f l `sublist_of` l.
Proof.
  induction l as [|x l IH]; simpl; [constructor|].
  destruct (f x); [apply sublist_skip | apply sublist_cons]; exact IH.
Qed.

(** The matches that pass the threshold, before sorting. *)
Lemma tied_above_threshold v l :
  List.filter (tied v) (List.filter (fun m => ge (total_score m) 0.3) l)
  `prefix_of` List.filter (tied v) l.
Proof.
  induction l as [|y l IH]; simpl; [reflexivity|].
  destruct (ge (total_score y) 0.3) eqn:E; simpl.
  - destruct (tied v y); [apply prefix_cons|]; exact IH.
  - destruct (tied v y) eqn:Ey.
    + (* a tie below the threshold: no match of this score passes *)
      assert (Hnone : List.filter (tied v)
                        (List.filter (fun m => ge (total_score m) 0.3) l) = []).
      { clear IH. induction l as [|z l IHl]; simpl; [reflexivity|].
        destruct (ge (total_score z) 0.3) eqn:Ez; [|exact IHl].
        simpl. destruct (tied v z) eqn:Etz; [|exact IHl].
        exfalso. unfold tied, ge in *. apply Qeq_bool_iff in Ey, Etz.
        apply Qle_bool_iff in Ez.
        assert (H : Qle_bool 0.3 (total_score y) = true).
        { apply Qle_bool_iff. rewrite Ey, <- Etz. exact Ez. }
        congruence. }
      rewrite Hnone. apply prefix_nil.
    + exact IH.
Qed.

(** [max_results] is a maximum count; the callers pass 20.  The slice
    [scored_jobs[:max_results]] is modelled for every integer all the same:
    with -1 it drops the last match, so two remote jobs give one match. *)
Lemma match_jobs_negative_max_results :
  length (match_jobs two_remote_jobs engineer no_preferences (-1)) = 1%nat
  /\ (Z.of_nat 1 <=? -1)%Z = false.
Proof. split; vm_compute; reflexivity. Qed.

(** C4: for every job list, profile, preferences and [max_results], the
    output of [match_jobs] holds only matches of total score at least 0.3,
    each the score of an input job; its length is at most [max_results],
    a count, so not negative; it is sorted descending by total score,
    matches of equal total score keeping the order of their jobs in the
    input (the jobs left by the hard filter, a subsequence of the input);
    and when [preferences.remote_only] is true it holds no job whose
    location type differs from 'remote'. *)
Theorem match_jobs_output :
  forall jobs profile preferences max_results,
    let out := match_jobs jobs profile preferences max_results in
    let score := fun job => _score_job job profile preferences in
    Forall (fun m => 0.3 <= total_score m
                     /\ exists job, In job jobs /\ m = score job) out
    /\ ((0 <= max_results)%Z -> (Z.of_nat (length out) <= max_results)%Z)
    /\ StronglySorted (fun x y => total_score y <= total_score x) out
    /\ (forall v,
          List.filter (fun m => Qeq_bool (total_score m) v) out
          `prefix_of`
          List.filter (fun m => Qeq_bool (total_score m) v)
            (map score (_apply_hard_filters jobs preferences)))
    /\ _apply_hard_filters jobs preferences `sublist_of` jobs
    /\ (remote_only preferences = true ->
        Forall (fun m => loc_type (location (job m)) = "remote"%string) out).
Proof.
  intros jobs profile preferences max_results out score.
  set (hard := _apply_hard_filters jobs preferences).
  set (passed := List.filter (fun m => ge (total_score m) 0.3) (map score hard)).
  assert (Hout : out = slice_to max_results (sort_by_total_desc passed))
    by reflexivity.
  destruct (slice_to_firstn max_results (sort_by_total_desc passed)) as [k Hk].
  assert (Hall : forall P : JobMatch -> Prop, Forall P passed -> Forall P out).
  { intros P HP. rewrite Hout, Hk. apply Forall_take.
    eapply Permutation_Forall; [symmetry; apply sort_perm | exact HP]. }
  split; [|split; [|split; [|split; [|split]]]].
  - apply Hall. apply List.Forall_forall. intros m Hm.
    apply filter_In in Hm. destruct Hm as [Hm Hge].
    split; [apply Qle_bool_iff, Hge|].
    apply in_map_iff in Hm. destruct Hm as (j & <- & Hj).
    apply filter_In in Hj. exists j. split; [apply Hj | reflexivity].
  - intros Hn. rewrite Hout. apply slice_to_length, Hn.
  - rewrite Hout, Hk. apply firstn_sorted, sort_sorted.
  - intros v. rewrite Hout, Hk.
    etrans; [apply firstn_filter_prefix|].
    change (fun m => Qeq_bool (total_score m) v) with (tied v).
    rewrite sort_stable. apply tied_above_threshold.
  - apply filter_sublist.
  - intros Hro. apply Hall. apply List.Forall_forall. intros m Hm.
    apply filter_In in Hm. destruct Hm as [Hm _].
    apply in_map_iff in Hm. destruct Hm as (j & <- & Hj).
    apply filter_In in Hj. destruct Hj as [_ Hj]. rewrite Hro in Hj.
    simpl in Hj. apply negb_true_iff, negb_false_iff in Hj.
    apply String.eqb_eq in Hj. exact Hj.
Qed.

End MatcherFacts.

(** ** The job normalizer *)

Module NormalizerFacts.
Import PyStr Exn Location Extractor JobNormalizer Spec Inputs.

(** *** Deduplication *)

Lemma dedup_loop_keep_unseen jobs seen acc :
  dedup_loop jobs seen acc = acc ++ keep_unseen seen jobs.
Proof.
  revert seen acc. induction jobs as [|j jobs IH]; intros seen acc; simpl.
  - symmetry. apply app_nil_r.
  - destruct (bool_decide (id j ∉ seen)); rewrite IH; [|reflexivity].
    rewrite <- app_assoc. reflexivity.
Qed.

Lemma deduplicate_jobs_keep_unseen jobs :
  deduplicate_jobs jobs = keep_unseen ∅ jobs.
Proof. unfold deduplicate_jobs. apply dedup_loop_keep_unseen. Qed.

Lemma keep_unseen_sublist seen jobs : keep_unseen seen jobs `sublist_of` jobs.
Proof.
  revert seen. induction jobs as [|j jobs IH]; intros seen; simpl.
  - constructor.
  - destruct (bool_decide (id j ∉ seen)); [apply sublist_skip | apply sublist_cons];
      apply IH.
Qed.

Lemma keep_unseen_fresh seen jobs j :
  In j (keep_unseen seen jobs) -> id j ∉ seen.
Proof.
  revert seen. induction jobs as [|x jobs IH]; intros seen; simpl; [tauto|].
  destruct (bool_decide_reflect (id x ∉ seen)) as [Hx|Hx].
  - intros [<-|Hin]; [exact Hx|].
    apply IH in Hin. set_solver.
  - apply IH.
Qed.

Lemma keep_unseen_nodup seen jobs : NoDup (map id (keep_unseen seen jobs)).
Proof.
  revert seen. induction jobs as [|x jobs IH]; intros seen; simpl.
  - constructor.
  - destruct (bool_decide (id x ∉ seen)); [|apply IH].
    simpl. constructor; [|apply IH].
    rewrite list_elem_of_In, in_map_iff. intros (y & Hy & Hin).
    apply keep_unseen_fresh in Hin. set_solver.
Qed.

Lemma keep_unseen_covers seen jobs j :
  In j jobs -> id j ∈ seen \/ In (id j) (map id (keep_unseen seen jobs)).
Proof.
  revert seen. induction jobs as [|x jobs IH]; intros seen; simpl; [tauto|].
  destruct (bool_decide_reflect (id x ∉ seen)) as [Hx|Hx]; intros [->|Hin].
  - right. simpl. auto.
  - destruct (IH ({[ id x ]} ∪ seen) Hin) as [H|H]; [|right; simpl; auto].
    apply elem_of_union in H. destruct H as [H|H]; [|auto].
    apply elem_of_singleton in H. right. simpl. auto.
  - left. destruct (decide (id j ∈ seen)); tauto.
  - apply IH, Hin.
Qed.

Lemma keep_unseen_first seen jobs j :
  In j (keep_unseen seen jobs) -> first_with_id j jobs = Some j.
Proof.
  unfold first_with_id.
  revert seen. induction jobs as [|x jobs IH]; intros seen; simpl; [tauto|].
  destruct (bool_decide_reflect (id x ∉ seen)) as [Hx|Hx].
  - intros [<-|Hin]; [rewrite String.eqb_refl; reflexivity|].
    pose proof (keep_unseen_fresh _ _ _ Hin) as Hj.
    destruct (String.eqb_spec (id x) (id j)) as [E|_]; [set_solver|].
    eapply IH, Hin.
  - intros Hin. pose proof (keep_unseen_fresh _ _ _ Hin) as Hj.
    destruct (String.eqb_spec (id x) (id j)) as [E|_];
      [rewrite E in Hx; contradiction|].
    eapply IH, Hin.
Qed.

(** A list without a repeated id, none of them seen, is kept whole. *)
Lemma keep_unseen_fixed seen jobs :
  NoDup (map id jobs) -> (forall j, In j jobs -> id j ∉ seen) ->
  keep_unseen seen jobs = jobs.
Proof.
  revert seen. induction jobs as [|x jobs IH]; intros seen Hnd Hfresh; simpl;
    [reflexivity|].
  simpl in Hnd. apply NoDup_cons in Hnd. destruct Hnd as [Hx Hnd].
  rewrite bool_decide_eq_true_2 by (apply Hfresh; simpl; auto).
  f_equal. apply IH; [exact Hnd|].
  intros j Hj. apply not_elem_of_union. split; [|apply Hfresh; simpl; auto].
  rewrite elem_of_singleton. intros E. apply Hx.
  rewrite list_elem_of_In, <- E. apply in_map, Hj.
Qed.

(** C6: [deduplicate_jobs] is idempotent, and its output keeps, in input
    order, exactly the first occurrence of each distinct job id: it is a
    subsequence of the input, no id occurs in it twice, every id of the
    input occurs in it, and each of its jobs is the first job of the input
    with that id. *)
Theorem deduplicate_jobs_first_occurrences :
  forall jobs,
    let out := deduplicate_jobs jobs in
    deduplicate_jobs out = out
    /\ out `sublist_of` jobs
    /\ NoDup (map id out)
    /\ (forall j, In j jobs -> In (id j) (map id out))
    /\ (forall j, In j out -> first_with_id j jobs = Some j).
Proof.
  intros jobs out. unfold out. rewrite !deduplicate_jobs_keep_unseen.
  split; [|split; [|split; [|split]]].
  - apply keep_unseen_fixed; [apply keep_unseen_nodup|].
    intros j _. apply not_elem_of_empty.
  - apply keep_unseen_sublist.
  - apply keep_unseen_nodup.
  - intros j Hj. destruct (keep_unseen_covers ∅ _ _ Hj) as [H|H]; [|exact H].
    apply not_elem_of_empty in H. destruct H.
  - apply keep_unseen_first.
Qed.

(** *** Normalization of one posting *)

Lemma take_length n s : (String.length (take n s) <= n)%nat.
Proof.
  revert s. induction n as [|n IH]; intros [|c s]; simpl; try lia.
  specialize (IH s). lia.
Qed.

Lemma normalize_location_any_raises v :
  raises (normalize_location_any v) <-> not_str v /\ py_truthy v = true.
Proof.
  unfold raises, not_str. destruct v as [|b|z|s]; simpl.
  - split; [intros [e He]; discriminate | intros [_ H]; discriminate].
  - destruct b; simpl; split;
      try (intros [e He]; discriminate); try (intros [_ H]; discriminate).
    + intros _. split; [discriminate | reflexivity].
    + intros _. eexists; reflexivity.
  - destruct (z =? 0)%Z; simpl; split;
      try (intros [e He]; discriminate); try (intros [_ H]; discriminate).
    + intros _. split; [discriminate | reflexivity].
    + intros _. eexists; reflexivity.
  - split; [intros [e He]; discriminate | intros [H _]; destruct (H s eq_refl)].
Qed.

Lemma extract_skills_any_raises nlp v :
  raises (extract_skills_any nlp v) <->
  not_str v \/ exists text, v = VStr text /\ raises (extract_skills nlp text).
Proof.
  unfold raises, not_str. destruct v as [|b|z|s]; simpl;
    try (split; [intros _; left; discriminate | intros _; eexists; reflexivity]).
  split.
  - intros H. right. exists s. auto.
  - intros [H|(text & [= <-] & H)]; [destruct (H s eq_refl) | exact H].
Qed.

(** [extract_skills] raises exactly when the spaCy pipeline does. *)
Lemma extract_skills_raises nlp text :
  raises (extract_skills nlp text) <->
  exists pipeline, nlp = Some pipeline /\ raises (pipeline text).
Proof.
  unfold raises, extract_skills. destruct nlp as [pipeline|]; simpl.
  - destruct (pipeline text) as [ents|e] eqn:E; simpl.
    + split; [intros [e He]; discriminate|].
      intros (f & [= <-] & e & He). congruence.
    + split; [|intros _; eexists; reflexivity].
      intros _. exists pipeline. split; [reflexivity|].
      rewrite E. eexists; reflexivity.
  - split; [intros [e He]; discriminate | intros (f & Hf & _); discriminate].
Qed.

(** The two ways through the [try] block. *)
Lemma normalize_job_try_cases md5_hexdigest nlp raw_job :
  let location_raw := default (VStr "") (raw_location_raw raw_job) in
  let text := default (VStr "") (raw_description raw_job) in
  match normalize_job_try md5_hexdigest nlp raw_job with
  | Ok job =>
      ~ raises (normalize_location_any location_raw)
      /\ ~ raises (extract_skills_any nlp text)
      /\ exists d skills,
           text = VStr d /\ extract_skills nlp d = Ok skills
           /\ description job = take 1000 d
           /\ required_skills job = firstn 10 skills
           /\ preferred_skills job = []
  | Raise _ =>
      raises (normalize_location_any location_raw)
      \/ raises (extract_skills_any nlp text)
  end.
Proof.
  intros location_raw text. unfold normalize_job_try.
  fold location_raw text.
  destruct (normalize_location_any location_raw) as [loc|e] eqn:EL; simpl;
    [|left; eexists; reflexivity].
  destruct (extract_skills_any nlp text) as [skills|e] eqn:ES; simpl;
    [|right; eexists; reflexivity].
  destruct text as [|b|z|d] eqn:Et; simpl in ES; try discriminate.
  simpl. split; [intros [e He]; discriminate|].
  split; [intros [e He]; discriminate|].
  exists d, skills. auto.
Qed.

Lemma take_length_min n s :
  String.length (take n s) = Nat.min n (String.length s).
Proof.
  revert s. induction n as [|n IH]; intros [|c s]; simpl; try reflexivity.
  rewrite IH. reflexivity.
Qed.

Lemma take_prefix n s : exists rest, s = take n s +:+ rest.
Proof.
  revert s. induction n as [|n IH]; intros s.
  - exists s. destruct s; reflexivity.
  - destruct s as [|c s]; [exists EmptyString; reflexivity|].
    destruct (IH s) as [rest Hrest]. exists rest.
    rewrite Hrest at 1. reflexivity.
Qed.

(** The [try] block with a digest that can raise: the digest is the first
    call, and after it the block goes on as with a digest that cannot. *)
Lemma normalize_job_try_digest md5_hexdigest nlp raw_job :
  let combined :=
    lower (default ""%string (raw_title raw_job) +:+ "|"
           +:+ default ""%string (raw_company raw_job) +:+ "|"
           +:+ py_str (default (VStr "") (raw_location_raw raw_job))) in
  JobNormalizerEncoding.normalize_job_try md5_hexdigest nlp raw_job
  = match md5_hexdigest combined with
    | Ok digest => normalize_job_try (fun _ => digest) nlp raw_job
    | Raise e => Raise e
    end.
Proof.
  intros combined.
  unfold JobNormalizerEncoding.normalize_job_try,
    JobNormalizerEncoding._generate_job_id, normalize_job_try,
    _generate_job_id.
  fold combined. destruct (md5_hexdigest combined); reflexivity.
Qed.

Lemma normalize_job_digest_total md5 nlp raw_job :
  JobNormalizerEncoding.normalize_job (fun s => Ok (md5 s)) nlp raw_job
  = normalize_job md5 nlp raw_job.
Proof. reflexivity. Qed.

(** C7: [normalize_job] never raises: it returns a job when the body of
    its [try] block returns one and [None] when the body raises, which is
    exactly when the digest of the id raises, or [location_raw] is a true
    value that is not a string, or [description] is not a string, or the
    spaCy pipeline raises on the description.  On success the description
    is the first 1000 characters of the raw one: a prefix of it, of length
    1000 or, if the raw one is shorter, of its length; the required skills
    are the first 10 extracted skills: a prefix of them, of length 10 or
    the number of skills if that is less; and the preferred skills are
    empty.  With a digest that cannot raise this is the [normalize_job] of
    [JobNormalizer]. *)
Theorem normalize_job_fails_closed :
  forall md5_hexdigest nlp raw_job,
    let location_raw := default (VStr "") (raw_location_raw raw_job) in
    let text := default (VStr "") (raw_description raw_job) in
    let combined :=
      lower (default ""%string (raw_title raw_job) +:+ "|"
             +:+ default ""%string (raw_company raw_job) +:+ "|"
             +:+ py_str location_raw) in
    let body :=
      JobNormalizerEncoding.normalize_job_try md5_hexdigest nlp raw_job in
    let returned :=
      JobNormalizerEncoding.normalize_job md5_hexdigest nlp raw_job in
    (returned = None <-> raises body)
    /\ (forall job, returned = Some job <-> body = Ok job)
    /\ (raises body <->
        raises (md5_hexdigest combined)
        \/ (not_str location_raw /\ py_truthy location_raw = true)
        \/ not_str text
        \/ exists d pipeline,
             text = VStr d /\ nlp = Some pipeline /\ raises (pipeline d))
    /\ (forall job,
          returned = Some job ->
          exists d skills,
            text = VStr d /\ extract_skills nlp d = Ok skills
            /\ description job = take 1000 d
            /\ (exists rest, d = description job +:+ rest)
            /\ String.length (description job)
               = Nat.min 1000 (String.length d)
            /\ required_skills job = firstn 10 skills
            /\ (exists rest, skills = required_skills job ++ rest)
            /\ length (required_skills job) = Nat.min 10 (length skills)
            /\ preferred_skills job = [])
    /\ (forall md5,
          normalize_job md5 nlp raw_job
          = JobNormalizerEncoding.normalize_job (fun s => Ok (md5 s))
              nlp raw_job).
Proof.
  intros md5_hexdigest nlp raw_job location_raw text combined body returned.
  assert (Hdescr :
    raises (normalize_location_any location_raw)
    \/ raises (extract_skills_any nlp text) <->
    (not_str location_raw /\ py_truthy location_raw = true)
    \/ not_str text
    \/ exists d pipeline,
         text = VStr d /\ nlp = Some pipeline /\ raises (pipeline d)).
  { rewrite normalize_location_any_raises, extract_skills_any_raises.
    split.
    - intros [H|[H|(d & Hd & H)]]; [auto|auto|].
      apply extract_skills_raises in H. destruct H as (f & Hf & H).
      right; right. exists d, f. auto.
    - intros [H|[H|(d & f & Hd & Hf & H)]]; [auto|auto|].
      right; right. exists d. split; [exact Hd|].
      apply extract_skills_raises. exists f. auto. }
  assert (Hbody : body = match md5_hexdigest combined with
                         | Ok digest =>
                             normalize_job_try (fun _ => digest) nlp raw_job
                         | Raise e => Raise e
                         end)
    by apply normalize_job_try_digest.
  assert (Hret : returned = match body with Ok job => Some job | Raise _ => None end)
    by reflexivity.
  split; [|split; [|split; [|split]]].
  - rewrite Hret. destruct body as [job|e].
    + split; [discriminate | intros [e He]; discriminate].
    + split; [intros _; exists e; reflexivity | reflexivity].
  - intros job. rewrite Hret. destruct body as [job'|e].
    + split; intros [= <-]; reflexivity.
    + split; discriminate.
  - rewrite Hbody. destruct (md5_hexdigest combined) as [digest|e].
    + pose proof (normalize_job_try_cases (fun _ => digest) nlp raw_job) as Hc.
      cbv zeta in Hc. fold location_raw text in Hc.
      destruct (normalize_job_try (fun _ => digest) nlp raw_job) as [job|e].
      * destruct Hc as (HL & HS & _). split; [intros [e He]; discriminate|].
        intros [[e He]|H]; [discriminate|]. apply Hdescr in H. tauto.
      * split; [|intros _; exists e; reflexivity].
        intros _. right. apply Hdescr. exact Hc.
    + split; [|intros _; exists e; reflexivity].
      intros _. left. exists e. reflexivity.
  - intros job Hjob. rewrite Hret, Hbody in Hjob.
    destruct (md5_hexdigest combined) as [digest|e]; [|discriminate].
    pose proof (normalize_job_try_cases (fun _ => digest) nlp raw_job) as Hc.
    cbv zeta in Hc. fold location_raw text in Hc.
    destruct (normalize_job_try (fun _ => digest) nlp raw_job) as [job'|e];
      [|discriminate].
    injection Hjob as <-.
    destruct Hc as (_ & _ & d & skills & Hd & Hsk & Hdesc & Hreq & Hpref).
    exists d, skills. split; [exact Hd|]. split; [exact Hsk|].
    split; [exact Hdesc|]. split; [rewrite Hdesc; apply take_prefix|].
    split; [rewrite Hdesc; apply take_length_min|].
    split; [exact Hreq|].
    split; [exists (skipn 10 skills); rewrite Hreq;
            symmetry; apply firstn_skipn|].
    split; [rewrite Hreq; apply length_firstn | exact Hpref].
  - intros md5. reflexivity.
Qed.

End NormalizerFacts.

(** ** The explanation generator *)

Module ExplanationFacts.
Import PyStr Score JobNormalizer Schemas Matcher Explanations Spec Inputs.

Lemma nonempty_append_dot s : nonempty (s +:+ ".") = true.
Proof. destruct s; reflexivity. Qed.

(** The reasoning is never the empty string. *)
Lemma why_match_nonempty m profile :
  nonempty (_generate_why_match m profile) = true.
Proof. unfold _generate_why_match. apply nonempty_append_dot. Qed.

Lemma elem_of_lower_set x l :
  x ∈ lower_set l <-> exists s, In s l /\ lower s = x.
Proof.
  unfold lower_set. rewrite elem_of_list_to_set, list_elem_of_In, in_map_iff.
  split; intros (s & H1 & H2); exists s; auto.
Qed.

(** The listed matches are empty exactly when the two lower-cased sets
    are disjoint. *)
Lemma find_skill_matches_nil user_skills job_skills :
  _find_skill_matches user_skills job_skills = [] <->
  lower_set user_skills ∩ lower_set job_skills = ∅.
Proof.
  unfold _find_skill_matches.
  set (matches := lower_set user_skills ∩ lower_set job_skills).
  split.
  - intros Hnil. destruct (decide (matches = ∅)) as [E|E]; [exact E|].
    apply set_choose_L in E. destruct E as [x Hx].
    assert (Hu : x ∈ lower_set user_skills).
    { unfold matches in Hx. apply elem_of_intersection in Hx. tauto. }
    apply elem_of_lower_set in Hu. destruct Hu as (s & Hs & <-).
    assert (Hin : In s (List.filter
              (fun skill => bool_decide (lower skill ∈ matches)) user_skills)).
    { apply filter_In. split; [exact Hs | apply bool_decide_eq_true_2, Hx]. }
    rewrite Hnil in Hin. destruct Hin.
  - intros ->. induction user_skills as [|s l IH]; simpl; [reflexivity|].
    rewrite bool_decide_eq_false_2 by apply not_elem_of_empty. exact IH.
Qed.

Lemma generate_explanation_none m profile :
  generate_explanation m profile = None <->
  skill_intersection profile (job m) = ∅.
Proof.
  unfold generate_explanation, skill_intersection.
  rewrite why_match_nonempty. simpl.
  rewrite <- find_skill_matches_nil.
  destruct (_find_skill_matches (skills profile ++ tools profile)
              (required_skills (job m))); split; congruence.
Qed.


(** C9: if the case-insensitive intersection of the user's skills and
    tools with the job's required skills is empty, [generate_explanation]
    returns [None], for every match and profile, whatever the scores of
    the match. *)
Theorem generate_explanation_veto :
  forall m profile,
    skill_intersection profile (job m) = ∅ ->
    generate_explanation m profile = None.
Proof. intros m profile H. apply generate_explanation_none, H. Qed.


(** C9, witness: the engineer and the posting that asks for Excel share
    no skill, and the explanation is vetoed although the match scores
    1.0 on location. *)
Lemma generate_explanation_veto_excel :
  skill_intersection engineer (job excel_match) = ∅
  /\ location_score excel_match = 1.0
  /\ generate_explanation excel_match engineer = None.
Proof.
  assert (H : skill_intersection engineer (job excel_match) = ∅)
    by (vm_compute; reflexivity).
  split; [exact H|]. split; [reflexivity|].
  exact (generate_explanation_veto excel_match engineer H).
Defined.

End ExplanationFacts.

(** * Further properties of the code *)

(** ** Python strings *)

Module PyStrFacts.
Import PyStr Relations.

Ltac ascii_cases c :=
  destruct c as [[] [] [] [] [] [] [] []]; vm_compute; reflexivity.

Lemma lower_char_idem c : lower_char (lower_char c) = lower_char c.
Proof. ascii_cases c. Qed.

Lemma upper_lower_char c : upper_char (lower_char c) = upper_char c.
Proof. ascii_cases c. Qed.

Lemma lower_upper_char c : lower_char (upper_char c) = lower_char c.
Proof. ascii_cases c. Qed.

Lemma upper_char_idem c : upper_char (upper_char c) = upper_char c.
Proof. ascii_cases c. Qed.

Lemma is_alpha_lower_char c : is_alpha (lower_char c) = is_alpha c.
Proof. ascii_cases c. Qed.

Lemma is_alpha_upper_char c : is_alpha (upper_char c) = is_alpha c.
Proof. ascii_cases c. Qed.

Lemma is_space_lower_char c : is_space (lower_char c) = is_space c.
Proof. ascii_cases c. Qed.

Lemma lower_idem s : lower (lower s) = lower s.
Proof.
  induction s as [|c s IH]; simpl; [reflexivity|].
  rewrite lower_char_idem, IH. reflexivity.
Qed.

Lemma lower_app a b : lower (a +:+ b) = lower a +:+ lower b.
Proof.
  induction a as [|c a IH]; simpl; [reflexivity|]. rewrite IH. reflexivity.
Qed.

Lemma lower_title_from b s : lower (title_from b s) = lower s.
Proof.
  revert b. induction s as [|c s IH]; intros b; simpl; [reflexivity|].
  rewrite IH. destruct b; [rewrite lower_char_idem | rewrite lower_upper_char];
    reflexivity.
Qed.

Lemma title_from_lower b s : title_from b (lower s) = title_from b s.
Proof.
  revert b. induction s as [|c s IH]; intros b; simpl; [reflexivity|].
  rewrite is_alpha_lower_char, IH.
  destruct b; [rewrite lower_char_idem | rewrite upper_lower_char]; reflexivity.
Qed.

Lemma title_from_idem b s : title_from b (title_from b s) = title_from b s.
Proof.
  revert b. induction s as [|c s IH]; intros b; simpl; [reflexivity|].
  destruct b.
  - rewrite is_alpha_lower_char, lower_char_idem, IH. reflexivity.
  - rewrite is_alpha_upper_char, upper_char_idem, IH. reflexivity.
Qed.

Lemma lstrip_lower s : lstrip (lower s) = lower (lstrip s).
Proof.
  induction s as [|c s IH]; simpl; [reflexivity|].
  rewrite is_space_lower_char. destruct (is_space c); [exact IH | reflexivity].
Qed.

Lemma rstrip_lower s : rstrip (lower s) = lower (rstrip s).
Proof.
  induction s as [|c s IH]; simpl; [reflexivity|].
  rewrite IH, is_space_lower_char.
  destruct (rstrip s); simpl; [destruct (is_space c)|]; reflexivity.
Qed.

(** [s.lower().strip()] is [s.strip().lower()]. *)
Lemma strip_lower s : strip (lower s) = lower (strip s).
Proof. unfold strip. rewrite lstrip_lower, rstrip_lower. reflexivity. Qed.

Lemma split_length sep s : length (split sep s) = S (count_char sep s).
Proof.
  induction s as [|c s IH]; simpl; [reflexivity|].
  destruct (Ascii.eqb c sep); simpl; [rewrite IH; reflexivity|].
  destruct (split sep s) as [|p ps]; simpl in *; [discriminate | exact IH].
Qed.

Lemma contains_char_count c s :
  contains (String c EmptyString) s = negb (count_char c s =? 0)%nat.
Proof.
  induction s as [|a s IH]; [reflexivity|].
  cbn [contains startswith count_char]. rewrite IH.
  rewrite (Ascii.eqb_sym c a).
  destruct (Ascii.eqb a c); simpl; [reflexivity|].
  destruct s; reflexivity.
Qed.

(** *** The order of strings *)

Lemma str_le_refl a : Extractor.str_le a a = true.
Proof.
  induction a as [|x a IH]; simpl; [reflexivity|].
  rewrite N.ltb_irrefl. exact IH.
Qed.

Lemma str_le_total a b :
  Extractor.str_le a b = true \/ Extractor.str_le b a = true.
Proof.
  revert b. induction a as [|x a IH]; intros [|y b]; simpl; auto.
  destruct (N.ltb_spec (N_of_ascii x) (N_of_ascii y)); [auto|].
  destruct (N.ltb_spec (N_of_ascii y) (N_of_ascii x)); [auto|].
  apply IH.
Qed.

Lemma str_le_antisym a b :
  Extractor.str_le a b = true -> Extractor.str_le b a = true -> a = b.
Proof.
  revert b. induction a as [|x a IH]; intros [|y b]; simpl;
    try discriminate; [reflexivity|].
  destruct (N.ltb_spec (N_of_ascii x) (N_of_ascii y)) as [H1|H1];
    destruct (N.ltb_spec (N_of_ascii y) (N_of_ascii x)) as [H2|H2];
    try discriminate; try lia.
  intros Hab Hba. f_equal; [|apply IH; assumption].
  rewrite <- (ascii_N_embedding x), <- (ascii_N_embedding y). f_equal. lia.
Qed.

Lemma str_le_trans a b c :
  Extractor.str_le a b = true -> Extractor.str_le b c = true ->
  Extractor.str_le a c = true.
Proof.
  revert b c. induction a as [|x a IH]; intros [|y b] [|z c]; simpl;
    try discriminate; try reflexivity.
  destruct (N.ltb_spec (N_of_ascii x) (N_of_ascii y)) as [H1|H1];
    destruct (N.ltb_spec (N_of_ascii y) (N_of_ascii x)) as [H2|H2];
    destruct (N.ltb_spec (N_of_ascii y) (N_of_ascii z)) as [H3|H3];
    destruct (N.ltb_spec (N_of_ascii z) (N_of_ascii y)) as [H4|H4];
    destruct (N.ltb_spec (N_of_ascii x) (N_of_ascii z)) as [H5|H5];
    destruct (N.ltb_spec (N_of_ascii z) (N_of_ascii x)) as [H6|H6];
    try discriminate; try reflexivity; try lia.
  apply IH.
Qed.

Lemma insert_sorted_perm x l : Permutation (Extractor.insert_sorted x l) (x :: l).
Proof.
  induction l as [|y l IH]; simpl; [reflexivity|].
  destruct (Extractor.str_le x y); [reflexivity|].
  rewrite IH. apply perm_swap.
Qed.

Lemma sorted_perm (s : gset string) : Permutation (Extractor.sorted s) (elements s).
Proof.
  unfold Extractor.sorted. induction (elements s) as [|x l IH]; simpl;
    [reflexivity|].
  rewrite insert_sorted_perm. constructor. exact IH.
Qed.

Lemma insert_sorted_le x l :
  StronglySorted (fun a b => Extractor.str_le a b = true) l ->
  StronglySorted (fun a b => Extractor.str_le a b = true)
    (Extractor.insert_sorted x l).
Proof.
  induction 1 as [|y l Hs IH Hy]; simpl.
  - repeat constructor.
  - destruct (Extractor.str_le x y) eqn:E.
    + constructor; [constructor; assumption|].
      constructor; [exact E|].
      eapply List.Forall_impl; [|exact Hy]. intros z Hz.
      eapply str_le_trans; eassumption.
    + constructor; [exact IH|].
      eapply Permutation_Forall; [symmetry; apply insert_sorted_perm|].
      constructor; [|exact Hy].
      destruct (str_le_total x y) as [H|H]; [congruence | exact H].
Qed.

Lemma strongly_sorted_strict l :
  NoDup l ->
  StronglySorted (fun a b => Extractor.str_le a b = true) l -> ascending l.
Proof.
  unfold ascending. intros Hnd Hs. induction Hs as [|x l Hs IH Hx].
  - constructor.
  - apply NoDup_cons in Hnd. destruct Hnd as [Hnotin Hnd].
    constructor; [apply IH, Hnd|].
    apply List.Forall_forall. intros y Hy. split.
    + rewrite List.Forall_forall in Hx. apply Hx, Hy.
    + intros ->. apply Hnotin, list_elem_of_In, Hy.
Qed.

(** [sorted(list(s))] lists the members of the set, each once, in strictly
    ascending order. *)
Lemma sorted_ascending (s : gset string) : ascending (Extractor.sorted s).
Proof.
  apply strongly_sorted_strict.
  - rewrite sorted_perm. apply NoDup_elements.
  - unfold Extractor.sorted. induction (elements s) as [|x l IH]; simpl;
      [constructor | apply insert_sorted_le, IH].
Qed.

Lemma In_sorted (s : gset string) x : In x (Extractor.sorted s) <-> x ∈ s.
Proof.
  rewrite <- list_elem_of_In, sorted_perm. apply elem_of_elements.
Qed.

Lemma ascending_nodup l : ascending l -> NoDup l.
Proof.
  induction 1 as [|x l Hs IH Hx]; constructor; [|exact IH].
  rewrite list_elem_of_In. intros Hin.
  rewrite List.Forall_forall in Hx. destruct (Hx _ Hin) as [_ Hne]. congruence.
Qed.

Lemma ascending_firstn n l : ascending l -> ascending (firstn n l).
Proof.
  unfold ascending. intros H. revert n.
  induction H as [|x l Hs IH Hx]; intros [|n]; simpl; try constructor.
  - apply IH.
  - apply Forall_take. exact Hx.
Qed.

(** Two ascending lists with the same members are the same list. *)
Lemma ascending_unique l1 l2 :
  ascending l1 -> ascending l2 -> (forall x, In x l1 <-> In x l2) -> l1 = l2.
Proof.
  intros H1. revert l2. induction H1 as [|x l1 Hs1 IH Hx]; intros l2 H2 Hiff.
  - destruct l2 as [|y l2]; [reflexivity|].
    exfalso. apply (Hiff y). simpl. auto.
  - destruct H2 as [|y l2 Hs2 Hy].
    + exfalso. apply (Hiff x). simpl. auto.
    + rewrite List.Forall_forall in Hx, Hy.
      assert (Hxy : x = y).
      { assert (Hx2 : In x (y :: l2)) by (apply Hiff; simpl; auto).
        assert (Hy1 : In y (x :: l1)) by (apply Hiff; simpl; auto).
        destruct Hx2 as [E|Hx2]; [congruence|].
        destruct Hy1 as [E|Hy1]; [congruence|].
        destruct (Hx _ Hy1) as [L1 _]. destruct (Hy _ Hx2) as [L2 _].
        apply str_le_antisym; assumption. }
      subst y. f_equal. apply IH; [exact Hs2|].
      intros z. split; intros Hz.
      * assert (Hz' : In z (x :: l2)) by (apply Hiff; simpl; auto).
        destruct Hz' as [E|Hz']; [|exact Hz'].
        subst z. destruct (Hx _ Hz) as [_ Hne]. congruence.
      * assert (Hz' : In z (x :: l1)) by (apply Hiff; simpl; auto).
        destruct Hz' as [E|Hz']; [|exact Hz'].
        subst z. destruct (Hy _ Hz) as [_ Hne]. congruence.
Qed.

End PyStrFacts.

(** ** Further properties of the location normalizer *)

Module LocationMore.
Import PyStr Score Location Spec Relations PyStrFacts LocationFacts.

Lemma split_nonempty sep s : split sep s <> [].
Proof.
  intros E. pose proof (split_length sep s) as H. rewrite E in H. discriminate.
Qed.

Lemma split_no_sep sep s : count_char sep s = 0%nat -> split sep s = [s].
Proof.
  induction s as [|a s IH]; simpl; [reflexivity|].
  destruct (Ascii.eqb a sep); simpl; [discriminate|].
  intros H. rewrite IH by exact H. reflexivity.
Qed.

Lemma parts_one_iff_no_comma s :
  (exists p, map strip (split ","%char s) = [p]) <-> has_comma s = false.
Proof.
  unfold has_comma. rewrite contains_char_count, negb_false_iff, Nat.eqb_eq.
  pose proof (split_length ","%char s) as H.
  destruct (split ","%char s) as [|p0 [|p1 ps]] eqn:E; simpl in *.
  - discriminate.
  - split; [intros _; lia | intros _; eexists; reflexivity].
  - split; [intros [p Hp]; discriminate | intros H0; lia].
Qed.

Lemma parse_city_country_city s :
  exists c, fst (_parse_city_country s) = Some c.
Proof.
  unfold _parse_city_country.
  destruct (map strip (split ","%char s)) as [|p0 [|p1 [|p2 rest]]] eqn:E.
  - apply map_eq_nil in E. destruct (split_nonempty _ _ E).
  - destruct (CITY_ALIASES !! lower p0); eexists; reflexivity.
  - eexists; reflexivity.
  - eexists; reflexivity.
Qed.

Lemma parse_city_country_country s :
  snd (_parse_city_country s) = None <-> has_comma s = false.
Proof.
  rewrite <- parts_one_iff_no_comma. unfold _parse_city_country.
  destruct (map strip (split ","%char s)) as [|p0 [|p1 [|p2 rest]]] eqn:E.
  - apply map_eq_nil in E. destruct (split_nonempty _ _ E).
  - destruct (CITY_ALIASES !! lower p0); simpl;
      (split; [intros _; eexists; reflexivity | reflexivity]).
  - simpl. split; [discriminate | intros [p Hp]; discriminate].
  - simpl. split; [discriminate | intros [p Hp]; discriminate].
Qed.

Lemma normalize_location_types s :
  In (location_type (normalize_location s)) ["remote"; "hybrid"; "onsite"]%string
  /\ (location_type (normalize_location s) = "remote"%string ->
      city (normalize_location s) = None /\ country (normalize_location s) = None).
Proof.
  unfold normalize_location.
  destruct (negb (nonempty s)); [simpl; intuition discriminate|].
  destruct (any_in REMOTE_KEYWORDS (strip (lower s))); [simpl; intuition|].
  destruct (_parse_city_country s) as [ci co].
  destruct (any_in HYBRID_KEYWORDS (strip (lower s))); simpl;
    intuition discriminate.
Qed.

(** X1: [normalize_location] never fails and always returns one of the
    three location types.  The empty string gives the fixed record
    (no city, no country, 'onsite', raw "Not specified"); any other string
    is kept as [raw].  The type is 'remote' exactly when the lower-cased
    string holds one of the remote keywords, and a remote location has
    neither city nor country. *)
Theorem normalize_location_shape :
  forall s,
    let n := normalize_location s in
    In (location_type n) ["remote"; "hybrid"; "onsite"]%string
    /\ (s = EmptyString ->
        n = mkNormalizedLocation None None "onsite" "Not specified")
    /\ (s <> EmptyString -> raw n = s)
    /\ (location_type n = "remote"%string <->
        s <> EmptyString /\ any_in REMOTE_KEYWORDS (strip (lower s)) = true)
    /\ (location_type n = "remote"%string -> city n = None /\ country n = None).
Proof.
  intros s n. unfold n, normalize_location.
  destruct s as [|c s].
  - simpl. intuition (try discriminate; try congruence).
  - cbn [nonempty negb]. cbn iota.
    destruct (any_in REMOTE_KEYWORDS (strip (lower (String c s)))) eqn:Er.
    + simpl. intuition (try discriminate; try congruence).
    + destruct (_parse_city_country (String c s)) as [ci co].
      destruct (any_in HYBRID_KEYWORDS (strip (lower (String c s)))); simpl;
        intuition (try discriminate; try congruence).
Qed.

(** X2: [_parse_city_country] always returns a city: [split] never gives
    an empty list, so the branch for zero parts is never taken.  It returns
    a country exactly when the string has a comma; a string without a comma
    is a city only, replaced by its canonical name when its lower case is a
    city alias. *)
Theorem parse_city_country_parts :
  forall s,
    (exists c, fst (_parse_city_country s) = Some c)
    /\ (snd (_parse_city_country s) = None <-> has_comma s = false)
    /\ (has_comma s = false ->
        _parse_city_country s
        = (Some (default (strip s) (CITY_ALIASES !! lower (strip s))), None)).
Proof.
  intros s. split; [apply parse_city_country_city|].
  split; [apply parse_city_country_country|].
  intros H. pose proof H as Hc.
  apply parts_one_iff_no_comma in Hc. destruct Hc as [p Hp].
  assert (Hs : strip s = p).
  { unfold has_comma in H.
    rewrite contains_char_count, negb_false_iff, Nat.eqb_eq in H.
    rewrite (split_no_sep _ _ H) in Hp. simpl in Hp. congruence. }
  unfold _parse_city_country. rewrite Hp, Hs.
  destruct (CITY_ALIASES !! lower p); reflexivity.
Qed.

Lemma country_values k v :
  COUNTRY_MAPPINGS !! k = Some v ->
  In v ["USA"; "Canada"; "United Kingdom"; "Germany"; "France"; "India";
        "UAE"; "Singapore"; "Australia"]%string.
Proof.
  unfold COUNTRY_MAPPINGS. intros H. apply elem_of_list_to_map_2 in H.
  apply list_elem_of_In in H. simpl in H.
  repeat (destruct H as [[= <- <-]|H]; [simpl; tauto|]). destruct H.
Qed.

Lemma lower_char_ascii c :
  (N_of_ascii c <? 128)%N = true -> (N_of_ascii (lower_char c) <? 128)%N = true.
Proof.
  destruct c as [[] [] [] [] [] [] [] []]; intros H;
    first [discriminate H | reflexivity].
Qed.

Lemma upper_char_ascii c :
  (N_of_ascii c <? 128)%N = true -> (N_of_ascii (upper_char c) <? 128)%N = true.
Proof.
  destruct c as [[] [] [] [] [] [] [] []]; intros H;
    first [discriminate H | reflexivity].
Qed.

Lemma title_from_ascii s :
  forall prev_cased, isascii s = true -> isascii (title_from prev_cased s) = true.
Proof.
  induction s as [|c s IH]; intros prev_cased H; [reflexivity|].
  cbn [isascii title_from] in *. apply andb_true_iff in H.
  destruct H as [Hc Hs]. apply andb_true_iff. split; [|apply IH, Hs].
  destruct prev_cased; [apply lower_char_ascii | apply upper_char_ascii];
    exact Hc.
Qed.

(** X3: on a country written in ASCII, [_normalize_country] gives a name
    written in ASCII, is idempotent, and does not depend on the letter
    case of its argument: normalizing a normalized country, or the
    lower-cased spelling of a country, gives the same name.  (Off ASCII
    Python's [title] and [lower] do not commute, and the law fails.) *)
Theorem normalize_country_idempotent :
  forall s,
    isascii s = true ->
    isascii (_normalize_country s) = true
    /\ _normalize_country (_normalize_country s) = _normalize_country s
    /\ _normalize_country (lower s) = _normalize_country s.
Proof.
  intros s Hascii. split; [|split].
  - destruct (COUNTRY_MAPPINGS !! strip (lower s)) as [v|] eqn:E.
    + assert (Hs : _normalize_country s = v)
        by (unfold _normalize_country; rewrite E; reflexivity).
      rewrite Hs. apply country_values in E. simpl in E.
      repeat (destruct E as [<-|E]; [reflexivity|]). destruct E.
    + assert (Hs : _normalize_country s = title s)
        by (unfold _normalize_country; rewrite E; reflexivity).
      rewrite Hs. apply title_from_ascii, Hascii.
  - destruct (COUNTRY_MAPPINGS !! strip (lower s)) as [v|] eqn:E.
    + assert (Hs : _normalize_country s = v)
        by (unfold _normalize_country; rewrite E; reflexivity).
      rewrite Hs. apply country_values in E. simpl in E.
      repeat (destruct E as [<-|E]; [vm_compute; reflexivity|]). destruct E.
    + assert (Hs : _normalize_country s = title s)
        by (unfold _normalize_country; rewrite E; reflexivity).
      rewrite Hs. unfold _normalize_country, title.
      rewrite lower_title_from, E. simpl. apply title_from_idem.
  - unfold _normalize_country, title.
    rewrite lower_idem, title_from_lower. reflexivity.
Qed.

(** X3, witness: 'new zealand', which the table does not hold, and
    'united states', which it does. *)
Lemma normalize_country_idempotent_new_zealand :
  (_normalize_country "new zealand" = "New Zealand"%string
   /\ _normalize_country (_normalize_country "new zealand")
      = _normalize_country "new zealand")
  /\ (_normalize_country "united states" = "USA"%string
      /\ _normalize_country (_normalize_country "united states")
         = _normalize_country "united states").
Proof.
  split.
  - split; [vm_compute; reflexivity|].
    exact (proj1 (proj2 (normalize_country_idempotent "new zealand" eq_refl))).
  - split; [vm_compute; reflexivity|].
    exact (proj1 (proj2 (normalize_country_idempotent "united states" eq_refl))).
Defined.

(** *** The score under changes of the preferences *)

(** X4: opening up never lowers the location score: with
    [open_to_relocation] the score is at least what it is without, and with
    [open_to_international] at least what it is without; and without
    [open_to_relocation] the flag [open_to_international] changes nothing. *)
Theorem score_location_match_flags :
  forall job prefs reloc intl ro,
    score_location_match job prefs false intl ro
    <= score_location_match job prefs true intl ro
    /\ score_location_match job prefs reloc false ro
       <= score_location_match job prefs reloc true ro
    /\ score_location_match job prefs false intl ro
       = score_location_match job prefs false (negb intl) ro.
Proof.
  intros job prefs reloc intl ro. rewrite !score_location_match_cascade.
  unfold Spec.cascade.
  destruct (location_type job =? "remote")%string;
    [repeat split; apply Qle_refl|].
  destruct ro; [repeat split; apply Qle_refl|].
  destruct prefs as [|p0 prefs]; [repeat split; apply Qle_refl|].
  remember (map normalize_location (p0 :: prefs)) as nps eqn:Hn. clear Hn.
  destruct (omap (Spec.comparison job) nps) as [|v scores];
    [|repeat split; apply Qle_refl].
  unfold Spec.no_match_guarded.
  destruct (existsb (Spec.shares_country job) nps), reloc, intl;
    repeat split; try discriminate; try reflexivity.
Qed.

Lemma pymax_hit_comm b x y :
  b = 0.0 \/ hit b -> hit x -> hit y ->
  pymax (pymax b x) y = pymax (pymax b y) x.
Proof.
  unfold hit. intros [->|[->| ->]] [->| ->] [->| ->]; vm_compute; reflexivity.
Qed.

Lemma fold_pymax_perm l l' :
  Permutation l l' -> Forall hit l ->
  forall b, b = 0.0 \/ hit b -> fold_left pymax l b = fold_left pymax l' b.
Proof.
  induction 1 as [|x l l' Hp IH|x y l|l l' l'' Hp1 IH1 Hp2 IH2];
    intros Hh b Hb; simpl.
  - reflexivity.
  - apply Forall_cons in Hh. destruct Hh as [Hx Hl].
    apply IH; [exact Hl | right; apply pymax_hit; assumption].
  - apply Forall_cons in Hh. destruct Hh as [Hy Hh].
    apply Forall_cons in Hh. destruct Hh as [Hx Hl].
    rewrite pymax_hit_comm by assumption. reflexivity.
  - rewrite IH1 by assumption. apply IH2; [|exact Hb].
    eapply Permutation_Forall; eassumption.
Qed.

Lemma existsb_perm {A : Type} (f : A -> bool) l l' :
  Permutation l l' -> existsb f l = existsb f l'.
Proof.
  intros Hp. apply eq_true_iff_eq. rewrite !existsb_exists.
  split; intros (x & Hx & Hf); exists x; split; try exact Hf.
  - eapply Permutation_in; eassumption.
  - eapply Permutation_in; [symmetry|]; eassumption.
Qed.

(** X5: the location score does not depend on the order of the preferred
    locations. *)
Theorem score_location_match_permutation :
  forall job prefs prefs' reloc intl ro,
    Permutation prefs prefs' ->
    score_location_match job prefs reloc intl ro
    = score_location_match job prefs' reloc intl ro.
Proof.
  intros job prefs prefs' reloc intl ro Hp.
  rewrite !score_location_match_cascade. unfold Spec.cascade.
  destruct (location_type job =? "remote")%string; [reflexivity|].
  destruct ro; [reflexivity|].
  assert (Hn : Permutation (map normalize_location prefs)
                           (map normalize_location prefs'))
    by (apply Permutation_map, Hp).
  assert (Ho : Permutation
                 (omap (Spec.comparison job) (map normalize_location prefs))
                 (omap (Spec.comparison job) (map normalize_location prefs')))
    by (apply omap_Permutation, Hn).
  destruct prefs as [|p0 prefs]; destruct prefs' as [|q0 prefs'];
    [reflexivity
    | apply Permutation_nil_cons in Hp; destruct Hp
    | symmetry in Hp; apply Permutation_nil_cons in Hp; destruct Hp |].
  remember (map normalize_location (p0 :: prefs)) as nps eqn:E1. clear E1.
  remember (map normalize_location (q0 :: prefs')) as nqs eqn:E2. clear E2.
  pose proof (omap_comparison_hits job nps) as Hh.
  destruct (omap (Spec.comparison job) nps) as [|v scores];
    destruct (omap (Spec.comparison job) nqs) as [|w scores'];
    [ | apply Permutation_nil_cons in Ho; destruct Ho
      | symmetry in Ho; apply Permutation_nil_cons in Ho; destruct Ho | ].
  - unfold Spec.no_match_guarded.
    rewrite (existsb_perm _ _ _ Hn). reflexivity.
  - unfold Spec.best. apply fold_pymax_perm; auto.
Qed.

(** X5, witness: two preferences in either order. *)
Lemma score_location_match_permutation_two :
  Permutation ["Pune"; "Delhi, India"]%string ["Delhi, India"; "Pune"]%string
  /\ score_location_match Inputs.delhi ["Pune"; "Delhi, India"]%string
       false false false
     = score_location_match Inputs.delhi ["Delhi, India"; "Pune"]%string
         false false false.
Proof.
  assert (H : Permutation ["Pune"; "Delhi, India"]%string
                          ["Delhi, India"; "Pune"]%string)
    by apply perm_swap.
  split; [exact H|].
  exact (score_location_match_permutation Inputs.delhi _ _ false false false H).
Defined.

(** *** The rule behind each value *)

Lemma same_ci_truthy a b : same_ci a b = true -> truthy a = true.
Proof.
  destruct a as [x|], b as [y|]; simpl; try discriminate.
  destruct (nonempty x); [reflexivity | discriminate].
Qed.

Lemma normalize_location_country_comma p c :
  country (normalize_location p) = Some c -> has_comma p = true.
Proof.
  unfold normalize_location.
  destruct (negb (nonempty p)); [discriminate|].
  destruct (any_in REMOTE_KEYWORDS (strip (lower p))); [discriminate|].
  destruct (_parse_city_country p) as [ci co] eqn:E. simpl. intros ->.
  destruct (has_comma p) eqn:Hc; [reflexivity|].
  apply parse_city_country_country in Hc. rewrite E in Hc. discriminate.
Qed.

(** The five ways through [score_location_match]. *)
Lemma score_location_match_ways job prefs reloc intl ro :
  let s := score_location_match job prefs reloc intl ro in
  (location_type job = "remote"%string /\ s = 1.0)
  \/ (location_type job <> "remote"%string /\ ro = true /\ s = 0.2)
  \/ (location_type job <> "remote"%string /\ ro = false /\ prefs = []
      /\ s = 0.5)
  \/ (location_type job <> "remote"%string /\ ro = false /\ hit s
      /\ exists p, In p prefs
           /\ Spec.comparison job (normalize_location p) = Some s)
  \/ (location_type job <> "remote"%string /\ ro = false /\ prefs <> []
      /\ s = if reloc then if intl then 0.4 else 0.1 else 0.0).
Proof.
  intros s. unfold s. rewrite score_location_match_cascade. unfold Spec.cascade.
  destruct (String.eqb_spec (location_type job) "remote") as [Hr|Hr];
    [left; auto|].
  destruct ro; [right; left; auto|].
  destruct prefs as [|p0 prefs]; [right; right; left; auto|].
  pose proof (omap_comparison_hits job (map normalize_location (p0 :: prefs)))
    as Hh.
  destruct (omap (Spec.comparison job) (map normalize_location (p0 :: prefs)))
    as [|v scores] eqn:E.
  - right; right; right; right.
    split; [exact Hr|]. split; [reflexivity|]. split; [discriminate|].
    unfold Spec.no_match_guarded.
    rewrite (no_match_no_shared_country _ _ E). reflexivity.
  - right; right; right; left.
    split; [exact Hr|]. split; [reflexivity|]. split; [apply best_hit, Hh|].
    destruct (best_is_maximum (v :: scores) Hh) as [Hin _]; [discriminate|].
    rewrite <- E in Hin at 2.
    apply list_elem_of_In, list_elem_of_omap in Hin.
    destruct Hin as (np & Hnp & Hc).
    apply list_elem_of_In, in_map_iff in Hnp. destruct Hnp as (p & <- & Hp).
    exists p. split; [exact Hp | exact Hc].
Qed.

(** X6: each value of the location score tells the rule that gave it.
    0.2 is given exactly to a non-remote job under [remote_only]; 0.5
    exactly to a non-remote job when no location is preferred, so never by
    the relocation rule; 0.7 only when the job has a country and a
    preference, written with a comma, normalizes to that country; 1.0 only
    to a remote job or a job whose city is the city of a preference; 0.0
    only without [open_to_relocation]; 0.4 and 0.1 only with it. *)
Theorem score_location_match_value_rule :
  forall job prefs reloc intl ro,
    let s := score_location_match job prefs reloc intl ro in
    (s = 0.2 <-> location_type job <> "remote"%string /\ ro = true)
    /\ (s = 0.5 <->
        location_type job <> "remote"%string /\ ro = false /\ prefs = [])
    /\ (s = 0.7 ->
        truthy (country job) = true
        /\ exists p, In p prefs /\ has_comma p = true
             /\ Spec.shares_country job (normalize_location p) = true)
    /\ (s = 1.0 ->
        location_type job = "remote"%string
        \/ truthy (city job) = true
           /\ exists p, In p prefs
                /\ same_ci (city job) (city (normalize_location p)) = true)
    /\ (s = 0.0 -> reloc = false)
    /\ (s = 0.4 -> reloc = true /\ intl = true)
    /\ (s = 0.1 -> reloc = true /\ intl = false).
Proof.
  intros job prefs reloc intl ro s.
  pose proof (score_location_match_ways job prefs reloc intl ro) as Hw.
  cbv zeta in Hw. fold s in Hw.
  destruct Hw as [[Hr Hs]|[(Hr & Hro & Hs)|[(Hr & Hro & Hp & Hs)
                 |[(Hr & Hro & Hh & p & Hp & Hc)|(Hr & Hro & Hp & Hs)]]]].
  - rewrite Hs. repeat split; try discriminate; try tauto;
      solve [intuition congruence].
  - rewrite Hs. repeat split; try discriminate; try tauto;
      solve [intuition congruence].
  - rewrite Hs. repeat split; try discriminate; try tauto;
      solve [intuition congruence].
  - assert (Hne : prefs <> []) by (intros ->; destruct Hp).
    unfold Spec.comparison in Hc.
    destruct (same_ci (city job) (city (normalize_location p))) eqn:Eci.
    + injection Hc as Hc. rewrite <- Hc.
      repeat split; try discriminate; try solve [intuition congruence].
      intros _. right. split; [eapply same_ci_truthy, Eci|].
      exists p. auto.
    + destruct (same_ci (country job) (country (normalize_location p))) eqn:Eco;
        [|discriminate].
      injection Hc as Hc. rewrite <- Hc.
      assert (Hcomma : has_comma p = true).
      { destruct (country (normalize_location p)) as [c|] eqn:Ec.
        - eapply normalize_location_country_comma, Ec.
        - destruct (country job); discriminate. }
      repeat split; try discriminate; try solve [intuition congruence].
      * eapply same_ci_truthy, Eco.
      * exists p. auto.
  - rewrite Hs. destruct reloc, intl;
      repeat split; try discriminate; try tauto;
      solve [intuition congruence].
Qed.

End LocationMore.

(** ** Further properties of the matcher *)

Module MatcherMore.
Import PyStr Score Location JobNormalizer Schemas Matcher Spec Relations.
Import PyStrFacts LocationFacts MatcherFacts.

Lemma seniority_level_cases sen :
  In (default 2%Z (seniority_levels !! sen)) [1; 2; 3; 4; 5]%Z.
Proof.
  destruct (seniority_levels !! sen) as [v|] eqn:E; simpl; [|tauto].
  unfold seniority_levels in E. apply elem_of_list_to_map_2 in E.
  apply list_elem_of_In in E. simpl in E.
  repeat (destruct E as [[= <- <-]|E]; [tauto|]). destruct E.
Qed.

Lemma job_level_cases t :
  In (if any_in ["junior"; "entry"; "associate"]%string t then 1
      else if any_in ["senior"; "sr"]%string t then 3
      else if any_in ["lead"; "staff"; "principal"]%string t then 4
      else 2)%Z [1; 2; 3; 4]%Z.
Proof.
  destruct (any_in ["junior"; "entry"; "associate"]%string t); [simpl; tauto|].
  destruct (any_in ["senior"; "sr"]%string t); [simpl; tauto|].
  destruct (any_in ["lead"; "staff"; "principal"]%string t); simpl; tauto.
Qed.

Lemma career_fit_values user_seniority user_role job_title :
  In (_calculate_career_fit user_seniority user_role job_title)
     [0.7; 0.9; 0.4; 0.6; 0.2].
Proof.
  unfold _calculate_career_fit.
  pose proof (seniority_level_cases user_seniority) as Hl.
  pose proof (job_level_cases (lower job_title)) as Hj.
  match type of Hj with In ?e _ => set (jl := e) in *; clearbody jl end.
  match type of Hl with In ?e _ => set (ul := e) in *; clearbody ul end.
  simpl in Hl, Hj.
  destruct Hl as [<-|[<-|[<-|[<-|[<-|[]]]]]];
    destruct Hj as [<-|[<-|[<-|[<-|[]]]]]; simpl; tauto.
Qed.

(** X7: career fit is one of the five table values 0.7, 0.9, 0.4, 0.6,
    0.2.  It does not depend on the user's role, nor on the letter case of
    the job title, and a seniority that is not one of the five labels counts
    as 'mid'.  A title is never read as level 5, so a 'principal' user
    never scores above 0.4; a 'junior' user never gets a downgrade score. *)
Theorem career_fit_table :
  forall user_seniority user_role job_title,
    let fit := _calculate_career_fit in
    In (fit user_seniority user_role job_title) [0.7; 0.9; 0.4; 0.6; 0.2]
    /\ (forall other_role,
          fit user_seniority other_role job_title
          = fit user_seniority user_role job_title)
    /\ fit user_seniority user_role (lower job_title)
       = fit user_seniority user_role job_title
    /\ (seniority_levels !! user_seniority = None ->
        fit user_seniority user_role job_title = fit "mid" user_role job_title)
    /\ In (fit "principal" user_role job_title) [0.4; 0.2]
    /\ In (fit "junior" user_role job_title) [0.7; 0.9; 0.6].
Proof.
  intros sen role t fit. unfold fit.
  split; [apply career_fit_values|].
  split; [reflexivity|].
  split; [unfold _calculate_career_fit; rewrite lower_idem; reflexivity|].
  split; [intros H; unfold _calculate_career_fit; rewrite H; reflexivity|].
  unfold _calculate_career_fit.
  change (seniority_levels !! "principal"%string) with (Some 5%Z).
  change (seniority_levels !! "junior"%string) with (Some 1%Z).
  pose proof (job_level_cases (lower t)) as Hj.
  match type of Hj with In ?e _ => set (jl := e) in *; clearbody jl end.
  simpl in Hj.
  split; destruct Hj as [<-|[<-|[<-|[<-|[]]]]]; simpl; tauto.
Qed.

Lemma business_role_keywords role :
  in_list role BUSINESS_ROLES = true ->
  exists kw kws, role_keywords !! role = Some (kw :: kws).
Proof.
  intros H. apply in_list_In in H. simpl in H.
  repeat (destruct H as [<-|H]; [eexists; eexists; vm_compute; reflexivity|]).
  destruct H.
Qed.

Lemma domain_fit_cases user_role job_title job_description :
  let fit := _calculate_domain_fit user_role job_title job_description in
  in_list user_role BUSINESS_ROLES = true /\ In fit [1.0; 0.7; 0.3]
  \/ in_list user_role BUSINESS_ROLES = false /\ fit = 0.5.
Proof.
  intros fit. destruct (in_list user_role BUSINESS_ROLES) eqn:Hb.
  - left. split; [reflexivity|].
    destruct (business_role_keywords user_role Hb) as (kw & kws & Hk).
    unfold fit, _calculate_domain_fit. rewrite Hk. cbn [default from_option id].
    destruct (2 <=? _)%nat; [simpl; tauto|].
    destruct (_ =? 1)%nat; simpl; tauto.
  - right. split; [reflexivity | apply domain_fit_other_role, Hb].
Qed.

Lemma domain_fit_in_values user_role job_title job_description :
  In (_calculate_domain_fit user_role job_title job_description)
     [1.0; 0.7; 0.3; 0.5].
Proof.
  destruct (domain_fit_cases user_role job_title job_description)
    as [[_ H]|[_ H]]; [simpl in *; tauto | rewrite H; simpl; tauto].
Qed.

(** X8: domain fit is one of 1.0, 0.7, 0.3, 0.5, and it is the neutral 0.5
    exactly for a user role that is not one of the seven business roles;
    it does not depend on the letter case of the title and description. *)
Theorem domain_fit_values :
  forall user_role job_title job_description,
    let fit := _calculate_domain_fit user_role job_title job_description in
    In fit [1.0; 0.7; 0.3; 0.5]
    /\ (fit = 0.5 <-> in_list user_role BUSINESS_ROLES = false)
    /\ _calculate_domain_fit user_role (lower job_title) (lower job_description)
       = fit.
Proof.
  intros role t d fit.
  split; [apply domain_fit_in_values|]. split.
  - destruct (domain_fit_cases role t d) as [[Hb Hv]|[Hb Hv]]; fold fit in Hv.
    + split; [|congruence]. intros E. rewrite E in Hv. simpl in Hv.
      destruct Hv as [H|[H|[H|[]]]]; discriminate.
    + tauto.
  - unfold fit, _calculate_domain_fit. rewrite !lower_app, !lower_idem.
    reflexivity.
Qed.

Lemma skill_similarity_range user_skills job_skills :
  0 <= _calculate_skill_similarity user_skills job_skills /\
  _calculate_skill_similarity user_skills job_skills <= 1.
Proof.
  unfold _calculate_skill_similarity.
  destruct user_skills as [|u us]; [split; discriminate|].
  destruct job_skills as [|j js]; [split; discriminate|].
  set (a := lower_set (u :: us)). set (b := lower_set (j :: js)).
  assert (Ha : a <> ∅) by apply lower_set_nonempty.
  destruct (size (a ∪ b) =? 0)%nat; [split; discriminate|].
  pose proof (jaccard_bounds a b Ha) as [H0 H1]. unfold jaccard in H0, H1.
  destruct (5 <=? size (a ∩ b))%nat; [|split; assumption].
  rewrite pymin_clamp. unfold clamp.
  match goal with |- context [Qle_bool 1.0 ?x] =>
    destruct (Qle_bool 1.0 x) eqn:E; [split; discriminate|];
    assert (Hx : x < 1.0)
      by (apply Qnot_le_lt; intros Hle; apply Qle_bool_iff in Hle; congruence)
  end.
  split; [|apply Qlt_le_weak; eapply Qlt_le_trans; [exact Hx | discriminate]].
  apply Qmult_le_0_compat; [exact H0 | discriminate].
Qed.

Lemma in_values_range v l :
  In v l -> Forall (fun x => 0 <= x /\ x <= 1) l -> 0 <= v /\ v <= 1.
Proof. intros Hin Hall. rewrite List.Forall_forall in Hall. apply Hall, Hin. Qed.

(** X9: every score of a match built by [_score_job] lies in [0, 1]: the
    location, skill and career scores, the domain fit that enters the total,
    and the total itself, whose weights add up to 1 for either kind of
    role. *)
Theorem score_job_range :
  forall job profile preferences,
    let m := _score_job job profile preferences in
    (0 <= location_score m /\ location_score m <= 1)
    /\ (0 <= skill_score m /\ skill_score m <= 1)
    /\ (0 <= career_score m /\ career_score m <= 1)
    /\ (0 <= total_score m /\ total_score m <= 1).
Proof.
  intros j profile preferences m.
  assert (Hl : 0 <= location_score m /\ location_score m <= 1).
  { eapply in_values_range; [apply score_location_match_values|].
    repeat constructor; discriminate. }
  assert (Hs : 0 <= skill_score m /\ skill_score m <= 1)
    by apply skill_similarity_range.
  assert (Hc : 0 <= career_score m /\ career_score m <= 1).
  { eapply in_values_range;
      [apply (career_fit_values (seniority profile) (primary_role profile)
                (title j))|].
    repeat constructor; discriminate. }
  assert (Hd : 0 <= _calculate_domain_fit (primary_role profile) (title j)
                      (description j)
               /\ _calculate_domain_fit (primary_role profile) (title j)
                    (description j) <= 1).
  { eapply in_values_range; [apply domain_fit_in_values|].
    repeat constructor; discriminate. }
  split; [exact Hl|]. split; [exact Hs|]. split; [exact Hc|].
  unfold m, _score_job in *. cbn [total_score location_score skill_score career_score] in *.
  destruct (in_list (primary_role profile) BUSINESS_ROLES); lra.
Qed.

(** *** Remote jobs *)







(** *** The jobs of the output *)

Lemma sublist_map {A B : Type} (f : A -> B) l1 l2 :
  l1 `sublist_of` l2 -> map f l1 `sublist_of` map f l2.
Proof.
  induction 1; simpl; [constructor | apply sublist_skip | apply sublist_cons];
    assumption.
Qed.

Lemma map_job_score profile preferences jobs :
  map job (map (fun j => _score_job j profile preferences) jobs) = jobs.
Proof.
  induction jobs as [|j jobs IH]; simpl; [reflexivity|]. rewrite IH. reflexivity.
Qed.

Lemma match_jobs_submseteq jobs profile preferences max_results :
  map job (match_jobs jobs profile preferences max_results) ⊆+ jobs.
Proof.
  unfold match_jobs.
  set (score := fun j => _score_job j profile preferences).
  set (passed := List.filter (fun m => ge (total_score m) 0.3)
                   (map score (_apply_hard_filters jobs preferences))).
  destruct (slice_to_firstn max_results (sort_by_total_desc passed)) as [k ->].
  transitivity (map job (sort_by_total_desc passed)).
  { apply sublist_submseteq, sublist_map, sublist_take. }
  transitivity (map job passed).
  { apply Permutation_submseteq, Permutation_map, sort_perm. }
  transitivity (map job (map score (_apply_hard_filters jobs preferences))).
  { apply sublist_submseteq, sublist_map, filter_sublist. }
  unfold score. rewrite map_job_score.
  apply sublist_submseteq, filter_sublist.
Qed.

Lemma submseteq_map_nodup {A B : Type} (f : A -> B) (l1 l2 : list A) :
  l1 ⊆+ l2 -> NoDup (map f l2) -> NoDup (map f l1).
Proof.
  intros Hs Hnd. apply submseteq_Permutation in Hs. destruct Hs as [k Hk].
  assert (Hp : Permutation (map f l2) (map f l1 ++ map f k)).
  { rewrite <- map_app. apply Permutation_map, Hk. }
  rewrite Hp in Hnd. apply NoDup_app in Hnd. apply Hnd.
Qed.

(** X11: [match_jobs] neither invents nor repeats a job: the jobs of its
    output, counted with multiplicity, are among the jobs of its input.  So
    when no id occurs twice in the input, none occurs twice in the output;
    this is the case for the output of [deduplicate_jobs]. *)
Theorem match_jobs_jobs_of_input :
  forall jobs profile preferences max_results,
    map job (match_jobs jobs profile preferences max_results) ⊆+ jobs
    /\ (NoDup (map id jobs) ->
        NoDup (map id (map job
                 (match_jobs jobs profile preferences max_results))))
    /\ NoDup (map id (map job
                (match_jobs (deduplicate_jobs jobs) profile preferences
                   max_results))).
Proof.
  intros jobs profile preferences n.
  split; [apply match_jobs_submseteq|]. split.
  - apply submseteq_map_nodup, match_jobs_submseteq.
  - eapply submseteq_map_nodup; [apply match_jobs_submseteq|].
    rewrite NormalizerFacts.deduplicate_jobs_keep_unseen.
    apply NormalizerFacts.keep_unseen_nodup.
Qed.

Lemma firstn_prefix_le {A : Type} (a b : nat) (l : list A) :
  (a <= b)%nat -> firstn a l `prefix_of` firstn b l.
Proof.
  revert b l. induction a as [|a IH]; intros b l Hab; [apply prefix_nil|].
  destruct b as [|b]; [lia|]. destruct l as [|x l]; simpl; [reflexivity|].
  apply prefix_cons, IH. lia.
Qed.

(** X12: asking for more results only extends the list: for
    0 <= n <= n' the output for [max_results = n] is a prefix of the output
    for [max_results = n'], so the ranking of the first matches does not
    depend on how many are asked for. *)
Theorem match_jobs_prefix :
  forall jobs profile preferences n n',
    (0 <= n <= n')%Z ->
    match_jobs jobs profile preferences n
    `prefix_of` match_jobs jobs profile preferences n'.
Proof.
  intros jobs profile preferences n n' [Hn Hnn]. unfold match_jobs, slice_to.
  destruct (Z.leb_spec 0 n); [|lia]. destruct (Z.leb_spec 0 n'); [|lia].
  apply firstn_prefix_le. lia.
Qed.

(** X12, witness: one result and two results for the two remote jobs. *)
Lemma match_jobs_prefix_one_two :
  (0 <= 1 <= 2)%Z
  /\ match_jobs Inputs.two_remote_jobs Inputs.engineer Inputs.no_preferences 1
     `prefix_of`
     match_jobs Inputs.two_remote_jobs Inputs.engineer Inputs.no_preferences 2.
Proof.
  assert (H : (0 <= 1 <= 2)%Z) by lia.
  split; [exact H|].
  exact (match_jobs_prefix Inputs.two_remote_jobs Inputs.engineer
           Inputs.no_preferences 1 2 H).
Defined.

End MatcherMore.

(** ** Further properties of skill extraction and job normalization *)

Module NormalizerMore.
Import PyStr Exn Location Extractor JobNormalizer Spec Relations.
Import PyStrFacts LocationMore NormalizerFacts.


Lemma entity_skill_some ent s :
  entity_skill ent = Some s <->
  In (snd ent) ENTITY_LABELS /\ lower (fst ent) = s /\ s ∈ ALL_SKILLS.
Proof.
  unfold entity_skill. remember ALL_SKILLS as dict eqn:Hd. clear Hd.
  destruct (existsb (String.eqb (snd ent)) ENTITY_LABELS) eqn:El.
  - apply existsb_exists in El. destruct El as (l & Hl & E).
    apply String.eqb_eq in E. subst l.
    destruct (decide (lower (fst ent) ∈ dict)) as [Hin|Hin].
    + rewrite bool_decide_eq_true_2 by exact Hin.
      split; [intros [= <-]; auto | intros (_ & -> & _); reflexivity].
    + rewrite bool_decide_eq_false_2 by exact Hin.
      split; [discriminate | intros (_ & <- & H); contradiction].
  - split; [discriminate|]. intros (Hl & _). exfalso.
    assert (H : existsb (String.eqb (snd ent)) ENTITY_LABELS = true).
    { apply existsb_exists. exists (snd ent). split; [exact Hl|].
      apply String.eqb_refl. }
    congruence.
Qed.

(** The members of the set that [extract_skills] sorts. *)
Lemma found_skills_members (dict : gset string) text_lower
    (ents : list (string * string)) (f : string * string -> option string) s :
  s ∈ filter (fun skill => word_search skill text_lower = true) dict
      ∪ list_to_set (omap f ents)
  <-> (s ∈ dict /\ word_search s text_lower = true)
      \/ exists ent, In ent ents /\ f ent = Some s.
Proof.
  rewrite elem_of_union, elem_of_filter, elem_of_list_to_set, list_elem_of_omap.
  split.
  - intros [[H1 H2]|(ent & Hent & Hs)]; [auto|].
    right. exists ent. rewrite <- list_elem_of_In. auto.
  - intros [[H1 H2]|(ent & Hent & Hs)]; [auto|].
    right. exists ent. rewrite list_elem_of_In. auto.
Qed.

Lemma Ok_inj {A : Type} (a b : A) : Ok a = Ok b -> a = b.
Proof. intros [= H]. exact H. Qed.

(** [extract_skills], case by case. *)
Lemma extract_skills_eq nlp text :
  extract_skills nlp text
  = match nlp with
    | Some pipeline =>
        match pipeline text with
        | Ok ents =>
            Ok (sorted (filter (fun skill => word_search skill (lower text) = true)
                          ALL_SKILLS
                        ∪ list_to_set (omap entity_skill ents)))
        | Raise e => Raise e
        end
    | None =>
        Ok (sorted (filter (fun skill => word_search skill (lower text) = true)
                      ALL_SKILLS))
    end.
Proof.
  unfold extract_skills. destruct nlp as [pipeline|];
    [destruct (pipeline text)|]; reflexivity.
Qed.

(** What [extract_skills] returns when it returns. *)
Lemma extract_skills_ok nlp text skills :
  extract_skills nlp text = Ok skills ->
  ascending skills
  /\ forall s, In s skills <->
       s ∈ ALL_SKILLS
       /\ (word_search s (lower text) = true
           \/ exists pipeline ents ent,
                nlp = Some pipeline /\ pipeline text = Ok ents /\ In ent ents
                /\ In (snd ent) ENTITY_LABELS /\ lower (fst ent) = s).
Proof.
  rewrite extract_skills_eq.
  destruct nlp as [pipeline|].
  - destruct (pipeline text) as [ents|e] eqn:Ep; [|discriminate].
    intros H. apply Ok_inj in H. subst skills.
    split; [apply sorted_ascending|].
    intros s. rewrite In_sorted, found_skills_members. split.
    + intros [[H1 H2]|(ent & Hent & Hs)]; [auto|].
      apply entity_skill_some in Hs. destruct Hs as (Hl & Hlow & Hin).
      split; [exact Hin|]. right. exists pipeline, ents, ent. auto 6.
    + intros [Hin [Hw|(f & es & ent & Hf & Hes & Hent & Hl & Hlow)]];
        [auto|].
      right. exists ent. apply (f_equal (fun o => default pipeline o)) in Hf.
      simpl in Hf. subst f. rewrite Ep in Hes. apply Ok_inj in Hes. subst es.
      split; [exact Hent|]. apply entity_skill_some. auto.
  - intros H. apply Ok_inj in H. subst skills.
    split; [apply sorted_ascending|].
    intros s. rewrite In_sorted, elem_of_filter.
    split; [intros [H1 H2]; auto|].
    intros [H1 [H2|(f & es & ent & Hf & _)]]; [auto | discriminate].
Qed.


(** X14: with a spaCy pipeline, an exception of the pipeline is an
    exception of [extract_skills] (nothing catches it); when the pipeline
    answers, the result is ascending, holds dictionary skills only, and
    holds every skill found without the pipeline: the entities can only add
    skills, namely the dictionary skills that are the lower-cased text of an
    entity labelled ORG, PRODUCT, WORK_OF_ART or LANGUAGE. *)
Theorem extract_skills_pipeline :
  forall pipeline text,
    (forall e, pipeline text = Raise e ->
               extract_skills (Some pipeline) text = Raise e)
    /\ (forall ents, pipeline text = Ok ents ->
        exists without skills,
          extract_skills None text = Ok without
          /\ extract_skills (Some pipeline) text = Ok skills
          /\ ascending skills
          /\ (forall s, In s skills <->
                In s without
                \/ s ∈ ALL_SKILLS
                   /\ exists ent, In ent ents /\ In (snd ent) ENTITY_LABELS
                        /\ lower (fst ent) = s)).
Proof.
  intros pipeline text. split.
  - intros e He. rewrite extract_skills_eq, He. reflexivity.
  - intros ents Hents.
    exists (sorted (filter (fun skill => word_search skill (lower text) = true)
                      ALL_SKILLS)).
    exists (sorted (filter (fun skill => word_search skill (lower text) = true)
                      ALL_SKILLS
                    ∪ list_to_set (omap entity_skill ents))).
    split; [apply extract_skills_eq|].
    split; [rewrite extract_skills_eq, Hents; reflexivity|].
    split; [apply sorted_ascending|].
    intros s. rewrite !In_sorted, found_skills_members, elem_of_filter.
    split.
    + intros [H|(ent & Hent & Hs)]; [left; tauto|].
      apply entity_skill_some in Hs. destruct Hs as (Hl & Hlow & Hin).
      right. split; [exact Hin|]. exists ent. auto.
    + intros [H|[Hs (ent & Hent & Hl & Hlow)]]; [left; tauto|].
      right. exists ent. split; [exact Hent|]. apply entity_skill_some. auto.
Qed.

(** *** The job id *)

Lemma append_assoc a b c : (a +:+ b) +:+ c = a +:+ (b +:+ c).
Proof.
  induction a as [|x a IH]; [reflexivity|].
  change (String x ((a +:+ b) +:+ c) = String x (a +:+ (b +:+ c))).
  f_equal. exact IH.
Qed.

Lemma take_length_le n s : (String.length (take n s) <= n)%nat.
Proof.
  revert s. induction n as [|n IH]; intros [|c s]; simpl; try lia.
  specialize (IH s). lia.
Qed.

(** X15: the job id has at most 16 characters and depends only on the
    lower-cased string title|company|location: it does not change with the
    letter case of the three fields, and it cannot tell a '|' inside a field
    from the separator, so moving text across the separator keeps the id. *)
Theorem generate_job_id_fields :
  forall md5_hexdigest title company location,
    (String.length (_generate_job_id md5_hexdigest title company location)
     <= 16)%nat
    /\ _generate_job_id md5_hexdigest (lower title) (lower company)
         (lower location)
       = _generate_job_id md5_hexdigest title company location
    /\ (forall x,
          _generate_job_id md5_hexdigest (title +:+ "|" +:+ x) company location
          = _generate_job_id md5_hexdigest title (x +:+ "|" +:+ company) location).
Proof.
  intros md5 t c l. unfold _generate_job_id.
  split; [apply take_length_le|]. split.
  - rewrite !lower_app, !lower_idem. reflexivity.
  - intros x. rewrite !append_assoc. reflexivity.
Qed.

(** The fields of a job that [normalize_job] returned. *)
Lemma normalize_job_some md5_hexdigest nlp raw_job j :
  normalize_job md5_hexdigest nlp raw_job = Some j ->
  let '(t, c, l) := id_fields raw_job in
  id j = _generate_job_id md5_hexdigest t c l
  /\ raw_data j = raw_job
  /\ title j = default "Unknown"%string (raw_title raw_job)
  /\ company j = default "Unknown"%string (raw_company raw_job)
  /\ source j = default "unknown"%string (raw_source raw_job)
  /\ employment_type j = default "full-time"%string (raw_employment_type raw_job)
  /\ exists loc,
       normalize_location_any (default (VStr "") (raw_location_raw raw_job))
       = Ok loc
       /\ location j
          = mkJobLocation (city loc) (country loc) (location_type loc) (raw loc).
Proof.
  unfold normalize_job, normalize_job_try, id_fields.
  destruct (normalize_location_any (default (VStr "") (raw_location_raw raw_job)))
    as [loc|e]; simpl; [|discriminate].
  destruct (extract_skills_any nlp (default (VStr "") (raw_description raw_job)))
    as [skills|e]; simpl; [|discriminate].
  destruct (slice_1000 (default (VStr "") (raw_description raw_job)))
    as [d|e]; simpl; [|discriminate].
  intros [= <-]. simpl. repeat split. exists loc. auto.
Qed.

Lemma normalize_location_any_types v loc :
  normalize_location_any v = Ok loc ->
  In (location_type loc) ["remote"; "hybrid"; "onsite"]%string
  /\ (location_type loc = "remote"%string -> city loc = None /\ country loc = None).
Proof.
  destruct v as [|b|z|s]; simpl.
  - intros [= <-]. simpl. intuition discriminate.
  - destruct b; simpl; [discriminate|]. intros [= <-]. simpl.
    intuition discriminate.
  - destruct (z =? 0)%Z; simpl; [|discriminate]. intros [= <-]. simpl.
    intuition discriminate.
  - intros [= <-]. apply normalize_location_types.
Qed.

(** X16: a job returned by [normalize_job] keeps the whole raw posting as
    [raw_data] and computes its id from the raw title, company and
    location.  It has at most 10 required skills, all from the skill
    dictionary, in strictly ascending order without repetition; its location
    type is 'remote', 'hybrid' or 'onsite', and a remote location has neither
    city nor country. *)
Theorem normalize_job_invariants :
  forall md5_hexdigest nlp raw_job j,
    normalize_job md5_hexdigest nlp raw_job = Some j ->
    raw_data j = raw_job
    /\ id j = (let '(t, c, l) := id_fields raw_job in
               _generate_job_id md5_hexdigest t c l)
    /\ (length (required_skills j) <= 10)%nat
    /\ ascending (required_skills j)
    /\ Forall (fun s => s ∈ ALL_SKILLS) (required_skills j)
    /\ In (loc_type (location j)) ["remote"; "hybrid"; "onsite"]%string
    /\ (loc_type (location j) = "remote"%string ->
        loc_city (location j) = None /\ loc_country (location j) = None).
Proof.
  intros md5 nlp raw j Hj.
  pose proof (normalize_job_some _ _ _ _ Hj) as Hf. unfold id_fields in *.
  destruct Hf as (Hid & Hraw & _ & _ & _ & _ & loc & Hloc & Hlocation).
  pose proof (normalize_job_try_cases md5 nlp raw) as Hc. cbv zeta in Hc.
  unfold normalize_job in Hj.
  destruct (normalize_job_try md5 nlp raw) as [j'|e]; [|discriminate].
  injection Hj as ->.
  destruct Hc as (_ & _ & d & skills & Hd & Hsk & _ & Hreq & _).
  destruct (extract_skills_ok _ _ _ Hsk) as [Hasc Hin].
  split; [exact Hraw|]. split; [exact Hid|]. rewrite Hreq.
  split; [apply firstn_le_length|].
  split; [apply ascending_firstn, Hasc|].
  split.
  - apply Forall_take, List.Forall_forall. intros s Hs. apply Hin in Hs. tauto.
  - rewrite Hlocation. simpl. eapply normalize_location_any_types, Hloc.
Qed.

(** X16, witness: the complete posting of the inputs. *)
Lemma normalize_job_invariants_posting :
  exists j,
    normalize_job plain_digest None Inputs.raw_posting = Some j
    /\ raw_data j = Inputs.raw_posting
    /\ required_skills j = ["aws"; "python"; "sql"]%string
    /\ ascending (required_skills j).
Proof.
  destruct (normalize_job plain_digest None Inputs.raw_posting) as [j|] eqn:E;
    [|vm_compute in E; discriminate].
  exists j. split; [reflexivity|].
  pose proof (normalize_job_invariants plain_digest None Inputs.raw_posting j E)
    as (Hraw & _ & _ & Hasc & _).
  split; [exact Hraw|]. split; [|exact Hasc].
  vm_compute in E. injection E as <-. reflexivity.
Defined.

(** X17: two raw postings whose title, company and location differ in
    letter case only get the same id when both are normalized, and
    [deduplicate_jobs] then keeps the first of the two only. *)
Theorem same_posting_deduplicated :
  forall md5_hexdigest nlp r1 r2 j1 j2,
    normalize_job md5_hexdigest nlp r1 = Some j1 ->
    normalize_job md5_hexdigest nlp r2 = Some j2 ->
    (let '(t1, c1, l1) := id_fields r1 in
     let '(t2, c2, l2) := id_fields r2 in
     lower t1 = lower t2 /\ lower c1 = lower c2 /\ lower l1 = lower l2) ->
    id j1 = id j2 /\ deduplicate_jobs [j1; j2] = [j1].
Proof.
  intros md5 nlp r1 r2 j1 j2 H1 H2 Hf.
  apply normalize_job_some in H1, H2. unfold id_fields in *.
  destruct H1 as (Hid1 & _). destruct H2 as (Hid2 & _).
  destruct Hf as (Ht & Hc & Hl).
  assert (Hid : id j1 = id j2).
  { rewrite Hid1, Hid2. unfold _generate_job_id.
    rewrite !lower_app, Ht, Hc, Hl. reflexivity. }
  split; [exact Hid|].
  unfold deduplicate_jobs. simpl.
  rewrite bool_decide_eq_true_2 by apply not_elem_of_empty. simpl.
  rewrite bool_decide_eq_false_2; [reflexivity|].
  rewrite Hid. intros H. apply H. set_solver.
Qed.

(** X17, witness: the complete posting and the same posting in capitals. *)
Lemma same_posting_deduplicated_shouting :
  exists j1 j2,
    normalize_job plain_digest None Inputs.raw_posting = Some j1
    /\ normalize_job plain_digest None raw_posting_shouting = Some j2
    /\ title j1 <> title j2
    /\ deduplicate_jobs [j1; j2] = [j1].
Proof.
  destruct (normalize_job plain_digest None Inputs.raw_posting) as [j1|] eqn:E1;
    [|vm_compute in E1; discriminate].
  destruct (normalize_job plain_digest None raw_posting_shouting) as [j2|] eqn:E2;
    [|vm_compute in E2; discriminate].
  exists j1, j2. split; [reflexivity|]. split; [reflexivity|].
  assert (Hf : let '(t1, c1, l1) := id_fields Inputs.raw_posting in
               let '(t2, c2, l2) := id_fields raw_posting_shouting in
               lower t1 = lower t2 /\ lower c1 = lower c2 /\ lower l1 = lower l2)
    by (vm_compute; auto).
  destruct (same_posting_deduplicated plain_digest None _ _ j1 j2 E1 E2 Hf)
    as [_ Hd].
  split; [|exact Hd].
  vm_compute in E1, E2. injection E1 as <-. injection E2 as <-. discriminate.
Defined.

(** *** Deduplication once more *)

(** X18: [deduplicate_jobs] returns its input unchanged exactly when no
    id occurs twice in it; it never returns more jobs than it was given, and
    it always keeps the first job of the list. *)
Theorem deduplicate_jobs_unchanged :
  forall jobs,
    (deduplicate_jobs jobs = jobs <-> NoDup (map id jobs))
    /\ (length (deduplicate_jobs jobs) <= length jobs)%nat
    /\ hd_error (deduplicate_jobs jobs) = hd_error jobs.
Proof.
  intros jobs. rewrite deduplicate_jobs_keep_unseen. split; [|split].
  - split.
    + intros E. rewrite <- E. apply keep_unseen_nodup.
    + intros Hnd. apply keep_unseen_fixed; [exact Hnd|].
      intros j _. apply not_elem_of_empty.
  - apply sublist_length, keep_unseen_sublist.
  - destruct jobs as [|j jobs]; simpl; [reflexivity|].
    rewrite bool_decide_eq_true_2 by apply not_elem_of_empty. reflexivity.
Qed.

End NormalizerMore.

(** ** Further properties of the explanation generator *)

Module ExplanationMore.
Import PyStr Score Location JobNormalizer Schemas Matcher Explanations Spec.
Import Relations PyStrFacts LocationFacts MatcherFacts ExplanationFacts.
Import LocationMore MatcherMore.

(** X19: the listed matches are a subsequence of the user's skills and the
    listed gaps a subsequence of the job's skills.  A user skill is a match
    exactly when its lower case is required by the job; a job skill is a gap
    exactly when its lower case is not among the user's; so every skill the
    job requires is either a gap or, up to letter case, a match, and never
    both. *)
Theorem skill_matches_and_gaps :
  forall user_skills job_skills : list string,
    let matches := _find_skill_matches user_skills job_skills in
    let gaps := _find_skill_gaps user_skills job_skills in
    matches `sublist_of` user_skills
    /\ gaps `sublist_of` job_skills
    /\ (forall s, In s matches <->
          In s user_skills /\ exists r, In r job_skills /\ lower r = lower s)
    /\ (forall s, In s gaps <->
          In s job_skills /\ forall u, In u user_skills -> lower u <> lower s)
    /\ (forall s, In s job_skills ->
          In s gaps \/ exists u, In u matches /\ lower u = lower s)
    /\ (forall s u, In s gaps -> In u matches -> lower u <> lower s).
Proof.
  intros user_skills job_skills matches gaps.
  assert (Hm : forall s, In s matches <->
                 In s user_skills /\ exists r, In r job_skills /\ lower r = lower s).
  { intros s. unfold matches, _find_skill_matches.
    rewrite filter_In, bool_decide_eq_true, elem_of_intersection, !elem_of_lower_set.
    split.
    - intros (Hs & _ & r & Hr & E). eauto.
    - intros (Hs & r & Hr & E). split; [exact Hs|]. split; eauto. }
  assert (Hg : forall s, In s gaps <->
                 In s job_skills /\ forall u, In u user_skills -> lower u <> lower s).
  { intros s. unfold gaps, _find_skill_gaps.
    rewrite filter_In, bool_decide_eq_true, elem_of_difference, !elem_of_lower_set.
    split.
    - intros (Hs & _ & Hn). split; [exact Hs|]. intros u Hu E. apply Hn. eauto.
    - intros (Hs & Hn). split; [exact Hs|]. split; [eauto|].
      intros (u & Hu & E). exact (Hn u Hu E). }
  split; [apply filter_sublist|]. split; [apply filter_sublist|].
  split; [exact Hm|]. split; [exact Hg|]. split.
  - intros s Hs.
    destruct (decide (lower s ∈ lower_set user_skills)) as [Hin|Hin].
    + right. apply elem_of_lower_set in Hin. destruct Hin as (u & Hu & E).
      exists u. split; [|exact E]. apply Hm. split; [exact Hu|].
      exists s. auto.
    + left. apply Hg. split; [exact Hs|]. intros u Hu E. apply Hin.
      apply elem_of_lower_set. eauto.
  - intros s u Hs Hu. apply Hg in Hs. apply Hm in Hu.
    destruct Hs as [_ Hn]. destruct Hu as [Hu _]. apply Hn, Hu.
Qed.

(** X20: an explanation lists at most 8 matched skills, each one of the
    user's skills or tools, and at most 5 gaps, each one of the skills the
    job requires; it has at least one matched skill, and its reasoning and
    its location sentence are not empty. *)
Theorem generate_explanation_record :
  forall m profile e,
    generate_explanation m profile = Some e ->
    (0 < length (skill_matches e) <= 8)%nat
    /\ (length (skill_gaps e) <= 5)%nat
    /\ Forall (fun s => In s (skills profile ++ tools profile)) (skill_matches e)
    /\ Forall (fun s => In s (required_skills (job m))) (skill_gaps e)
    /\ why_match e = _generate_why_match m profile
    /\ nonempty (why_match e) = true
    /\ nonempty (location_reasoning e) = true.
Proof.
  intros m profile e. unfold generate_explanation.
  rewrite why_match_nonempty. cbn [negb orb].
  assert (Hms : Forall (fun s => In s (skills profile ++ tools profile))
                  (_find_skill_matches (skills profile ++ tools profile)
                     (required_skills (job m)))).
  { apply List.Forall_forall. intros s Hs.
    unfold _find_skill_matches in Hs. apply filter_In in Hs. apply Hs. }
  assert (Hgs : Forall (fun s => In s (required_skills (job m)))
                  (_find_skill_gaps (skills profile ++ tools profile)
                     (required_skills (job m)))).
  { apply List.Forall_forall. intros s Hs.
    unfold _find_skill_gaps in Hs. apply filter_In in Hs. apply Hs. }
  assert (Hloc : nonempty (_generate_location_reasoning m (job m)) = true).
  { unfold _generate_location_reasoning.
    destruct (loc_type (location (job m)) =? "remote")%string; [reflexivity|].
    destruct (ge (location_score m) 0.9); [reflexivity|].
    destruct (ge (location_score m) 0.7); [reflexivity|].
    destruct (ge (location_score m) 0.5); reflexivity. }
  remember (_find_skill_matches (skills profile ++ tools profile)
              (required_skills (job m))) as ms eqn:Em.
  remember (_find_skill_gaps (skills profile ++ tools profile)
              (required_skills (job m))) as gs eqn:Eg.
  remember (_generate_location_reasoning m (job m)) as lr eqn:El.
  clear Em Eg El.
  destruct ms as [|s0 l]; [discriminate|].
  remember (firstn 8 (s0 :: l)) as ms8 eqn:E8.
  remember (firstn 5 gs) as gs5 eqn:E5.
  intros [= <-]. cbn [skill_matches skill_gaps why_match location_reasoning].
  subst ms8 gs5.
  split; [split; [simpl; lia | apply firstn_le_length]|].
  split; [apply firstn_le_length|].
  split; [apply Forall_take, Hms|].
  split; [apply Forall_take, Hgs|].
  split; [reflexivity|]. split; [apply why_match_nonempty | exact Hloc].
Qed.

(** X20, witness: the operations scenario. *)
Lemma generate_explanation_record_operations :
  exists e,
    generate_explanation
      (_score_job Inputs.operations_job Inputs.operations_profile
         Inputs.mumbai_preferences) Inputs.operations_profile = Some e
    /\ skill_matches e = ["excel"%string]
    /\ (0 < length (skill_matches e) <= 8)%nat.
Proof.
  destruct (generate_explanation
              (_score_job Inputs.operations_job Inputs.operations_profile
                 Inputs.mumbai_preferences) Inputs.operations_profile)
    as [e|] eqn:E; [|vm_compute in E; discriminate].
  exists e. split; [reflexivity|].
  pose proof (generate_explanation_record _ _ e E) as (Hlen & _).
  split; [|exact Hlen].
  vm_compute in E. injection E as <-. reflexivity.
Defined.

Lemma jaccard_zero_iff (a b : gset string) :
  a <> ∅ -> (jaccard a b == 0 <-> a ∩ b = ∅) /\ (a ∩ b <> ∅ -> 0 < jaccard a b).
Proof.
  intros Ha. unfold jaccard.
  assert (Hu : (0 < size (a ∪ b))%nat).
  { pose proof (union_size_pos a b Ha). lia. }
  assert (Hq : 0 < inject_Z (Z.of_nat (size (a ∪ b)))).
  { change 0 with (inject_Z 0). rewrite <- Zlt_Qlt. lia. }
  assert (Hpos : a ∩ b <> ∅ ->
                 0 < inject_Z (Z.of_nat (size (a ∩ b)))
                     / inject_Z (Z.of_nat (size (a ∪ b)))).
  { intros Hne. apply Qlt_shift_div_l; [exact Hq|]. rewrite Qmult_0_l.
    change 0 with (inject_Z 0). rewrite <- Zlt_Qlt.
    assert (size (a ∩ b) <> 0%nat)
      by (intros E; apply size_empty_iff in E; apply Hne, leibniz_equiv, E).
    lia. }
  split; [|exact Hpos]. split.
  - intros E. destruct (decide (a ∩ b = ∅)) as [H|H]; [exact H|].
    apply Hpos in H. rewrite E in H. exfalso. exact (Qlt_irrefl _ H).
  - intros ->. rewrite size_empty. unfold Qdiv. apply Qmult_0_l.
Qed.

(** X21: a match built by [_score_job] gets an explanation exactly when its
    skill score is positive: [generate_explanation] returns [None] if and
    only if the skill score of the match is zero. *)
Theorem explanation_iff_positive_skill_score :
  forall j profile preferences,
    let m := _score_job j profile preferences in
    (generate_explanation m profile = None <-> skill_score m == 0)
    /\ ((exists e, generate_explanation m profile = Some e) <->
        0 < skill_score m).
Proof.
  intros j profile preferences m.
  assert (Hnone : generate_explanation m profile = None <->
                  skill_intersection profile j = ∅)
    by apply generate_explanation_none.
  assert (Hs : (skill_score m == 0 <-> skill_intersection profile j = ∅)
               /\ (skill_intersection profile j <> ∅ -> 0 < skill_score m)).
  { unfold m, _score_job, skill_intersection. cbn [skill_score].
    unfold _calculate_skill_similarity.
    destruct (skills profile ++ tools profile) as [|u us] eqn:Eu.
    { assert (E : lower_set [] ∩ lower_set (required_skills j) = ∅)
        by apply intersection_empty_l_L.
      split; [|intros H; contradiction].
      split; [intros _; exact E | reflexivity]. }
    destruct (required_skills j) as [|r rs] eqn:Er.
    { assert (E : lower_set (u :: us) ∩ lower_set [] = ∅)
        by apply intersection_empty_r_L.
      split; [|intros H; contradiction].
      split; [intros _; exact E | reflexivity]. }
    set (a := lower_set (u :: us)). set (b := lower_set (r :: rs)).
    assert (Ha : a <> ∅) by apply lower_set_nonempty.
    destruct (Nat.eqb_spec (size (a ∪ b)) 0) as [E|_];
      [destruct (union_size_pos a b Ha E)|].
    destruct (jaccard_zero_iff a b Ha) as [Hz Hp]. unfold jaccard in Hz, Hp.
    destruct (Nat.leb_spec 5 (size (a ∩ b))) as [H5|H5]; [|split; assumption].
    assert (Hne : a ∩ b <> ∅).
    { intros E. rewrite E, size_empty in H5. lia. }
    rewrite pymin_clamp. unfold clamp.
    assert (Hpos : 0 < (if Qle_bool 1.0
                          (inject_Z (Z.of_nat (size (a ∩ b)))
                           / inject_Z (Z.of_nat (size (a ∪ b))) * 1.2)
                        then 1.0
                        else inject_Z (Z.of_nat (size (a ∩ b)))
                             / inject_Z (Z.of_nat (size (a ∪ b))) * 1.2)).
    { destruct (Qle_bool 1.0 _); [reflexivity|].
      apply Qmult_lt_0_compat; [apply Hp, Hne | reflexivity]. }
    split; [|intros _; exact Hpos]. split.
    - intros E. rewrite E in Hpos. destruct (Qlt_irrefl _ Hpos).
    - intros E. contradiction. }
  destruct Hs as [Hz Hp]. split.
  - rewrite Hnone, Hz. reflexivity.
  - split.
    + intros [e He]. apply Hp. intros E. apply Hnone in E. congruence.
    + intros Hpos. destruct (generate_explanation m profile) as [e|];
        [eauto|].
      pose proof (proj2 Hz (proj1 Hnone eq_refl)) as E.
      rewrite E in Hpos. destruct (Qlt_irrefl _ Hpos).
Qed.

Lemma same_ci_some a b :
  same_ci a b = true -> exists c, a = Some c /\ c <> EmptyString.
Proof.
  destruct a as [x|], b as [y|]; simpl; try discriminate.
  destruct x; simpl; [discriminate|]. intros _. eexists. split; [reflexivity|].
  discriminate.
Qed.

(** X22: the location sentence of a match built by [_score_job].  A remote
    job gets the remote sentence.  Any other job gets "Located in your
    preferred area" exactly at score 1.0; "Same country as your preference"
    at score 0.7, and then the job has a country to print, never [None];
    "Relocation opportunity" at score 0.5, which is given only when the user
    stated no preferred location; and the plain "Location" sentence at the
    scores 0.4, 0.2, 0.1 and 0.0. *)
Theorem location_reasoning_of_scored_job :
  forall j profile preferences,
    let m := _score_job j profile preferences in
    let r := _generate_location_reasoning m j in
    let loc := location j in
    (loc_type loc = "remote"%string ->
     r = "Remote position - work from anywhere"%string)
    /\ (loc_type loc <> "remote"%string ->
        (location_score m = 1.0
         /\ r = "Located in your preferred area: " +:+ loc_raw loc)
        \/ (location_score m = 0.7
            /\ exists c, loc_country loc = Some c /\ c <> EmptyString
                 /\ r = "Same country as your preference: " +:+ c)
        \/ (location_score m = 0.5
            /\ preferred_locations preferences = []
            /\ r = "Relocation opportunity to " +:+ loc_raw loc)
        \/ (In (location_score m) [0.4; 0.2; 0.1; 0.0]
            /\ r = "Location: " +:+ loc_raw loc)).
Proof.
  intros j profile preferences m r loc. unfold r, _generate_location_reasoning.
  fold loc. split.
  - intros ->. reflexivity.
  - intros Hr.
    destruct (String.eqb_spec (loc_type loc) "remote") as [E|_]; [contradiction|].
    set (job_location := mkNormalizedLocation (loc_city loc) (loc_country loc)
                           (loc_type loc) (loc_raw loc)).
    pose proof (score_location_match_ways job_location
                  (preferred_locations preferences)
                  (open_to_relocation preferences)
                  (open_to_international preferences)
                  (remote_only preferences)) as Hw.
    cbv zeta in Hw.
    change (score_location_match job_location (preferred_locations preferences)
              (open_to_relocation preferences)
              (open_to_international preferences) (remote_only preferences))
      with (location_score m) in Hw.
    change (location_type job_location) with (loc_type loc) in Hw.
    destruct Hw as [[Ht _]|[(_ & _ & Hs)|[(_ & _ & Hp & Hs)
                   |[(_ & _ & Hh & p & Hp & Hc)|(_ & _ & _ & Hs)]]]].
    + contradiction.
    + rewrite Hs. right; right; right. split; [simpl; tauto | reflexivity].
    + rewrite Hs. right; right; left. auto.
    + unfold Spec.comparison in Hc.
      destruct (same_ci (city job_location) (city (normalize_location p)))
        eqn:Eci.
      * apply (f_equal (fun o => default 0 o)) in Hc.
        assert (Hs : location_score m = 1.0) by (symmetry; exact Hc).
        rewrite Hs. left. auto.
      * destruct (same_ci (country job_location)
                    (country (normalize_location p))) eqn:Eco; [|discriminate].
        apply (f_equal (fun o => default 0 o)) in Hc.
        assert (Hs : location_score m = 0.7) by (symmetry; exact Hc).
        rewrite Hs. right; left. split; [reflexivity|].
        apply same_ci_some in Eco. destruct Eco as (c & Ec & Hne).
        simpl in Ec. exists c. rewrite Ec. auto.
    + rewrite Hs. right; right; right.
      destruct (open_to_relocation preferences),
               (open_to_international preferences);
        (split; [simpl; tauto | reflexivity]).
Qed.

End ExplanationMore.


(** ** Properties of the profile extractor *)

Module ProfileFacts.
Import PyStr Exn Extractor ProfileExtractor Relations PyStrFacts.

(** *** Seniority *)

Lemma any_in_false_In kws text kw :
  any_in kws text = false -> In kw kws -> contains kw text = false.
Proof.
  unfold any_in. intros H Hin.
  destruct (contains kw text) eqn:E; [|reflexivity].
  assert (Ht : existsb (fun k => contains k text) kws = true)
    by (apply existsb_exists; eauto).
  congruence.
Qed.

(** The level by years of experience. *)
Lemma seniority_by_years_levels (years : Z) :
  In (if (years <? 2)%Z then "junior"
      else if (years <? 5)%Z then "mid"
      else if (years <? 8)%Z then "senior" else "lead")%string
     ["junior"; "mid"; "senior"; "lead"]%string.
Proof.
  destruct (years <? 2)%Z; [simpl; tauto|].
  destruct (years <? 5)%Z; [simpl; tauto|].
  destruct (years <? 8)%Z; simpl; tauto.
Qed.

(** X23: [extract_seniority] always returns one of the five seniority
    labels, whatever the letter case of the text.  A keyword decides before
    the years do, and the rows are tried in table order: a text with a
    junior keyword is 'junior' whatever the years, and a text with 'lead' or
    'principal' in it is never labelled 'lead' or 'principal', since both
    words are keywords of the earlier row 'senior'.  Without any keyword the
    label follows the years: below 2 junior, below 5 mid, below 8 senior,
    else lead. *)
Theorem extract_seniority_levels :
  forall text years,
    let level := extract_seniority text years in
    let t := lower text in
    In level ["junior"; "mid"; "senior"; "lead"; "principal"]%string
    /\ extract_seniority (lower text) years = level
    /\ (any_in ["junior"; "entry"; "associate"; "graduate"; "intern"]%string t
        = true -> level = "junior"%string)
    /\ (level = "lead"%string ->
        contains "lead" t = false
        /\ (any_in ["lead"; "team lead"; "tech lead"; "engineering manager"]%string
              t = true
            \/ first_level t seniority_keywords = None /\ (8 <= years)%Z))
    /\ (level = "principal"%string ->
        contains "principal" t = false
        /\ any_in ["principal"; "distinguished"; "fellow"; "architect"]%string t
           = true)
    /\ (first_level t seniority_keywords = None ->
        level = (if (years <? 2)%Z then "junior"
                 else if (years <? 5)%Z then "mid"
                 else if (years <? 8)%Z then "senior" else "lead")%string).
Proof.
  intros text years level t.
  split; [|split; [unfold level, extract_seniority; rewrite lower_idem;
                   reflexivity|]];
    unfold level, extract_seniority; fold t;
    unfold seniority_keywords, first_level.
  - repeat match goal with
           | |- context [any_in ?k t] => destruct (any_in k t); [simpl; tauto|]
           end.
    pose proof (seniority_by_years_levels years) as H. simpl in *. tauto.
  - destruct (any_in ["junior"; "entry"; "associate"; "graduate"; "intern"]%string t)
      eqn:E1.
    { repeat split; try discriminate; reflexivity. }
    destruct (any_in ["mid-level"; "intermediate"; "engineer ii"; "developer ii"]%string t)
      eqn:E2.
    { repeat split; try discriminate. }
    destruct (any_in ["senior"; "sr"; "lead"; "principal"; "staff"; "expert"]%string t)
      eqn:E3.
    { repeat split; try discriminate. }
    assert (Hlead : contains "lead" t = false)
      by (eapply any_in_false_In; [exact E3 | simpl; tauto]).
    assert (Hprin : contains "principal" t = false)
      by (eapply any_in_false_In; [exact E3 | simpl; tauto]).
    destruct (any_in ["lead"; "team lead"; "tech lead"; "engineering manager"]%string t)
      eqn:E4.
    { repeat split; try discriminate; auto. }
    destruct (any_in ["principal"; "distinguished"; "fellow"; "architect"]%string t)
      eqn:E5.
    { repeat split; try discriminate; auto. }
    split; [discriminate|]. split; [|split; [|reflexivity]].
    + intros H. split; [exact Hlead|]. right. split; [reflexivity|].
      destruct (Z.ltb_spec years 2); [discriminate|].
      destruct (Z.ltb_spec years 5); [discriminate|].
      destruct (Z.ltb_spec years 8); [discriminate | assumption].
    + intros H. exfalso.
      destruct (years <? 2)%Z; [discriminate|].
      destruct (years <? 5)%Z; [discriminate|].
      destruct (years <? 8)%Z; discriminate.
Qed.

(** *** Role family *)

Lemma max_from_spec rest :
  forall pre best mid,
    Forall (fun y => (snd y < snd best)%nat) pre ->
    Forall (fun y => (snd y <= snd best)%nat) mid ->
    exists l1 l2,
      pre ++ best :: mid ++ rest = l1 ++ max_from best rest :: l2
      /\ Forall (fun y => (snd y < snd (max_from best rest))%nat) l1
      /\ Forall (fun y => (snd y <= snd (max_from best rest))%nat) l2.
Proof.
  induction rest as [|x rest IH]; intros pre best mid Hpre Hmid.
  - exists pre, mid. rewrite app_nil_r. auto.
  - cbn [max_from]. destruct (Nat.ltb_spec (snd best) (snd x)) as [Hlt|Hge].
    + destruct (IH (pre ++ best :: mid) x []) as (l1 & l2 & Heq & H1 & H2).
      * apply Forall_app. split.
        -- eapply List.Forall_impl; [|exact Hpre]. simpl. intros; lia.
        -- constructor; [exact Hlt|].
           eapply List.Forall_impl; [|exact Hmid]. simpl. intros; lia.
      * constructor.
      * exists l1, l2. split; [|auto]. rewrite <- Heq, <- app_assoc.
        reflexivity.
    + destruct (IH pre best (mid ++ [x])) as (l1 & l2 & Heq & H1 & H2).
      * exact Hpre.
      * apply Forall_app. split; [exact Hmid|]. constructor; [exact Hge|].
        constructor.
      * exists l1, l2. split; [|auto]. rewrite <- Heq, <- app_assoc.
        reflexivity.
Qed.

(** X24: [extract_role_family] returns "general" exactly when no keyword
    of any family occurs in the text and titles.  Otherwise it returns the
    family with the largest number of keywords present, and among families
    with that number the first of the table: every earlier family has
    strictly fewer keywords present, every later one at most as many.  The
    result is "general" or one of the ten families of the table; it is
    never "strategy". *)
Theorem extract_role_family_argmax :
  forall text job_titles,
    let combined := lower text +:+ " " +:+ lower (join " " job_titles) in
    let scores :=
      map (fun f => (fst f, family_score combined (snd f))) families in
    let role := extract_role_family text job_titles in
    (role = "general"%string <-> Forall (fun x => snd x = 0%nat) scores)
    /\ (role <> "general"%string ->
        exists before n after,
          scores = before ++ (role, n) :: after
          /\ (0 < n)%nat
          /\ Forall (fun x => (snd x < n)%nat) before
          /\ Forall (fun x => (snd x <= n)%nat) after)
    /\ In role ("general"%string :: map fst families)
    /\ role <> "strategy"%string.
Proof.
  intros text job_titles combined scores role.
  assert (Hnames : map fst scores = map fst families).
  { unfold scores. rewrite map_map. reflexivity. }
  unfold role, extract_role_family. fold combined. fold scores.
  destruct scores as [|first rest] eqn:Es; [discriminate|].
  destruct (max_from_spec rest [] first [] ltac:(constructor) ltac:(constructor))
    as (l1 & l2 & Heq & H1 & H2).
  simpl app in Heq at 1. cbn [app] in Heq.
  set (best := max_from first rest) in *.
  assert (Hin : In (fst best) (map fst families)).
  { rewrite <- Hnames, Heq, map_app. apply in_or_app. right. simpl. auto. }
  assert (Hng : fst best <> "general"%string).
  { intros E. rewrite E in Hin. simpl in Hin.
    repeat (destruct Hin as [Hin|Hin]; [discriminate|]). destruct Hin. }
  assert (Hns : fst best <> "strategy"%string).
  { intros E. rewrite E in Hin. simpl in Hin.
    repeat (destruct Hin as [Hin|Hin]; [discriminate|]). destruct Hin. }
  destruct (Nat.eqb_spec (snd best) 0) as [E0|E0].
  - split; [|split; [congruence | split; [simpl; auto | discriminate]]].
    split; [|reflexivity]. intros _. rewrite Heq.
    apply Forall_app. split.
    + eapply List.Forall_impl; [|exact H1]. simpl. intros; lia.
    + constructor; [exact E0|].
      eapply List.Forall_impl; [|exact H2]. simpl. intros; lia.
  - split; [|split; [|split; [simpl; auto | exact Hns]]].
    + split; [intros E; contradiction|]. intros Hall. exfalso. apply E0.
      rewrite Heq in Hall. apply Forall_app in Hall. destruct Hall as [_ Hall].
      apply Forall_cons in Hall. apply Hall.
    + intros _. exists l1, (snd best), l2.
      split; [rewrite Heq; destruct best; reflexivity|].
      split; [lia|]. auto.
Qed.

(** *** Skill clusters *)

Lemma cluster_skills_members skills c :
  In c (cluster_skills skills) <->
  exists ks, In (c, ks) cluster_mappings
             /\ exists s, In s skills /\ lower s ∈ ks.
Proof.
  unfold cluster_skills.
  rewrite In_sorted, elem_of_list_to_set, list_elem_of_In, in_map_iff.
  split.
  - intros ([c' ks] & <- & Hf). apply filter_In in Hf. destruct Hf as [Hin Hb].
    apply bool_decide_eq_true in Hb. cbn [snd] in Hb.
    apply set_choose_L in Hb. destruct Hb as [x Hx].
    apply elem_of_intersection in Hx. destruct Hx as [Hx1 Hx2].
    apply elem_of_list_to_set, list_elem_of_In, in_map_iff in Hx1.
    destruct Hx1 as (s & <- & Hs). exists ks. split; [exact Hin|]. eauto.
  - intros (ks & Hin & s & Hs & Hmem). exists (c, ks). split; [reflexivity|].
    apply filter_In. split; [exact Hin|]. apply bool_decide_eq_true.
    cbn [snd]. intros E.
    assert (Hx : lower s ∈ (list_to_set (map lower skills) : gset string) ∩ ks).
    { apply elem_of_intersection. split; [|exact Hmem].
      apply elem_of_list_to_set, list_elem_of_In, in_map. exact Hs. }
    rewrite E in Hx. exact (not_elem_of_empty _ Hx).
Qed.

(** X25: [cluster_skills] returns, in strictly ascending order and without
    repetition, exactly the clusters one of whose skills is, in lower case,
    among the given skills.  So every result is among backend, cloud, data,
    frontend, ml; no skill gives no cluster; the letter case of the skills
    does not matter; and more skills never give fewer clusters. *)
Theorem cluster_skills_clusters :
  forall skills,
    ascending (cluster_skills skills)
    /\ (forall c, In c (cluster_skills skills) <->
          exists ks, In (c, ks) cluster_mappings
                     /\ exists s, In s skills /\ lower s ∈ ks)
    /\ Forall (fun c => In c ["backend"; "cloud"; "data"; "frontend"; "ml"]%string)
         (cluster_skills skills)
    /\ cluster_skills [] = []
    /\ cluster_skills (map lower skills) = cluster_skills skills
    /\ (forall more, incl (cluster_skills skills) (cluster_skills (skills ++ more))).
Proof.
  intros skills.
  split; [apply sorted_ascending|]. split; [apply cluster_skills_members|].
  split; [|split; [vm_compute; reflexivity|split]].
  - apply List.Forall_forall. intros c Hc. apply cluster_skills_members in Hc.
    destruct Hc as (ks & Hin & _). unfold cluster_mappings in Hin. simpl in Hin.
    repeat (destruct Hin as [Hin|Hin];
            [apply (f_equal fst) in Hin; simpl in Hin; subst c; simpl; tauto|]).
    destruct Hin.
  - unfold cluster_skills. rewrite map_map.
    rewrite (map_ext (fun x => lower (lower x)) lower) by apply lower_idem.
    reflexivity.
  - intros more c Hc. apply cluster_skills_members in Hc.
    apply cluster_skills_members.
    destruct Hc as (ks & Hin & s & Hs & Hmem). exists ks. split; [exact Hin|].
    exists s. split; [apply in_or_app; auto | exact Hmem].
Qed.

(** *** Locations *)

Lemma extract_locations_members nlp text p :
  In p (extract_locations nlp text) <->
  p ∈ entity_locations nlp text
  \/ In p common_places /\ contains (lower p) (lower text) = true.
Proof.
  unfold extract_locations.
  rewrite In_sorted, elem_of_union, elem_of_list_to_set, list_elem_of_In,
    filter_In. reflexivity.
Qed.

(** X26: [extract_locations] never raises: an exception of the spaCy
    pipeline is caught, and the result is then the one obtained without a
    pipeline.  The result is in strictly ascending order without
    repetition; without a pipeline it holds exactly the common places whose
    lower case occurs in the lower-cased text, and with a pipeline it holds
    those and the text of the entities labelled GPE or LOC. *)
Theorem extract_locations_places :
  forall nlp text,
    ascending (extract_locations nlp text)
    /\ (forall p, In p (extract_locations None text) <->
          In p common_places /\ contains (lower p) (lower text) = true)
    /\ incl (extract_locations None text) (extract_locations nlp text)
    /\ (forall pipeline e,
          nlp = Some pipeline -> pipeline text = Raise e ->
          extract_locations nlp text = extract_locations None text)
    /\ (forall pipeline ents p,
          nlp = Some pipeline -> pipeline text = Ok ents ->
          (In p (extract_locations nlp text) <->
           In p (extract_locations None text)
           \/ exists label, In (p, label) ents
                            /\ In label ["GPE"; "LOC"]%string)).
Proof.
  intros nlp text.
  assert (Hnone : forall p, In p (extract_locations None text) <->
                    In p common_places /\ contains (lower p) (lower text) = true).
  { intros p. rewrite extract_locations_members. cbn [entity_locations].
    split; [intros [H|H]; [destruct (not_elem_of_empty _ H) | exact H] | auto]. }
  split; [apply sorted_ascending|]. split; [exact Hnone|]. split; [|split].
  - intros p Hp. apply extract_locations_members. right. apply Hnone, Hp.
  - intros pipeline e -> He. unfold extract_locations, entity_locations.
    rewrite He. reflexivity.
  - intros pipeline ents p -> Hents.
    rewrite extract_locations_members, Hnone. unfold entity_locations.
    rewrite Hents, elem_of_list_to_set, list_elem_of_In, in_map_iff.
    split.
    + intros [([p' label] & <- & Hf)|H]; [|auto].
      apply filter_In in Hf. destruct Hf as [Hin Hl]. right. exists label.
      split; [exact Hin|]. cbn [snd] in Hl. apply existsb_exists in Hl.
      destruct Hl as (l & Hl & E). apply String.eqb_eq in E. subst l. exact Hl.
    + intros [H|(label & Hin & Hl)]; [auto|]. left. exists (p, label).
      split; [reflexivity|]. apply filter_In. split; [exact Hin|].
      apply existsb_exists. exists label. split; [exact Hl|].
      apply String.eqb_refl.
Qed.

End ProfileFacts.

(** ** Properties of the strict location filter *)

Module StrictFilterFacts.
Import PyStr Exn Location JobNormalizer StrictFilter Relations PyStrFacts.

(** *** The filter *)

Lemma filter_loop_raises jobs user_countries open_to_remote :
  forall filtered,
    existsb location_raises jobs = true ->
    filter_loop jobs user_countries open_to_remote filtered
    = Raise AttributeError.
Proof.
  induction jobs as [|job rest IH]; intros filtered H; [discriminate|].
  cbn [existsb] in H. cbn [filter_loop].
  unfold location_raises, posting_location in H.
  destruct (default (VStr "") (raw_location_raw job)) as [|b|z|s] eqn:E;
    cbn [normalize_location_any py_truthy] in *.
  - cbn [mbind result_bind]. apply IH. exact H.
  - destruct b; cbn [mbind result_bind]; [reflexivity|]. apply IH. exact H.
  - destruct (negb (z =? 0)%Z); cbn [mbind result_bind]; [reflexivity|].
    apply IH. exact H.
  - cbn [mbind result_bind]. apply IH. exact H.
Qed.

Lemma filter_loop_filter jobs user_countries open_to_remote :
  forall filtered,
    existsb location_raises jobs = false ->
    filter_loop jobs user_countries open_to_remote filtered
    = Ok (filtered ++ List.filter (kept user_countries open_to_remote) jobs).
Proof.
  induction jobs as [|job rest IH]; intros filtered H.
  - cbn [filter_loop List.filter]. rewrite app_nil_r. reflexivity.
  - cbn [existsb] in H. apply orb_false_iff in H. destruct H as [Hj Hrest].
    cbn [filter_loop List.filter]. unfold kept at 1.
    unfold location_raises in Hj. unfold posting_location in *.
    destruct (normalize_location_any (default (VStr "") (raw_location_raw job)))
      as [normalized|e]; [|discriminate].
    cbn [mbind result_bind]. rewrite IH by exact Hrest.
    destruct (keeps user_countries open_to_remote normalized).
    + rewrite <- app_assoc. reflexivity.
    + reflexivity.
Qed.

Lemma filter_jobs_by_location_eq jobs user_countries open_to_remote :
  filter_jobs_by_location jobs user_countries open_to_remote
  = if existsb location_raises jobs then Raise AttributeError
    else Ok (List.filter (kept user_countries open_to_remote) jobs).
Proof.
  unfold filter_jobs_by_location.
  destruct (existsb location_raises jobs) eqn:E.
  - apply filter_loop_raises. exact E.
  - rewrite filter_loop_filter by exact E. reflexivity.
Qed.

Lemma location_raises_iff job :
  location_raises job = true <->
  exists v, raw_location_raw job = Some v /\ py_truthy v = true
            /\ forall s, v <> VStr s.
Proof.
  unfold location_raises, posting_location.
  destruct (raw_location_raw job) as [v|].
  - change (default (VStr "") (Some v)) with v.
    destruct v as [|b|z|s]; cbn [normalize_location_any py_truthy].
    + split; [discriminate|]. intros (v & [= <-] & H & _). discriminate.
    + destruct b.
      * split; [|reflexivity]. intros _. exists (VBool true).
        repeat split; discriminate.
      * split; [discriminate|]. intros (v & [= <-] & H & _). discriminate.
    + destruct (negb (z =? 0)%Z) eqn:Ez.
      * split; [|reflexivity]. intros _. exists (VInt z).
        split; [reflexivity|]. split; [exact Ez | discriminate].
      * split; [discriminate|]. intros (v & [= <-] & H & _).
        cbn [py_truthy] in H. congruence.
    + split; [discriminate|]. intros (v & [= <-] & _ & H).
      destruct (H s eq_refl).
  - change (default (VStr "") None) with (VStr "").
    cbn [normalize_location_any]. split; [discriminate|].
    intros (v & H & _). discriminate.
Qed.

Lemma normalize_location_remote s :
  location_type (normalize_location s) = "remote"%string ->
  city (normalize_location s) = None /\ country (normalize_location s) = None.
Proof.
  unfold normalize_location.
  destruct (negb (nonempty s)); [discriminate|].
  destruct (any_in REMOTE_KEYWORDS (strip (lower s))); [auto|].
  destruct (_parse_city_country s) as [c k].
  destruct (any_in HYBRID_KEYWORDS (strip (lower s))); discriminate.
Qed.

Lemma posting_location_remote job normalized :
  posting_location job = Ok normalized ->
  location_type normalized = "remote"%string ->
  city normalized = None /\ country normalized = None.
Proof.
  unfold posting_location.
  destruct (default (VStr "") (raw_location_raw job)) as [|b|z|s];
    cbn [normalize_location_any py_truthy].
  - intros [= <-]. discriminate.
  - destruct b; [discriminate|]. intros [= <-]. discriminate.
  - destruct (negb (z =? 0)%Z); [discriminate|]. intros [= <-]. discriminate.
  - intros [= <-]. apply normalize_location_remote.
Qed.

Lemma in_list_incl x l l' :
  incl l l' -> Matcher.in_list x l = true -> Matcher.in_list x l' = true.
Proof.
  unfold Matcher.in_list. intros Hincl H.
  apply existsb_exists in H. destruct H as (y & Hy & E).
  apply existsb_exists. exists y. split; [apply Hincl, Hy | exact E].
Qed.

Lemma keeps_incl user_countries more open_to_remote normalized :
  incl user_countries more ->
  keeps user_countries open_to_remote normalized = true ->
  keeps more open_to_remote normalized = true.
Proof.
  intros Hincl. unfold keeps.
  destruct (open_to_remote && String.eqb (location_type normalized) "remote");
    [reflexivity|].
  destruct (truthy (country normalized)) eqn:Ec; cbn [andb negb].
  - destruct (Matcher.in_list (str_of_option (country normalized)) user_countries)
      eqn:E.
    + rewrite (in_list_incl _ _ _ Hincl E). reflexivity.
    + rewrite andb_false_r. discriminate.
  - destruct (truthy (city normalized)); cbn [andb]; [|discriminate].
    destruct (Matcher.in_list "India" user_countries) eqn:Ei; cbn [andb].
    + rewrite (in_list_incl _ _ _ Hincl Ei). cbn [andb].
      destruct (Matcher.in_list _ india_cities); [reflexivity|].
      destruct (Matcher.in_list "UAE" user_countries) eqn:Eu; cbn [andb];
        [|discriminate].
      rewrite (in_list_incl _ _ _ Hincl Eu). cbn [andb].
      destruct (Matcher.in_list "UAE" more); cbn [andb]; auto.
    + destruct (Matcher.in_list "UAE" user_countries) eqn:Eu; cbn [andb];
        [|discriminate].
      rewrite (in_list_incl _ _ _ Hincl Eu). cbn [andb].
      intros ->. destruct (Matcher.in_list "India" more && _); reflexivity.
Qed.

(** X27: [filter_jobs_by_location] raises AttributeError exactly when some
    posting has a location that is true and not a string, whatever the
    countries; otherwise it returns, in the order of the input, the postings
    its test keeps.  A posting whose location normalizes to remote is kept
    exactly when the user is open to remote work, whatever the countries;
    a posting without a location, or with a false one, is never kept. *)
Theorem filter_jobs_by_location_closed_form :
  forall jobs user_countries open_to_remote,
    filter_jobs_by_location jobs user_countries open_to_remote
    = (if existsb location_raises jobs then Raise AttributeError
       else Ok (List.filter (kept user_countries open_to_remote) jobs))
    /\ (existsb location_raises jobs = true <->
        exists job v, In job jobs /\ raw_location_raw job = Some v
                      /\ py_truthy v = true /\ forall s, v <> VStr s)
    /\ (forall job normalized,
          posting_location job = Ok normalized ->
          location_type normalized = "remote"%string ->
          kept user_countries open_to_remote job = open_to_remote)
    /\ (forall job,
          py_truthy (default (VStr "") (raw_location_raw job)) = false ->
          kept user_countries open_to_remote job = false).
Proof.
  intros jobs user_countries open_to_remote.
  split; [apply filter_jobs_by_location_eq|]. split; [|split].
  - rewrite existsb_exists. split.
    + intros (job & Hin & Hr). apply location_raises_iff in Hr.
      destruct Hr as (v & Hv). exists job, v. tauto.
    + intros (job & v & Hin & Hv). exists job. split; [exact Hin|].
      apply location_raises_iff. exists v. exact Hv.
  - intros job normalized Hn Hr. unfold kept. rewrite Hn.
    destruct (posting_location_remote _ _ Hn Hr) as [Hc Hk].
    unfold keeps. rewrite Hr, Hc, Hk. cbn. destruct open_to_remote; reflexivity.
  - intros job Hf. unfold kept, posting_location.
    destruct (default (VStr "") (raw_location_raw job)) as [|b|z|s];
      cbn [normalize_location_any py_truthy] in *.
    + unfold keeps. cbn. rewrite andb_false_r. reflexivity.
    + rewrite Hf. unfold keeps. cbn. rewrite andb_false_r. reflexivity.
    + rewrite Hf. unfold keeps. cbn. rewrite andb_false_r. reflexivity.
    + destruct s; [|discriminate]. unfold keeps. cbn.
      rewrite andb_false_r. reflexivity.
Qed.

Lemma filter_keeps_raises (f : RawJob -> bool) jobs :
  existsb location_raises jobs = false ->
  existsb location_raises (List.filter f jobs) = false.
Proof.
  induction jobs as [|job rest IH]; [reflexivity|].
  cbn [existsb List.filter]. intros H. apply orb_false_iff in H.
  destruct H as [Hj Hr]. destruct (f job); cbn [existsb]; [rewrite Hj|]; auto.
Qed.

Lemma filter_idem (f : RawJob -> bool) jobs :
  List.filter f (List.filter f jobs) = List.filter f jobs.
Proof.
  induction jobs as [|job rest IH]; [reflexivity|]. cbn [List.filter].
  destruct (f job) eqn:E; [|exact IH]. cbn [List.filter]. rewrite E, IH.
  reflexivity.
Qed.

Lemma filter_sublist_of (f : RawJob -> bool) jobs :
  sublist (List.filter f jobs) jobs.
Proof.
  induction jobs as [|job rest IH]; [constructor|]. cbn [List.filter].
  destruct (f job); [apply sublist_skip | apply sublist_cons]; exact IH.
Qed.

(** X28: when [filter_jobs_by_location] returns, its result is a
    subsequence of the input, filtering the result once more changes
    nothing, and with more countries the filter returns too and keeps every
    posting that was kept. *)
Theorem filter_jobs_by_location_again :
  forall jobs user_countries open_to_remote filtered,
    filter_jobs_by_location jobs user_countries open_to_remote = Ok filtered ->
    sublist filtered jobs
    /\ filter_jobs_by_location filtered user_countries open_to_remote
       = Ok filtered
    /\ (forall more,
          incl user_countries more ->
          exists filtered',
            filter_jobs_by_location jobs more open_to_remote = Ok filtered'
            /\ sublist filtered filtered').
Proof.
  intros jobs user_countries open_to_remote filtered H.
  rewrite filter_jobs_by_location_eq in H.
  destruct (existsb location_raises jobs) eqn:E; [discriminate|].
  apply NormalizerMore.Ok_inj in H. subst filtered. split; [apply filter_sublist_of|]. split.
  - rewrite filter_jobs_by_location_eq, filter_keeps_raises by exact E.
    rewrite filter_idem. reflexivity.
  - intros more Hincl. exists (List.filter (kept more open_to_remote) jobs).
    rewrite filter_jobs_by_location_eq, E. split; [reflexivity|].
    clear E. induction jobs as [|job rest IH]; [constructor|].
    cbn [List.filter].
    destruct (kept user_countries open_to_remote job) eqn:Ek.
    + assert (Hm : kept more open_to_remote job = true).
      { unfold kept in *. destruct (posting_location job); [|discriminate].
        eapply keeps_incl; eauto. }
      rewrite Hm. apply sublist_skip. exact IH.
    + destruct (kept more open_to_remote job);
        [apply sublist_cons | ]; exact IH.
Qed.

Lemma filter_jobs_by_location_again_around :
  filter_jobs_by_location postings_around ["India"; "UAE"]%string true
  = Ok [ posting_at (VStr "Bengaluru, India"); posting_at (VStr "Dubai");
         posting_at (VStr "Remote") ]
  /\ filter_jobs_by_location
       [ posting_at (VStr "Bengaluru, India"); posting_at (VStr "Dubai");
         posting_at (VStr "Remote") ] ["India"; "UAE"]%string true
     = Ok [ posting_at (VStr "Bengaluru, India"); posting_at (VStr "Dubai");
            posting_at (VStr "Remote") ].
Proof.
  assert (H : filter_jobs_by_location postings_around ["India"; "UAE"]%string true
              = Ok [ posting_at (VStr "Bengaluru, India");
                     posting_at (VStr "Dubai"); posting_at (VStr "Remote") ])
    by (vm_compute; reflexivity).
  split; [exact H|].
  exact (proj1 (proj2 (filter_jobs_by_location_again _ _ _ _ H))).
Defined.

(** *** The countries of a user *)

Lemma filter_andb (f g : string -> bool) l :
  List.filter f (List.filter g l) = List.filter (fun x => g x && f x) l.
Proof.
  induction l as [|x l IH]; [reflexivity|]. cbn [List.filter].
  destruct (g x); cbn [List.filter andb]; [|exact IH].
  destruct (f x); rewrite IH; reflexivity.
Qed.

Lemma in_list_app x l y :
  Matcher.in_list x (l ++ [y]) = Matcher.in_list x l || String.eqb x y.
Proof.
  unfold Matcher.in_list. rewrite existsb_app. cbn [existsb].
  rewrite orb_false_r. reflexivity.
Qed.

Lemma any_loop cs :
  forall countries,
    fold_left (fun acc c =>
                 if negb (Matcher.in_list c acc) then acc ++ [c] else acc)
      cs countries
    = countries ++ List.filter (fun c => negb (Matcher.in_list c countries))
                     (first_occurrences cs).
Proof.
  induction cs as [|c cs IH]; intros countries.
  - cbn. rewrite app_nil_r. reflexivity.
  - cbn [fold_left first_occurrences List.filter]. rewrite IH.
    destruct (Matcher.in_list c countries) eqn:E; cbn [negb].
    + f_equal. rewrite filter_andb. apply filter_ext. intros x.
      destruct (String.eqb_spec x c) as [->|Hne]; cbn [negb andb];
        [rewrite E|]; reflexivity.
    + rewrite <- app_assoc. cbn [app]. f_equal. f_equal.
      rewrite filter_andb. apply filter_ext. intros x.
      rewrite in_list_app, negb_orb, andb_comm. reflexivity.
Qed.

Lemma countries_loop_fold locs :
  forall countries,
    countries_loop locs countries
    = fold_left (fun acc c =>
                   if negb (Matcher.in_list c acc) then acc ++ [c] else acc)
        (preference_countries locs) countries.
Proof.
  induction locs as [|loc locs IH]; intros countries; [reflexivity|].
  cbn [countries_loop]. unfold preference_countries. cbn [omap list_omap].
  fold (omap (fun loc => let c := country (normalize_location loc) in
                         if truthy c then c else None) locs).
  fold (preference_countries locs).
  destruct (country (normalize_location loc)) as [c|]; cbn [truthy].
  - destruct (nonempty c); cbn [andb str_of_option fold_left].
    + rewrite IH. reflexivity.
    + rewrite IH. reflexivity.
  - cbn [andb]. rewrite IH. reflexivity.
Qed.

Lemma first_occurrences_In l x : In x (first_occurrences l) <-> In x l.
Proof.
  induction l as [|y l IH]; [reflexivity|]. cbn [first_occurrences].
  cbn [In]. rewrite filter_In, IH. split.
  - intros [H|[H _]]; auto.
  - intros [H|H]; [auto|]. destruct (String.eqb_spec x y) as [->|Hne]; auto.
Qed.

Lemma first_occurrences_NoDup l : List.NoDup (first_occurrences l).
Proof.
  induction l as [|y l IH]; cbn [first_occurrences]; constructor.
  - rewrite filter_In. intros [_ H]. rewrite String.eqb_refl in H.
    discriminate.
  - apply List.NoDup_filter. exact IH.
Qed.

Lemma preference_countries_In locs c :
  In c (preference_countries locs) <->
  exists loc, In loc locs /\ country (normalize_location loc) = Some c
              /\ nonempty c = true.
Proof.
  unfold preference_countries.
  rewrite <- list_elem_of_In, list_elem_of_omap. split.
  - intros (loc & Hin & H). apply list_elem_of_In in Hin. exists loc.
    split; [exact Hin|].
    destruct (country (normalize_location loc)) as [k|]; cbn in H;
      [|discriminate].
    destruct (nonempty k) eqn:Ek; [|discriminate].
    injection H as ->. auto.
  - intros (loc & Hin & Hc & Hne). exists loc.
    split; [apply list_elem_of_In, Hin|]. rewrite Hc. cbn. rewrite Hne.
    reflexivity.
Qed.

(** X29: [get_location_preference_from_user] returns the countries of the
    preferred locations that normalize to one, each once, in the order of
    their first occurrence, and ['India'] when there is none, which includes
    a profile without preferences and preferences without locations.  So
    the result is never empty and has no repetition, and each of its
    countries is 'India' or the non-empty country of a preferred location. *)
Theorem get_location_preference_from_user_countries :
  forall user_profile,
    let preferred_locations :=
      default [] (pd_preferred_locations
                    (default (mkPreferencesDict None)
                       (up_preferences user_profile))) in
    let countries := get_location_preference_from_user user_profile in
    countries
    = (match preference_countries preferred_locations with
       | [] => ["India"%string]
       | cs => first_occurrences cs
       end)
    /\ countries <> []
    /\ List.NoDup countries
    /\ (forall c, In c countries ->
          c = "India"%string
          \/ exists loc, In loc preferred_locations
                         /\ country (normalize_location loc) = Some c
                         /\ nonempty c = true)
    /\ (forall loc c, In loc preferred_locations ->
          country (normalize_location loc) = Some c -> nonempty c = true ->
          In c countries)
    /\ (preferred_locations = [] -> countries = ["India"%string]).
Proof.
  intros user_profile preferred_locations countries.
  assert (Heq : countries
                = match preference_countries preferred_locations with
                  | [] => ["India"%string]
                  | cs => first_occurrences cs
                  end).
  { unfold countries, get_location_preference_from_user.
    fold preferred_locations.
    rewrite countries_loop_fold, any_loop. cbn [app].
    rewrite (filter_ext _ (fun _ => true)) by reflexivity.
    rewrite filter_true.
    destruct (preference_countries preferred_locations); reflexivity. }
  split; [exact Heq|]. rewrite Heq.
  destruct (preference_countries preferred_locations) as [|c0 cs] eqn:Ecs.
  - split; [discriminate|]. split; [repeat constructor; simpl; tauto|].
    split; [intros c [<-|[]]; auto|]. split; [|reflexivity].
    intros loc c Hin Hc Hne.
    assert (H : In c (preference_countries preferred_locations))
      by (apply (proj2 (preference_countries_In _ _)); eauto).
    rewrite Ecs in H. destruct H.
  - split; [discriminate|]. split; [apply first_occurrences_NoDup|].
    split; [|split].
    + intros c Hc. right. apply (proj1 (first_occurrences_In _ _)) in Hc.
      rewrite <- Ecs in Hc.
      exact (proj1 (preference_countries_In _ _) Hc).
    + intros loc c Hin Hc Hne. apply (proj2 (first_occurrences_In _ _)).
      rewrite <- Ecs. apply (proj2 (preference_countries_In _ _)). eauto.
    + intros E. rewrite E in Ecs. discriminate.
Qed.

End StrictFilterFacts.
